(** * pyflyby/_cmdline.py: the action pipeline of the command-line driver

    A shallow embedding of [src/lib/python/pyflyby/_cmdline.py]: the
    [Modifier] content cache, the action functions, and [process_actions].
    Python objects with mutable attributes become records threaded through
    a state-and-exception monad; the operating system (files, console,
    environment, child processes) is an explicit [World]. *)

From Stdlib Require Import ZArith Ascii String List Sorted.
From stdpp Require Import gmap strings pretty list fin_maps.
Import ListNotations.
Open Scope string_scope.

(** ** Python strings *)

Module PyStr.

(** The whitespace of [str.strip()] with no argument, for a Python 2
    string: space, \t, \n, \v, \f, \r. *)
Definition isspace (c : ascii) : bool :=
  let n := nat_of_ascii c in
  (n =? 32)%nat || ((9 <=? n)%nat && (n <=? 13)%nat).

(** [s.lstrip()] *)
Fixpoint lstrip (s : string) : string :=
  match s with
  | EmptyString => EmptyString
  | String c r => if isspace c then lstrip r else s
  end.

(** [s.rstrip()]: a character stays when it is not whitespace or when
    something stays after it. *)
Fixpoint rstrip (s : string) : string :=
  match s with
  | EmptyString => EmptyString
  | String c r =>
      match rstrip r with
      | EmptyString => if isspace c then EmptyString else String c EmptyString
      | kept => String c kept
      end
  end.

(** [s.strip()] *)
Definition strip (s : string) : string := rstrip (lstrip s).

(** [s.lower()], on the letters A to Z *)
Definition lower_char (c : ascii) : ascii :=
  let n := nat_of_ascii c in
  if (65 <=? n)%nat && (n <=? 90)%nat then ascii_of_nat (n + 32) else c.

Fixpoint lower (s : string) : string :=
  match s with
  | EmptyString => EmptyString
  | String c r => String (lower_char c) (lower r)
  end.

(** [s.startswith(p)] *)
Fixpoint startswith (s p : string) {struct p} : bool :=
  match p, s with
  | EmptyString, _ => true
  | String a p', String b s' => if Ascii.eqb a b then startswith s' p' else false
  | String _ _, EmptyString => false
  end.

(** [needle in hay] *)
Fixpoint contains (hay needle : string) : bool :=
  startswith hay needle ||
  match hay with
  | EmptyString => false
  | String _ r => contains r needle
  end.

(** The number of positions of [hay] at which [needle] starts. *)
Fixpoint occurrences (hay needle : string) : nat :=
  (if startswith hay needle then 1 else 0) +
  match hay with
  | EmptyString => 0
  | String _ r => occurrences r needle
  end.

Definition LF : ascii := ascii_of_nat 10.
Definition CR : ascii := ascii_of_nat 13.
Definition nl : string := String LF EmptyString.

(** [s.splitlines()] of a Python 2 byte string: lines end at \n, \r or
    \r\n; the line ends are dropped; text after the last line end is a
    last line, and nothing is added when there is none. [cur] holds the
    characters of the current line, latest first; [open] tells whether a
    line has been started since the last line end. *)
Fixpoint splitlines_aux (s : string) (cur : string) (open : bool) : list string :=
  match s with
  | EmptyString => if open then [String.rev cur] else []
  | String c r =>
      if Ascii.eqb c LF then String.rev cur :: splitlines_aux r "" false
      else if Ascii.eqb c CR then
        match r with
        | String d r' =>
            if Ascii.eqb d LF then String.rev cur :: splitlines_aux r' "" false
            else String.rev cur :: splitlines_aux r "" false
        | EmptyString => [String.rev cur]
        end
      else splitlines_aux r (String c cur) true
  end.

Definition splitlines (s : string) : list string := splitlines_aux s "" false.

(** [sep.join(l)] *)
Fixpoint join (sep : string) (l : list string) : string :=
  match l with
  | [] => ""
  | [x] => x
  | x :: r => x ++ sep ++ join sep r
  end.

(** [s.upper()], on the letters a to z *)
Definition upper_char (c : ascii) : ascii :=
  let n := nat_of_ascii c in
  if (97 <=? n)%nat && (n <=? 122)%nat then ascii_of_nat (n - 32) else c.

Fixpoint upper (s : string) : string :=
  match s with
  | EmptyString => EmptyString
  | String c r => String (upper_char c) (upper r)
  end.

(** [s.split(sep)] for a separator of one character: the pieces between
    the separators, of which there is always at least one. *)
Fixpoint split (sep : ascii) (s : string) : list string :=
  match s with
  | EmptyString => [""]
  | String c r =>
      if Ascii.eqb c sep then "" :: split sep r
      else match split sep r with
           | piece :: pieces => String c piece :: pieces
           | [] => [String c ""]
           end
  end.

(** [s[n:]] *)
Fixpoint slice_from (n : nat) (s : string) : string :=
  match n, s with
  | S n, String _ r => slice_from n r
  | _, _ => s
  end.

End PyStr.

(** ** Exceptions and results *)

(** The argument of [SystemExit]: an integer status or a message. *)
Inductive exit_arg :=
| ExitCode (n : Z)
| ExitMsg (msg : string).

(** The exceptions the module raises or lets through.  [PyError] is an
    instance of a subclass of [Exception] other than [AbortActions], seen
    through [type(e).__name__] and [str(e)]; [KeyboardInterrupt] and
    [SystemExit] are not subclasses of [Exception]. *)
Inductive exn :=
| AbortActions
| PyError (tname msg : string)
| KeyboardInterrupt
| SystemExit (a : exit_arg).

Inductive res (A : Type) :=
| Ok (a : A)
| Raise (e : exn).
Arguments Ok {A} a.
Arguments Raise {A} e.

(** The status with which the interpreter exits when [SystemExit] reaches
    the top level: the integer itself, and 1 after printing a message. *)
Definition exit_status (a : exit_arg) : Z :=
  match a with
  | ExitCode n => n
  | ExitMsg _ => 1
  end.

(** The three results of an action in the words of the specification, and
    a fourth for an exception that is not an [Exception]: it ends the run. *)
Inductive outcome :=
| Continue
| Abort
| Fail (tname msg : string)
| Terminate (e : exn).

Definition outcome_of {A} (r : res A) : outcome :=
  match r with
  | Ok _ => Continue
  | Raise AbortActions => Abort
  | Raise (PyError t m) => Fail t m
  | Raise e => Terminate e
  end.

(** ** File names and file text *)

(** Modelled from the spec: class [Filename] of [pyflyby._file] is not in
    the sources at hand.  A source is "either a real path or a sentinel
    denoting standard input". *)
Inductive Filename :=
| STDIN
| Path (p : string).

#[global] Instance Filename_eq_dec : EqDecision Filename.
Proof. solve_decision. Defined.

(** The value a caller stores in [Modifier.filename]: an instance of
    [Filename], or any other object (a plain string). *)
Inductive source :=
| OfFilename (f : Filename)
| OfStr (s : string).

#[global] Instance source_eq_dec : EqDecision source.
Proof. solve_decision. Defined.

(** [str(filename)], as the [%s] conversions use it. *)
Definition str_Filename (f : Filename) : string :=
  match f with
  | STDIN => "/dev/stdin"
  | Path p => p
  end.

Definition str_source (s : source) : string :=
  match s with
  | OfFilename f => str_Filename f
  | OfStr s => s
  end.

(** [x == Filename.STDIN] *)
Definition is_STDIN (s : source) : bool :=
  match s with
  | OfFilename STDIN => true
  | _ => false
  end.

(** Modelled from the spec: class [FileText] of [pyflyby._file] is not in
    the sources at hand.  Content is the "in-memory text of a file, tagged
    with its originating source identifier"; [joined] is the text. *)
Record FileText := mkFileText {
  joined : string;
  ft_filename : source
}.

#[global] Instance FileText_eq_dec : EqDecision FileText.
Proof. solve_decision. Defined.

(** ** The world outside the program *)

Inductive log_level := LDEBUG | LINFO | LERROR.

(** What the program does to the outside, in order; used to count reads,
    transform applications, writes and child processes. *)
Inductive event :=
| EvRead (src : source)
| EvTransform (input : FileText)
| EvWrite (path : string) (text : string)
| EvExec (cmd : string)
| EvTempCreate (name : string)
| EvTempClose (name : string).

#[global] Instance event_eq_dec : EqDecision event.
Proof. solve_decision. Defined.

(** What the user does at the console while [raw_input()] waits. An empty
    list of console events is the end of the input stream. *)
Inductive console_event :=
| Typed (line : string)
| CtrlC.

(** Facts of the process that the module reads and never changes while
    [process_actions] runs, and the calls whose result the module cannot
    know: [str.format] on a user-supplied prompt; the child process started
    by [subprocess.call], which returns an exit status and may have changed
    any file; and the call [type(e)(text)] of the class of an exception on
    one string.  A class is known by its name.  The call gives a new
    exception of the class, known by what [str] gives for it, or raises:
    [UnicodeDecodeError], for one, takes five arguments. *)
Record Process := mkProcess {
  argv0 : string;                 (* sys.argv[0] *)
  maindoc : string;               (* maindoc() *)
  bindir : string;                (* os.path.dirname(os.path.realpath(sys.argv[0])) *)
  isatty0 : bool;                 (* os.isatty(0) *)
  isatty1 : bool;                 (* os.isatty(1) *)
  DEBUG : bool;                   (* the module global DEBUG *)
  str_format : string -> string -> res string;
                                  (* prompt.format(filename=...) *)
  subprocess_call :
    string -> gmap string string -> gmap string string -> Z * gmap string string;
                                  (* command, environment, files: status, files *)
  exception_call : string -> string -> res string
                                  (* class name, text: str(type(e)(text)) *)
}.

Record World := mkWorld {
  fs : gmap string string;        (* readable files: path to text *)
  stdin_text : string;            (* the text a read of standard input gives *)
  console : list console_event;   (* what raw_input() will meet *)
  stdout : list string;           (* chunks written to sys.stdout *)
  stderr : list string;           (* chunks written to sys.stderr *)
  log : list (log_level * string);
  trace : list event;
  environ : gmap string string;   (* os.environ *)
  tmp_avail : nat;                (* temp files that can still be allocated *)
  unwritable : gset string        (* paths at which a write fails *)
}.

Definition set_fs (f : gmap string string) (w : World) : World :=
  mkWorld f (stdin_text w) (console w) (stdout w) (stderr w) (log w) (trace w)
          (environ w) (tmp_avail w) (unwritable w).

Definition set_console (c : list console_event) (w : World) : World :=
  mkWorld (fs w) (stdin_text w) c (stdout w) (stderr w) (log w) (trace w)
          (environ w) (tmp_avail w) (unwritable w).

Definition write_stdout (s : string) (w : World) : World :=
  mkWorld (fs w) (stdin_text w) (console w) (stdout w ++ [s]) (stderr w) (log w)
          (trace w) (environ w) (tmp_avail w) (unwritable w).

Definition write_stderr (s : string) (w : World) : World :=
  mkWorld (fs w) (stdin_text w) (console w) (stdout w) (stderr w ++ [s]) (log w)
          (trace w) (environ w) (tmp_avail w) (unwritable w).

Definition add_log (l : log_level) (s : string) (w : World) : World :=
  mkWorld (fs w) (stdin_text w) (console w) (stdout w) (stderr w) (log w ++ [(l, s)])
          (trace w) (environ w) (tmp_avail w) (unwritable w).

Definition add_event (e : event) (w : World) : World :=
  mkWorld (fs w) (stdin_text w) (console w) (stdout w) (stderr w) (log w)
          (trace w ++ [e]) (environ w) (tmp_avail w) (unwritable w).

Definition set_environ (e : gmap string string) (w : World) : World :=
  mkWorld (fs w) (stdin_text w) (console w) (stdout w) (stderr w) (log w) (trace w)
          e (tmp_avail w) (unwritable w).

Definition set_tmp_avail (n : nat) (w : World) : World :=
  mkWorld (fs w) (stdin_text w) (console w) (stdout w) (stderr w) (log w) (trace w)
          (environ w) n (unwritable w).

(** ** Collaborators of the module *)

(** Modelled from the spec: [read_file] of [pyflyby._file] is not in the
    sources at hand.  It gives the text of the source and "fails with
    ReadError if source unreadable"; each call reads the source. *)
Definition read_file (src : source) (w : World) : res FileText * World :=
  let w := add_event (EvRead src) w in
  if is_STDIN src then (Ok (mkFileText (stdin_text w) src), w)
  else match fs w !! str_source src with
       | Some text => (Ok (mkFileText text src), w)
       | None => (Raise (PyError "ReadError" ("cannot read " ++ str_source src)), w)
       end.

(** Modelled from the spec: [atomic_write_file] of [pyflyby._file] is not
    in the sources at hand.  "WriteAtomic(path, content)": "the write must
    either fully succeed or leave the original file untouched". *)
Definition atomic_write_file (dst : source) (text : FileText) (w : World)
  : res unit * World :=
  let p := str_source dst in
  if decide (p ∈ unwritable w)
  then (Raise (PyError "IOError" ("cannot write " ++ p)), w)
  else (Ok tt, add_event (EvWrite p (joined text)) (set_fs (<[p := joined text]> (fs w)) w)).

(** [tempfile.NamedTemporaryFile()]: a new empty file under a name that no
    file has, or an error when none can be allocated.  The file object is
    known by its name. *)
Definition NamedTemporaryFile (w : World) : res string * World :=
  match tmp_avail w with
  | O => (Raise (PyError "OSError" "cannot allocate a temporary file"), w)
  | S n =>
      let name : string := fresh (dom (fs w)) in
      (Ok name,
       add_event (EvTempCreate name)
         (set_tmp_avail n (set_fs (<[name := ""]> (fs w)) w)))
  end.

(** [f.write(text); f.flush()] on a temporary file *)
Definition tmp_write (name text : string) (w : World) : World :=
  set_fs (<[name := text]> (fs w)) w.



(** [raw_input()] *)
Definition raw_input (w : World) : res string * World :=
  match console w with
  | [] => (Raise (PyError "EOFError" "EOF when reading a line"), w)
  | Typed line :: rest => (Ok line, set_console rest w)
  | CtrlC :: rest => (Raise KeyboardInterrupt, set_console rest w)
  end.

(** ** The [Modifier] object and the monad of its methods *)

(** Modelled from the spec: the decorator [cached_attribute] of
    [pyflyby._util] is not in the sources at hand.  "Lazy memoized
    attributes -> model as an explicit state machine per field:
    {NotComputed, Computed(value), Failed(error)}, computed on first
    access". *)
Inductive cell (A : Type) :=
| NotComputed
| Computed (v : A)
| Failed (e : exn).
Arguments NotComputed {A}.
Arguments Computed {A} v.
Arguments Failed {A} e.

(** The result of the call of [modifier]: the new text, or an exception. *)
Definition transform := FileText -> res string.

(** An instance of [class Modifier]: the three attributes that [__init__]
    sets, and one cell for each cached attribute.  A temporary file object
    in [_tmpfiles] is known by its name. *)
Record Modifier := mkModifier {
  modifier : transform;
  filename : source;
  _tmpfiles : list string;
  input_content_cell : cell FileText;
  output_content_cell : cell FileText;
  output_content_filename_cell : cell Filename;
  input_content_filename_cell : cell Filename
}.

(** [Modifier.__init__] *)
Definition Modifier_init (modify_function : transform) (f : source) : Modifier :=
  mkModifier modify_function f [] NotComputed NotComputed NotComputed NotComputed.

Definition set_tmpfiles (l : list string) (m : Modifier) : Modifier :=
  mkModifier (modifier m) (filename m) l (input_content_cell m)
             (output_content_cell m) (output_content_filename_cell m)
             (input_content_filename_cell m).

Definition set_input_content_cell (c : cell FileText) (m : Modifier) : Modifier :=
  mkModifier (modifier m) (filename m) (_tmpfiles m) c
             (output_content_cell m) (output_content_filename_cell m)
             (input_content_filename_cell m).

Definition set_output_content_cell (c : cell FileText) (m : Modifier) : Modifier :=
  mkModifier (modifier m) (filename m) (_tmpfiles m) (input_content_cell m)
             c (output_content_filename_cell m) (input_content_filename_cell m).

Definition set_output_content_filename_cell (c : cell Filename) (m : Modifier)
  : Modifier :=
  mkModifier (modifier m) (filename m) (_tmpfiles m) (input_content_cell m)
             (output_content_cell m) c (input_content_filename_cell m).

Definition set_input_content_filename_cell (c : cell Filename) (m : Modifier)
  : Modifier :=
  mkModifier (modifier m) (filename m) (_tmpfiles m) (input_content_cell m)
             (output_content_cell m) (output_content_filename_cell m) c.

(** A method of a [Modifier], or a function that is passed one: it may
    change the object and the world, and returns or raises. *)
Definition M (A : Type) : Type := Modifier -> World -> res A * Modifier * World.

Definition ret {A} (a : A) : M A := fun m w => (Ok a, m, w).

Definition raise {A} (e : exn) : M A := fun m w => (Raise e, m, w).

Definition bind {A B} (c : M A) (k : A -> M B) : M B :=
  fun m w =>
    match c m w with
    | (Ok a, m', w') => k a m' w'
    | (Raise e, m', w') => (Raise e, m', w')
    end.

Notation "'let*' x ':=' c 'in' k" := (bind c (fun x => k))
  (at level 10, x pattern, c at level 100, k at level 200).
Notation "c ';;;' k" := (bind c (fun _ => k))
  (at level 100, k at level 200, right associativity).

(** A change of the world that cannot fail. *)
Definition effect (f : World -> World) : M unit :=
  fun m w => (Ok tt, m, f w).

(** A call that depends on the world only. *)
Definition call {A} (f : World -> res A * World) : M A :=
  fun m w => let '(r, w') := f w in (r, m, w').

(** A change of the object. *)
Definition update (f : Modifier -> Modifier) : M unit :=
  fun m w => (Ok tt, f m, w).

(** [self.<attribute>] for an attribute set by [__init__] *)
Definition self {A} (get : Modifier -> A) : M A :=
  fun m w => (Ok (get m), m, w).

(** Modelled from the spec: [cached_attribute] (see [cell]).  The first
    access runs the method and stores what it gives; a later access gives
    what is stored and runs nothing. *)
Definition cached_attribute {A} (get : Modifier -> cell A)
    (set : cell A -> Modifier -> Modifier) (method : M A) : M A :=
  fun m w =>
    match get m with
    | Computed v => (Ok v, m, w)
    | Failed e => (Raise e, m, w)
    | NotComputed =>
        match method m w with
        | (Ok v, m', w') => (Ok v, set (Computed v) m', w')
        | (Raise e, m', w') => (Raise e, set (Failed e) m', w')
        end
    end.

(** The call [self.modifier(text)], with the event that counts it. *)
Definition call_modifier (text : FileText) : M string :=
  fun m w =>
    let w := add_event (EvTransform text) w in
    (modifier m text, m, w).

(** [Modifier.input_content] *)
Definition input_content : M FileText :=
  cached_attribute input_content_cell set_input_content_cell
    (let* f := self filename in
     call (read_file f)).

(** [Modifier.output_content] *)
Definition output_content : M FileText :=
  cached_attribute output_content_cell set_output_content_cell
    (let* inp := input_content in
     let* out := call_modifier inp in
     let* f := self filename in
     ret (mkFileText out f)).

(** [Modifier._tempfile] *)
Definition _tempfile : M (string * Filename) :=
  let* f := call NamedTemporaryFile in
  update (fun m => set_tmpfiles (_tmpfiles m ++ [f]) m) ;;;
  ret (f, Path f).

(** [Modifier.output_content_filename] *)
Definition output_content_filename : M Filename :=
  cached_attribute output_content_filename_cell set_output_content_filename_cell
    (let* (f, fname) := _tempfile in
     let* out := output_content in
     effect (tmp_write f (joined out)) ;;;
     ret fname).

(** [Modifier.input_content_filename]; [isinstance(self.filename, Filename)]
    is the case [OfFilename]. *)
Definition input_content_filename : M Filename :=
  cached_attribute input_content_filename_cell set_input_content_filename_cell
    (let* fn := self filename in
     match fn with
     | OfFilename f => ret f
     | OfStr _ =>
         let* (f, fname) := _tempfile in
         let* inp := input_content in
         effect (tmp_write f (joined inp)) ;;;
         ret fname
     end).


(** ** The action functions and the driver *)

(** What an action function returns: [None], or [True] from the query. *)
Inductive pyval := PyNone | PyTrue.

(** An action is a function of the [Modifier] [m]. *)
Definition action := M pyval.

(** [try: body except KeyboardInterrupt: handler] *)
Definition try_except_KeyboardInterrupt {A} (body handler : M A) : M A :=
  fun m w =>
    match body m w with
    | (Raise KeyboardInterrupt, m', w') => handler m' w'
    | r => r
    end.

(** [for action in actions: action(m)] *)
Fixpoint run_actions (actions : list action) : M unit :=
  match actions with
  | [] => ret tt
  | a :: rest => a ;;; run_actions rest
  end.

Section Driver.

Variable P : Process.

(** [action_print] *)
Definition action_print : action :=
  let* output_content := output_content in
  effect (write_stdout (joined output_content)) ;;;
  ret PyNone.

(** [action_ifchanged] *)
Definition action_ifchanged : action :=
  let* out := output_content in
  let* inp := input_content in
  if String.eqb (joined out) (joined inp) then
    let* f := self filename in
    effect (add_log LDEBUG ("unmodified: " ++ str_source f)) ;;;
    raise AbortActions
  else ret PyNone.

(** [action_replace] *)
Definition action_replace : action :=
  let* f := self filename in
  if is_STDIN f then raise (PyError "Exception" "Can't replace stdio in-place")
  else
    effect (add_log LINFO (str_source f ++ ": *** modified ***")) ;;;
    let* out := output_content in
    call (atomic_write_file f out) ;;;
    ret PyNone.

(** [env['PATH'] = env['PATH'] + ":" + bindir], on [os.environ] itself *)
Definition extend_PATH (w : World) : res unit * World :=
  match environ w !! "PATH" with
  | None => (Raise (PyError "KeyError" "'PATH'"), w)
  | Some path =>
      (Ok tt, set_environ (<["PATH" := path ++ ":" ++ bindir P]> (environ w)) w)
  end.

(** [subprocess.call(fullcmd, shell=True, env=env)] *)
Definition subprocess_call_shell (fullcmd : string) (w : World) : res Z * World :=
  let '(status, files) := subprocess_call P fullcmd (environ w) (fs w) in
  (Ok status, add_event (EvExec fullcmd) (set_fs files w)).

(** [action_external_command(command)] *)
Definition action_external_command (command : string) : action :=
  call extend_PATH ;;;
  let* inp := input_content_filename in
  let* out := output_content_filename in
  let fullcmd := command ++ " " ++ str_Filename inp ++ " " ++ str_Filename out in
  effect (add_log LDEBUG ("Executing external command: " ++ fullcmd)) ;;;
  let* status := call (subprocess_call_shell fullcmd) in
  effect (add_log LDEBUG ("External command returned " ++ pretty status)) ;;;
  ret PyNone.

(** [action_query(prompt)]; the default prompt is ["Proceed?"]. *)
Definition action_query (prompt : string) : action :=
  let* f := self filename in
  let* p := call (fun w => (str_format P prompt (str_source f), w)) in
  effect (write_stdout PyStr.nl) ;;;
  effect (write_stdout (p ++ " [y/N] ")) ;;;
  let* yes :=
    try_except_KeyboardInterrupt
      (let* line := call raw_input in
       ret (PyStr.startswith (PyStr.lower (PyStr.strip line)) "y"))
      (effect (write_stderr ("KeyboardInterrupt" ++ PyStr.nl)) ;;;
       raise (SystemExit (ExitCode 1))) in
  if yes : bool then ret PyTrue
  else
    effect (write_stdout ("Aborted" ++ PyStr.nl)) ;;;
    raise AbortActions.

Definition action_query_default : action := action_query "Proceed?".

(** In [parse_args]: [action_diff], [actions_interactive], and the value
    given to [parser.set_default('actions', ...)]. *)
Definition action_diff : action := action_external_command "pyflyby-diff".

Definition actions_interactive : list action :=
  [action_ifchanged; action_diff; action_query "Replace {filename}?"; action_replace].

Definition default_actions : list action :=
  if isatty0 P && isatty1 P then actions_interactive else [action_print].

(** [syntax()] *)
Definition syntax {A} (w : World) : res A * World :=
  (Raise (SystemExit (ExitCode 1)),
   write_stderr (maindoc P ++ PyStr.nl ++ PyStr.nl ++ "For usage, see: "
                 ++ argv0 P ++ " --help" ++ PyStr.nl) w).

(** The local function [on_error_filename_arg] of [process_actions]; it
    appends to the list [errors] of its enclosing function. *)
Definition on_error_filename_arg (arg : string) (errors : list string) (w : World)
  : list string * World :=
  ((errors ++ [(arg ++ ": bad filename")%string])%list,
   write_stderr (argv0 P ++ ": bad filename " ++ arg ++ PyStr.nl) w).

(** Modelled from the spec: [expand_py_files_from_args] of
    [pyflyby._file] is not in the sources at hand.  "Resolve(args,
    onError)": an argument that "does not denote a readable file and is
    not the standard-input sentinel" is reported through the callback,
    "without aborting resolution of the remaining arguments".  The
    sentinel is written [-] on the command line. *)
Fixpoint expand_py_files_from_args (args : list string)
    (on_error : string -> list string -> World -> list string * World)
    (errors : list string) (w : World) : list Filename * list string * World :=
  match args with
  | [] => ([], errors, w)
  | arg :: rest =>
      if String.eqb arg "-" then
        let '(l, errors, w) := expand_py_files_from_args rest on_error errors w in
        (STDIN :: l, errors, w)
      else if decide (is_Some (fs w !! arg)) then
        let '(l, errors, w) := expand_py_files_from_args rest on_error errors w in
        (Path arg :: l, errors, w)
      else
        let '(errors, w) := on_error arg errors w in
        expand_py_files_from_args rest on_error errors w
  end.

(** [filename_args(args, on_error)] *)
Definition filename_args (args : list string)
    (on_error : string -> list string -> World -> list string * World)
    (errors : list string) (w : World) : res (list Filename) * list string * World :=
  match args with
  | _ :: _ =>
      let '(l, errors, w) := expand_py_files_from_args args on_error errors w in
      (Ok l, errors, w)
  | [] =>
      if negb (isatty0 P) then (Ok [STDIN], errors, w)
      else let '(r, w) := syntax w in (r, errors, w)
  end.

(** [traceback.print_exception] of the exception being handled; the
    stack frames are left out. *)
Definition print_exception (tname msg : string) (w : World) : World :=
  write_stderr ("Traceback (most recent call last):" ++ PyStr.nl
                ++ tname ++ ": " ++ msg ++ PyStr.nl) w.

(** The record that [process_actions] appends to [errors] for a file
    whose actions raised an exception. *)
Definition error_record (filename : Filename) (tname msg : string) : string :=
  str_Filename filename ++ ": " ++ tname ++ ": " ++ msg.

(** [if str(filename) not in str(e): e = type(e)("While processing ...")]:
    the exception that [e] names afterwards, or the exception that the call
    of the class raises. *)
Definition wrapped_exception (filename : Filename) (tname msg : string) : res exn :=
  if negb (PyStr.contains msg (str_Filename filename))
  then
    match exception_call P tname
            ("While processing " ++ str_Filename filename ++ ": " ++ msg) with
    | Ok msg' => Ok (PyError tname msg')
    | Raise x => Raise x
    end
  else Ok (PyError tname msg).

(** The [try] block of the loop of [process_actions], for one file: the
    result of the actions, the [Modifier] they leave, and the world. *)
Definition run_file (actions : list action) (modify_function : transform)
    (filename : Filename) (w : World) : res unit * Modifier * World :=
  run_actions actions (Modifier_init modify_function (OfFilename filename)) w.

(** One turn of the loop of [process_actions]: [Ok] when the loop goes
    on to the next file, [Raise] when an exception leaves the loop.  In the
    clause [except Exception] the record is appended first; the exception is
    then rebuilt, in debug mode or not, and an exception raised there, inside
    the handler, leaves the loop. *)
Definition process_file (actions : list action) (modify_function : transform)
    (filename : Filename) (errors : list string) (w : World)
  : res unit * list string * World :=
  match run_file actions modify_function filename w with
  | (Ok _, _, w) => (Ok tt, errors, w)
  | (Raise AbortActions, _, w) => (Ok tt, errors, w)
  | (Raise (PyError tname msg), _, w) =>
      let errors := (errors ++ [error_record filename tname msg])%list in
      match wrapped_exception filename tname msg with
      | Raise x => (Raise x, errors, w)
      | Ok e =>
          if DEBUG P then (Raise e, errors, w)
          else (Ok tt, errors, print_exception tname msg w)
      end
  | (Raise e, _, w) => (Raise e, errors, w)
  end.

(** [for filename in filenames: ...] *)
Fixpoint process_files (actions : list action) (modify_function : transform)
    (filenames : list Filename) (errors : list string) (w : World)
  : res unit * list string * World :=
  match filenames with
  | [] => (Ok tt, errors, w)
  | filename :: rest =>
      match process_file actions modify_function filename errors w with
      | (Ok _, errors, w) => process_files actions modify_function rest errors w
      | r => r
      end
  end.

(** The text that one record adds to the summary:
    ["    " + lines[0] + '\n'.join("            %s" % line for line in lines[1:])] *)
Definition summary_entry (e : string) : res string :=
  match PyStr.splitlines e with
  | [] => Raise (PyError "IndexError" "list index out of range")
  | line0 :: lines =>
      Ok ("    " ++ line0
          ++ PyStr.join PyStr.nl (map (fun line => "            " ++ line) lines))
  end.

(** [for e in errors: ... msg += ...] *)
Fixpoint summary_body (msg : string) (errors : list string) : res string :=
  match errors with
  | [] => Ok msg
  | e :: rest =>
      match summary_entry e with
      | Ok s => summary_body (msg ++ s) rest
      | Raise x => Raise x
      end
  end.

Definition summary_header : string :=
  PyStr.nl ++ argv0 P ++ ": encountered the following problems:" ++ PyStr.nl.

(** [if errors: ... raise SystemExit(msg)] *)
Definition report (errors : list string) : res unit :=
  match errors with
  | [] => Ok tt
  | _ :: _ =>
      match summary_body summary_header errors with
      | Ok msg => Raise (SystemExit (ExitMsg msg))
      | Raise x => Raise x
      end
  end.

(** The loop and the report of [process_actions], from the list that
    [filename_args] returned. *)
Definition process_resolved (filenames : list Filename) (actions : list action)
    (modify_function : transform) (errors : list string) (w : World)
  : res unit * list string * World :=
  match process_files actions modify_function filenames errors w with
  | (Ok _, errors, w) => (report errors, errors, w)
  | r => r
  end.

(** [process_actions(filenames, actions, modify_function)]: its result,
    the final value of its local list [errors], and the world. *)
Definition process_actions (filenames : list string) (actions : list action)
    (modify_function : transform) (w : World) : res unit * list string * World :=
  match filename_args filenames on_error_filename_arg [] w with
  | (Ok filenames, errors, w) =>
      process_resolved filenames actions modify_function errors w
  | (Raise e, errors, w) => (Raise e, errors, w)
  end.

(** The exit status of a script whose last call is [process_actions]. *)
Definition script_exit_status (r : res unit) : Z :=
  match r with
  | Ok _ => 0
  | Raise (SystemExit a) => exit_status a
  | Raise _ => 1
  end.

End Driver.

(** ** Vocabulary of the properties *)

(** The action functions that [parse_action] and the option callbacks of
    [parse_args] can put in [actions]. *)
Definition known_action (P : Process) (a : action) : Prop :=
  a = action_print \/ a = action_ifchanged \/ a = action_replace
  \/ (exists command, a = action_external_command P command)
  \/ (exists prompt, a = action_query P prompt).

Definition is_read (e : event) : bool :=
  match e with EvRead _ => true | _ => false end.

Definition is_transform (e : event) : bool :=
  match e with EvTransform _ => true | _ => false end.

Definition is_write (e : event) : bool :=
  match e with EvWrite _ _ => true | _ => false end.

(** The number of events of a kind in a trace. *)
Definition count_events (kind : event -> bool) (l : list event) : nat :=
  length (List.filter kind l).


(** The test that [action_query] makes on the line it read. *)
Definition answers_yes (line : string) : bool :=
  PyStr.startswith (PyStr.lower (PyStr.strip line)) "y".

(** An affirmative answer in the words of the specification
    ("case-insensitive, y prefix"): the first character that is not
    whitespace is y or Y. *)
Definition affirmative (line : string) : bool :=
  match PyStr.lstrip line with
  | String c _ => Ascii.eqb c "y" || Ascii.eqb c "Y"
  | EmptyString => false
  end.

(** What a cached attribute gives once its cell is filled. *)
Definition cell_result {A} (c : cell A) : option (res A) :=
  match c with
  | NotComputed => None
  | Computed v => Some (Ok v)
  | Failed e => Some (Raise e)
  end.

(** The output content that a transform gives for an input content. *)
Definition transformed (f : transform) (src : source) (inp : FileText) : res FileText :=
  match f inp with
  | Ok text => Ok (mkFileText text src)
  | Raise e => Raise e
  end.

(** A method preserves a property of the object and the world when the
    property holds after every run that started where it held, whether the
    run returned or raised. *)
Definition preserves {A} (I : Modifier -> World -> Prop) (c : M A) : Prop :=
  forall m w r m' w', c m w = (r, m', w') -> I m w -> I m' w'.

(** The files are those of the world [w0], and nothing was written with
    [atomic_write_file] since. *)
Definition untouched (w0 : World) (m : Modifier) (w : World) : Prop :=
  fs w = fs w0
  /\ count_events is_write (trace w) = count_events is_write (trace w0).

Definition is_create (e : event) : bool :=
  match e with EvTempCreate _ => true | _ => false end.

(** A change of the world adds no event of a kind when the trace after it
    is the trace before it followed by events that are not of the kind. *)
Definition adds_none (kind : event -> bool) (g : World -> World) : Prop :=
  forall w, exists es,
    trace (g w) = (trace w ++ es)%list /\ Forall (fun e => kind e = false) es.

(** Since the world [w0], every temporary file that was created is in
    [_tmpfiles]. *)
Definition tracks (w0 : World) (m : Modifier) (w : World) : Prop :=
  exists evs,
    trace w = (trace w0 ++ evs)%list
    /\ forall name, In (EvTempCreate name) evs -> In name (_tmpfiles m).

Definition is_read_or_transform (e : event) : bool := is_read e || is_transform e.

Definition is_close (e : event) : bool :=
  match e with EvTempClose _ => true | _ => false end.

(** Since the world [w0], no temporary file was closed. *)
Definition unclosed (w0 : World) (m : Modifier) (w : World) : Prop :=
  exists evs,
    trace w = (trace w0 ++ evs)%list /\ Forall (fun e => is_close e = false) evs.


(** What holds of a [Modifier] made for the transform [f] and the source
    [src] in the world [w0], as long as only its own methods and the actions
    change it: the source was read once if the input cell is filled and not
    at all otherwise; the transform was applied at most once, and not at all
    while the output cell is empty; and a filled output cell holds what the
    transform gives for the input content, or the error of the read. *)
Definition memo_inv (f : transform) (src : source) (w0 : World)
    (m : Modifier) (w : World) : Prop :=
  modifier m = f /\ filename m = src
  /\ exists evs,
      trace w = (trace w0 ++ evs)%list
      /\ count_events is_read evs
         = match input_content_cell m with NotComputed => 0 | _ => 1 end
      /\ count_events is_transform evs <= 1
      /\ (output_content_cell m = NotComputed -> count_events is_transform evs = 0)
      /\ match output_content_cell m with
         | NotComputed => True
         | oc =>
             match input_content_cell m with
             | NotComputed => False
             | Computed inp => cell_result oc = Some (transformed f src inp)
             | Failed e => cell_result oc = Some (Raise e)
             end
         end.

(** The content cells of [m] hold what those of [m0] hold, where those of
    [m0] are filled. *)
Definition keeps (m0 : Modifier) (m : Modifier) (w : World) : Prop :=
  (input_content_cell m0 <> NotComputed ->
   input_content_cell m = input_content_cell m0)
  /\ (output_content_cell m0 <> NotComputed ->
      output_content_cell m = output_content_cell m0).

(** ** Concrete processes, worlds and transforms *)

Module Scenario.

(** [s[n:]] *)
Fixpoint skip (n : nat) (s : string) : string :=
  match n, s with
  | S n, String _ r => skip n r
  | _, _ => s
  end.

(** A [str.format] for prompts whose only replacement field is
    [{filename}]: every occurrence is replaced. *)
Fixpoint format_filename (fuel : nat) (prompt name : string) : string :=
  match fuel with
  | O => prompt
  | S fuel =>
      if PyStr.startswith prompt "{filename}"
      then name ++ format_filename fuel (skip 10 prompt) name
      else match prompt with
           | EmptyString => EmptyString
           | String c r => String c (format_filename fuel r name)
           end
  end.

Definition simple_format (prompt name : string) : res string :=
  Ok (format_filename (S (String.length prompt)) prompt name).

(** The exception classes of the examples: [UnicodeDecodeError] takes five
    arguments; any other class here is made from one string, and [str] of
    the new exception is that string. *)
Definition class_call (tname text : string) : res string :=
  if String.eqb tname "UnicodeDecodeError"
  then Raise (PyError "TypeError" "function takes exactly 5 arguments (1 given)")
  else Ok text.

(** A process with both standard streams away from a terminal, whose
    child processes exit with the given status and change no file. *)
Definition proc (debug : bool) (status : Z) : Process :=
  mkProcess "tidy-imports" "usage: tidy-imports [files]" "/usr/bin"
            false false debug simple_format
            (fun _ _ files => (status, files)) class_call.


(** The same at a terminal, with no arguments to resolve. *)
Definition proc_tty : Process :=
  mkProcess "tidy-imports" "usage: tidy-imports [files]" "/usr/bin"
            true true false simple_format
            (fun _ _ files => (0%Z, files)) class_call.

Definition files_AC : gmap string string :=
  <["a.py" := "import os" ++ PyStr.nl]> (<["c.py" := "import sys" ++ PyStr.nl]> ∅).

Definition world (files : gmap string string) (keys : list console_event) : World :=
  mkWorld files "" keys [] [] [] [] (<["PATH" := "/bin"]> ∅) 8 ∅.

(** A transform that adds a comment to [import sys] and leaves any other
    text as it is. *)
Definition add_comment : transform :=
  fun text =>
    if String.eqb (joined text) ("import sys" ++ PyStr.nl)
    then Ok ("import sys  # x" ++ PyStr.nl)
    else Ok (joined text).

(** The identity transform. *)
Definition same : transform := fun text => Ok (joined text).

(** A transform that fails with a message that names the file. *)
Definition failing : transform :=
  fun text =>
    Raise (PyError "SyntaxError"
             ("invalid syntax in " ++ str_source (ft_filename text))).

(** A text that is not ASCII, and a transform that decodes the text as
    ASCII: it fails on such a text, with the message that Python gives, and
    gives back any other text. *)
Definition latin1_text : string := "# caf" ++ String "233" PyStr.nl.

Definition decoding : transform :=
  fun text =>
    if PyStr.contains (joined text) (String "233" "")
    then Raise (PyError "UnicodeDecodeError"
                  ("'ascii' codec can't decode byte 0xe9 in position 5: "
                   ++ "ordinal not in range(128)"))
    else Ok (joined text).

Definition files_ABC : gmap string string := <["b.py" := latin1_text]> files_AC.

(** The process of the examples, outside debug mode; its child processes
    exit with status 3. *)
Definition P0 : Process := proc false 3.

(** The world of the examples: [a.py] and [c.py] exist, [b.py] does not,
    and nobody is at the console. *)
Definition w0 : World := world files_AC [].

(** The same with an answer typed at the console, and with an interrupt. *)
Definition w_yes : World := world files_AC [Typed " Yes"].
Definition w_interrupt : World := world files_AC [CtrlC].

(** The objects that [process_actions] makes for [a.py] and for standard
    input, and one whose file name is a plain string. *)
Definition m_a : Modifier := Modifier_init same (OfFilename (Path "a.py")).
Definition m_c : Modifier := Modifier_init add_comment (OfFilename (Path "c.py")).
Definition m_stdin : Modifier := Modifier_init same (OfFilename STDIN).

(** The life of the object of [c.py]: the change is checked, the input
    content is asked for, the file is replaced and printed. *)
Definition checked := run_actions [action_ifchanged] m_c w0.
Definition asked := input_content checked.1.2 checked.2.
Definition replaced := run_actions [action_replace; action_print] asked.1.2 asked.2.



(** The world with the three files [a.py], [b.py] and [c.py]; [b.py] is
    not ASCII. *)
Definition w_abc : World := world files_ABC [].

End Scenario.

(** ** The options of [parse_args] *)

Section ParseArgs.

Variable P : Process.

(** The conversion [%r] of the error message of [parse_action], and the
    builtin [int] on a string. *)
Variable repr : string -> string.
Variable int : string -> res Z.

(** The local function [parse_action] of [parse_args] *)
Definition parse_action (v : string) : res action :=
  let V := PyStr.upper (PyStr.strip v) in
  if String.eqb V "PRINT" then Ok action_print
  else if String.eqb V "REPLACE" then Ok action_replace
  else if String.eqb V "QUERY" then Ok (action_query P "Proceed?")
  else if String.eqb V "DIFF" then Ok (action_diff P)
  else if PyStr.startswith V "QUERY:" then Ok (action_query P (PyStr.slice_from 6 v))
  else if PyStr.startswith V "EXECUTE:"
       then Ok (action_external_command P (PyStr.slice_from 8 v))
  else if String.eqb V "IFCHANGED" then Ok action_ifchanged
  else Raise (PyError "Exception"
                ("Bad argument " ++ repr v ++ " to --action; "
                 ++ "expected PRINT or REPLACE or QUERY or IFCHANGED "
                 ++ "or EXECUTE:...")).

(** [[parse_action(v) for v in action_args]] *)
Fixpoint parse_actions (action_args : list string) : res (list action) :=
  match action_args with
  | [] => Ok []
  | v :: rest =>
      match parse_action v with
      | Raise e => Raise e
      | Ok a =>
          match parse_actions rest with
          | Raise e => Raise e
          | Ok l => Ok (a :: l)
          end
      end
  end.

(** The callback [action_callback] of the option [--actions]: the value
    that it gives to [parser.values.actions], or the exception that leaves
    the values as they were. *)
Definition action_callback (value : string) : res (list action) :=
  parse_actions (PyStr.split "," value).

(** The lists given to [action_callbacker] for the options [--print],
    [--diff], [--replace] and [--diff-replace]; [--interactive] has
    [actions_interactive]. *)
Definition actions_of_print : list action := [action_print].
Definition actions_of_diff : list action := [action_diff P].
Definition actions_of_replace : list action := [action_ifchanged; action_replace].
Definition actions_of_diff_replace : list action :=
  [action_ifchanged; action_diff P; action_replace].

(** [[int(x.strip()) for x in ...]] *)
Fixpoint parse_ints (l : list string) : res (list Z) :=
  match l with
  | [] => Ok []
  | x :: rest =>
      match int (PyStr.strip x) with
      | Raise e => Raise e
      | Ok n =>
          match parse_ints rest with
          | Raise e => Raise e
          | Ok ns => Ok (n :: ns)
          end
      end
  end.

(** [sorted(set(l))] on integers: the members of [l] in increasing order,
    each once. *)
Fixpoint insert_sorted (x : Z) (l : list Z) : list Z :=
  match l with
  | [] => [x]
  | y :: r =>
      if (x <? y)%Z then x :: l
      else if (x =? y)%Z then l
      else y :: insert_sorted x r
  end.

Definition sorted_set (l : list Z) : list Z := fold_right insert_sorted [] l.

(** The value of [align_imports] that [parse_args] passes on: [True],
    [False], or a tuple of columns. *)
Inductive align_imports_value :=
| AlignTrue
| AlignFalse
| AlignColumns (columns : list Z).

(** The computation of [align_imports] from [options.align_imports] *)
Definition align_imports_of (option : string) : res align_imports_value :=
  match parse_ints (PyStr.split "," option) with
  | Raise e => Raise e
  | Ok align_imports_args =>
      match align_imports_args with
      | [1%Z] => Ok AlignTrue
      | [0%Z] => Ok AlignFalse
      | _ => Ok (AlignColumns (sorted_set align_imports_args))
      end
  end.

End ParseArgs.

(** ** Vocabulary of the further properties *)

(** The environment is [e]. *)
Definition environ_is (e : gmap string string) (m : Modifier) (w : World) : Prop :=
  environ w = e.

(** The actions that only read: print, if-changed and query. *)
Definition reading_action (P : Process) (a : action) : Prop :=
  a = action_print \/ a = action_ifchanged \/ (exists prompt, a = action_query P prompt).

(** A list of integers in strictly increasing order. *)
Definition increasing (l : list Z) : Prop := StronglySorted Z.lt l.

(** The number of commas of a string. *)
Fixpoint commas (s : string) : nat :=
  match s with
  | EmptyString => 0
  | String c r => (if Ascii.eqb c "," then 1 else 0) + commas r
  end.

(** The list of the temporary files of the object is [l]. *)
Definition tmpfiles_are (l : list string) (m : Modifier) (w : World) : Prop :=
  _tmpfiles m = l.

(** A string of whitespace only, and a string without whitespace. *)
Fixpoint all_space (s : string) : bool :=
  match s with
  | EmptyString => true
  | String c r => PyStr.isspace c && all_space r
  end.

Fixpoint no_space (s : string) : bool :=
  match s with
  | EmptyString => true
  | String c r => negb (PyStr.isspace c) && no_space r
  end.

(** The action that [parse_action] gives for a keyword in capitals. *)
Definition action_of_keyword (P : Process) (K : string) : option action :=
  if String.eqb K "PRINT" then Some action_print
  else if String.eqb K "REPLACE" then Some action_replace
  else if String.eqb K "QUERY" then Some (action_query P "Proceed?")
  else if String.eqb K "DIFF" then Some (action_diff P)
  else if String.eqb K "IFCHANGED" then Some action_ifchanged
  else None.

(** A string without a line end. *)
Fixpoint no_linebreak (s : string) : bool :=
  match s with
  | EmptyString => true
  | String c r => negb (Ascii.eqb c PyStr.LF) && negb (Ascii.eqb c PyStr.CR) && no_linebreak r
  end.

(** The records one after the other, each after four spaces. *)
Fixpoint records_in_a_row (errors : list string) : string :=
  match errors with
  | [] => ""
  | e :: rest => "    " ++ e ++ records_in_a_row rest
  end.

(** ** Examples of option values *)

Module Options.

(** An [int] for the examples: a string of decimal digits. *)
Fixpoint digits (acc : Z) (s : string) : res Z :=
  match s with
  | EmptyString => Ok acc
  | String c r =>
      let n := nat_of_ascii c in
      if (48 <=? n)%nat && (n <=? 57)%nat
      then digits (10 * acc + Z.of_nat (n - 48)) r
      else Raise (PyError "ValueError" "invalid literal for int() with base 10")
  end.

Definition int (s : string) : res Z :=
  match s with
  | EmptyString => Raise (PyError "ValueError" "invalid literal for int() with base 10")
  | _ => digits 0 s
  end.

End Options.

(** * Properties *)

(** ** Strings *)

Lemma lstrip_head line c r :
  PyStr.lstrip line = String c r -> PyStr.isspace c = false.
Proof.
  induction line as [|a s IH]; simpl; [discriminate|].
  destruct (PyStr.isspace a) eqn:Ha; [exact IH|].
  intros H; injection H as <- _; exact Ha.
Qed.

Lemma rstrip_head c r :
  PyStr.isspace c = false -> exists kept, PyStr.rstrip (String c r) = String c kept.
Proof.
  intros Hc; simpl. destruct (PyStr.rstrip r); rewrite ?Hc; eauto.
Qed.

Lemma lower_char_y c :
  Ascii.eqb "y" (PyStr.lower_char c) = Ascii.eqb c "y" || Ascii.eqb c "Y".
Proof.
  destruct c as [[] [] [] [] [] [] [] []]; vm_compute; reflexivity.
Qed.

(** The test of the source and the wording of the specification agree. *)
Lemma answers_yes_affirmative line : answers_yes line = affirmative line.
Proof.
  unfold answers_yes, affirmative, PyStr.strip.
  destruct (PyStr.lstrip line) as [|c r] eqn:E; [reflexivity|].
  destruct (rstrip_head c r (lstrip_head _ _ _ E)) as [kept ->].
  cbn [PyStr.lower PyStr.startswith]. rewrite lower_char_y.
  destruct (Ascii.eqb c "y" || Ascii.eqb c "Y"); reflexivity.
Qed.

(** ** Rules for properties that methods preserve *)

Section Preservation.

Context (I : Modifier -> World -> Prop).

Lemma preserves_ret {A} (a : A) : preserves I (ret a).
Proof. intros m w r m' w' H; injection H as <- <- <-; auto. Qed.

Lemma preserves_raise {A} (e : exn) : preserves I (@raise A e).
Proof. intros m w r m' w' H; injection H as <- <- <-; auto. Qed.

Lemma preserves_self {A} (get : Modifier -> A) : preserves I (self get).
Proof. intros m w r m' w' H; injection H as <- <- <-; auto. Qed.

Lemma preserves_bind {A B} (c : M A) (k : A -> M B) :
  preserves I c -> (forall a, preserves I (k a)) -> preserves I (bind c k).
Proof.
  intros Hc Hk m w r m' w' H HI. unfold bind in H.
  destruct (c m w) as [[[a|e] m1] w1] eqn:E.
  - eapply Hk; [exact H|]. eapply Hc; eauto.
  - injection H as <- <- <-. eapply Hc; eauto.
Qed.

Lemma preserves_effect (f : World -> World) :
  (forall m w, I m w -> I m (f w)) -> preserves I (effect f).
Proof. intros Hf m w r m' w' H; injection H as <- <- <-; auto. Qed.

Lemma preserves_update (f : Modifier -> Modifier) :
  (forall m w, I m w -> I (f m) w) -> preserves I (update f).
Proof. intros Hf m w r m' w' H; injection H as <- <- <-; auto. Qed.

Lemma preserves_call {A} (f : World -> res A * World) :
  (forall m w, I m w -> I m (f w).2) -> preserves I (call f).
Proof.
  intros Hf m w r m' w' H HI. unfold call in H.
  specialize (Hf m w HI). destruct (f w) as [r1 w1].
  injection H as <- <- <-. exact Hf.
Qed.

Lemma preserves_cached {A} (get : Modifier -> cell A)
    (set : cell A -> Modifier -> Modifier) (method : M A) :
  (forall c m w, I m w -> I (set c m) w) ->
  preserves I method -> preserves I (cached_attribute get set method).
Proof.
  intros Hset Hm m w r m' w' H HI. unfold cached_attribute in H.
  destruct (get m).
  - destruct (method m w) as [[[v|e] m1] w1] eqn:E;
      injection H as <- <- <-; apply Hset; eapply Hm; eauto.
  - injection H as <- <- <-; auto.
  - injection H as <- <- <-; auto.
Qed.

Lemma preserves_try {A} (body handler : M A) :
  preserves I body -> preserves I handler ->
  preserves I (try_except_KeyboardInterrupt body handler).
Proof.
  intros Hb Hh m w r m' w' H HI. unfold try_except_KeyboardInterrupt in H.
  destruct (body m w) as [[rb m1] w1] eqn:E.
  assert (I m1 w1) by (eapply Hb; eauto).
  destruct rb as [a|[]]; try (injection H as <- <- <-; assumption).
  eapply Hh; eauto.
Qed.

Lemma preserves_run_actions (actions : list action) :
  Forall (preserves I) actions -> preserves I (run_actions actions).
Proof.
  induction 1 as [|a rest Ha _ IH]; simpl.
  - apply preserves_ret.
  - apply preserves_bind; auto.
Qed.

End Preservation.

Ltac pres_step side :=
  lazymatch goal with
  | |- preserves _ (bind _ _) => apply preserves_bind; [|intros ?]
  | |- preserves _ (ret _) => apply preserves_ret
  | |- preserves _ (raise _) => apply preserves_raise
  | |- preserves _ (self _) => apply preserves_self
  | |- preserves _ (effect _) => apply preserves_effect; side
  | |- preserves _ (update _) => apply preserves_update; side
  | |- preserves _ (call _) => apply preserves_call; side
  | |- preserves _ (cached_attribute _ _ _) => apply preserves_cached; [side|]
  | |- preserves _ (try_except_KeyboardInterrupt _ _) => apply preserves_try
  | |- preserves _ (match ?x with _ => _ end) => destruct x
  end.

Create HintDb pres discriminated.

Ltac pres side := repeat first [ solve [auto with pres] | pres_step side ].

(** ** Events *)

Lemma count_events_app kind l1 l2 :
  count_events kind (l1 ++ l2) = count_events kind l1 + count_events kind l2.
Proof. unfold count_events. rewrite List.filter_app, length_app. reflexivity. Qed.

Lemma count_events_snoc kind l e :
  count_events kind (l ++ [e]) = count_events kind l + (if kind e then 1 else 0).
Proof. rewrite count_events_app. unfold count_events; simpl. destruct (kind e); reflexivity. Qed.

(** ** What leaves the files alone *)

Ltac untouched_side :=
  try solve [ intros; assumption
            | unfold untouched; simpl; intros; rewrite ?count_events_snoc; simpl;
              intuition (try congruence; try lia) ].

Lemma call_modifier_untouched w0 text : preserves (untouched w0) (call_modifier text).
Proof.
  intros m w r m' w' H [H1 H2]. injection H as <- <- <-.
  split; simpl; [assumption|]. rewrite count_events_snoc; simpl; lia.
Qed.
#[global] Hint Resolve call_modifier_untouched : pres.

Lemma read_file_untouched w0 src m w :
  untouched w0 m w -> untouched w0 m (read_file src w).2.
Proof.
  intros [H1 H2]. unfold read_file.
  destruct (is_STDIN src); [|destruct (fs _ !! _)]; split; simpl;
    rewrite ?count_events_snoc; simpl; auto; lia.
Qed.

Lemma input_content_untouched w0 : preserves (untouched w0) input_content.
Proof.
  unfold input_content. pres untouched_side.
  intros; apply read_file_untouched; assumption.
Qed.
#[global] Hint Resolve input_content_untouched : pres.

Lemma output_content_untouched w0 : preserves (untouched w0) output_content.
Proof. unfold output_content. pres untouched_side. Qed.
#[global] Hint Resolve output_content_untouched : pres.

Lemma action_ifchanged_untouched w0 : preserves (untouched w0) action_ifchanged.
Proof. unfold action_ifchanged. pres untouched_side. Qed.

(** ** The if-changed action *)

Lemma action_ifchanged_result m w out inp m1 w1 m2 w2 :
  output_content m w = (Ok out, m1, w1) ->
  input_content m1 w1 = (Ok inp, m2, w2) ->
  action_ifchanged m w =
    if String.eqb (joined out) (joined inp)
    then (Raise AbortActions, m2,
          add_log LDEBUG ("unmodified: " ++ str_source (filename m2)) w2)
    else (Ok PyNone, m2, w2).
Proof.
  intros Ho Hi. unfold action_ifchanged, bind. rewrite Ho, Hi.
  destruct (String.eqb (joined out) (joined inp)); reflexivity.
Qed.

Lemma action_ifchanged_noop_raises (f : transform) src w :
  (forall text s, f text = Ok s -> s = joined text) ->
  exists e m' w', action_ifchanged (Modifier_init f src) w = (Raise e, m', w').
Proof.
  intros Hf.
  unfold action_ifchanged, output_content, input_content, cached_attribute, bind,
    call, self, call_modifier, ret; simpl.
  destruct (read_file src w) as [[inp|e] w1]; simpl; [|eauto].
  destruct (f inp) as [s|e] eqn:E; simpl; [|eauto].
  rewrite (Hf _ _ E), String.eqb_refl. unfold effect, raise; simpl. eauto.
Qed.

(** C3. The if-changed action raises [AbortActions], after a debug log
    entry, exactly when the text of the output content equals the text of
    the input content, and returns otherwise; so with the actions
    [action_ifchanged; action_replace] and a transform that gives back the
    text it was given, the run of a file ends inside the if-changed action:
    the replace action is not called, nothing is written and the files are
    as they were. *)
Theorem ifchanged_aborts_iff_output_equals_input :
  (forall m w out inp m1 w1 m2 w2,
      output_content m w = (Ok out, m1, w1) ->
      input_content m1 w1 = (Ok inp, m2, w2) ->
      (joined out = joined inp ->
       action_ifchanged m w =
         (Raise AbortActions, m2,
          add_log LDEBUG ("unmodified: " ++ str_source (filename m2)) w2))
      /\ (joined out <> joined inp -> action_ifchanged m w = (Ok PyNone, m2, w2))
      /\ (outcome_of (action_ifchanged m w).1.1 = Abort <-> joined out = joined inp)
      /\ (outcome_of (action_ifchanged m w).1.1 = Continue <-> joined out <> joined inp))
  /\ (forall (f : transform) filename w r m' w',
      (forall text s, f text = Ok s -> s = joined text) ->
      run_file [action_ifchanged; action_replace] f filename w = (r, m', w') ->
      (exists e,
          r = Raise e
          /\ action_ifchanged (Modifier_init f (OfFilename filename)) w = (Raise e, m', w'))
      /\ fs w' = fs w
      /\ count_events is_write (trace w') = count_events is_write (trace w)).
Proof.
  split.
  - intros m w out inp m1 w1 m2 w2 Ho Hi.
    rewrite (action_ifchanged_result _ _ _ _ _ _ _ _ Ho Hi).
    destruct (String.eqb_spec (joined out) (joined inp)) as [E|E]; simpl;
      repeat split; intros; try congruence; try discriminate.
  - intros f filename w r m' w' Hf Hrun.
    destruct (action_ifchanged_noop_raises f (OfFilename filename) w Hf)
      as (e & m1 & w1 & E).
    unfold run_file in Hrun; simpl in Hrun; unfold bind in Hrun.
    rewrite E in Hrun. injection Hrun as <- <- <-.
    split; [eauto|].
    apply (action_ifchanged_untouched w _ _ _ _ _ E). split; reflexivity.
Qed.

(** ** The replace action *)

Lemma atomic_write_file_all_or_nothing dst text w :
  (atomic_write_file dst text w).1 = Ok tt
  /\ fs (atomic_write_file dst text w).2 = <[str_source dst := joined text]> (fs w)
  \/ (exists e, (atomic_write_file dst text w).1 = Raise e)
     /\ (atomic_write_file dst text w).2 = w.
Proof.
  unfold atomic_write_file. destruct (decide _); simpl; eauto.
Qed.

Lemma output_content_after_log m w level text :
  output_content m (add_log level text w)
  = ((output_content m w).1.1, (output_content m w).1.2,
     add_log level text (output_content m w).2).
Proof.
  unfold output_content, input_content, cached_attribute, bind, self, call,
    call_modifier, ret, read_file.
  destruct (output_content_cell m); [|reflexivity|reflexivity].
  destruct (input_content_cell m); simpl; try reflexivity.
  - destruct (is_STDIN (filename m)); simpl.
    + destruct (modifier m _); reflexivity.
    + destruct (fs w !! _); simpl; [destruct (modifier m _)|]; reflexivity.
  - destruct (modifier m v); reflexivity.
Qed.

Lemma output_content_unwritable m w :
  unwritable (output_content m w).2 = unwritable w.
Proof.
  unfold output_content, input_content, cached_attribute, bind, self, call,
    call_modifier, ret, read_file.
  destruct (output_content_cell m); [|reflexivity|reflexivity].
  destruct (input_content_cell m); simpl; try reflexivity.
  - destruct (is_STDIN (filename m)); simpl.
    + destruct (modifier m _); reflexivity.
    + destruct (fs w !! _); simpl; [destruct (modifier m _)|]; reflexivity.
  - destruct (modifier m v); reflexivity.
Qed.

Lemma output_content_files m w : fs (output_content m w).2 = fs w.
Proof.
  destruct (output_content m w) as [[r m1] w1] eqn:E.
  apply (output_content_untouched w _ _ _ _ _ E). split; reflexivity.
Qed.

(** C4. On the standard-input sentinel the replace action raises its error
    and leaves the world as it was.  On any other source the output content
    and the write decide.  When the output content is there and the file of
    the source can be written, the action returns, that file holds the text
    of the output content and every other file is as before.  When the
    write fails, the action raises and every file is as before; and when
    the output content cannot be had, the action raises that error and every
    file is as before. *)
Theorem replace_refuses_stdin_and_writes_all_or_nothing :
  (forall m w,
      filename m = OfFilename STDIN ->
      action_replace m w
      = (Raise (PyError "Exception" "Can't replace stdio in-place"), m, w))
  /\ (forall m w out,
      filename m <> OfFilename STDIN ->
      (output_content m w).1.1 = Ok out ->
      str_source (filename m) ∉ unwritable w ->
      (action_replace m w).1.1 = Ok PyNone
      /\ fs (action_replace m w).2 = <[str_source (filename m) := joined out]> (fs w))
  /\ (forall m w out,
      filename m <> OfFilename STDIN ->
      (output_content m w).1.1 = Ok out ->
      str_source (filename m) ∈ unwritable w ->
      (exists e, (action_replace m w).1.1 = Raise e)
      /\ fs (action_replace m w).2 = fs w)
  /\ (forall m w e,
      filename m <> OfFilename STDIN ->
      (output_content m w).1.1 = Raise e ->
      (action_replace m w).1.1 = Raise e
      /\ fs (action_replace m w).2 = fs w).
Proof.
  assert (Hs : forall m, filename m <> OfFilename STDIN -> is_STDIN (filename m) = false).
  { intros m Hf. destruct (filename m) as [[|p]|s]; simpl; congruence. }
  split; [|split; [|split]].
  - intros m w Hf. unfold action_replace, bind, self. rewrite Hf. reflexivity.
  - intros m w out Hf Hout Hw.
    pose proof (output_content_unwritable m w) as Hun.
    pose proof (output_content_files m w) as Hfs.
    unfold action_replace, bind, self, effect. rewrite (Hs m Hf), output_content_after_log.
    destruct (output_content m w) as [[ro m1] w1]. simpl in Hout, Hun, Hfs. subst ro.
    cbn [fst snd]. unfold call, atomic_write_file, ret. cbn [unwritable add_log fs].
    rewrite Hun, Hfs.
    destruct (decide (str_source (filename m) ∈ unwritable w)) as [Hin|_];
      [destruct (Hw Hin)|].
    split; reflexivity.
  - intros m w out Hf Hout Hw.
    pose proof (output_content_unwritable m w) as Hun.
    pose proof (output_content_files m w) as Hfs.
    unfold action_replace, bind, self, effect. rewrite (Hs m Hf), output_content_after_log.
    destruct (output_content m w) as [[ro m1] w1]. simpl in Hout, Hun, Hfs. subst ro.
    cbn [fst snd]. unfold call, atomic_write_file, ret. cbn [unwritable add_log fs].
    rewrite Hun.
    destruct (decide (str_source (filename m) ∈ unwritable w)) as [_|Hn];
      [|destruct (Hn Hw)].
    split; [eexists; reflexivity|exact Hfs].
  - intros m w e Hf Hout.
    pose proof (output_content_files m w) as Hfs.
    unfold action_replace, bind, self, effect. rewrite (Hs m Hf), output_content_after_log.
    destruct (output_content m w) as [[ro m1] w1]. simpl in Hout, Hfs. subst ro.
    cbn [fst snd]. split; [reflexivity|exact Hfs].
Qed.

(** ** The query action *)

Lemma action_query_unfold P prompt m w p :
  str_format P prompt (str_source (filename m)) = Ok p ->
  let w2 := write_stdout (p ++ " [y/N] ") (write_stdout PyStr.nl w) in
  action_query P prompt m w =
    match console w with
    | [] => (Raise (PyError "EOFError" "EOF when reading a line"), m, w2)
    | Typed line :: rest =>
        if answers_yes line then (Ok PyTrue, m, set_console rest w2)
        else (Raise AbortActions, m,
              write_stdout ("Aborted" ++ PyStr.nl) (set_console rest w2))
    | CtrlC :: rest =>
        (Raise (SystemExit (ExitCode 1)), m,
         write_stderr ("KeyboardInterrupt" ++ PyStr.nl) (set_console rest w2))
    end.
Proof.
  intros Hp w2.
  unfold action_query, bind, self, call, effect, try_except_KeyboardInterrupt,
    raw_input, ret, raise.
  rewrite Hp. cbn [console write_stdout].
  destruct (console w) as [|[line|] rest]; try reflexivity.
  fold (answers_yes line). destruct (answers_yes line); reflexivity.
Qed.

(** C5, amended. When a line is read, the query action returns exactly when
    the line, stripped and lowercased, starts with y (the first character
    that is not whitespace is y or Y), and raises [AbortActions] for any
    other line, the empty line too.  At the end of the input stream no line
    is read and the action raises [EOFError], which is a failure of the
    file and not an abort.  An interrupt during the wait raises
    [SystemExit(1)], which no handler of [process_actions] catches: the
    loop over the files ends there. *)
Theorem query_continues_iff_line_starts_with_y P prompt m w p :
  str_format P prompt (str_source (filename m)) = Ok p ->
  (forall line rest,
      console w = Typed line :: rest ->
      (outcome_of (action_query P prompt m w).1.1 = Continue <-> answers_yes line = true)
      /\ (outcome_of (action_query P prompt m w).1.1 = Abort <-> answers_yes line = false)
      /\ answers_yes line = affirmative line)
  /\ (console w = [] ->
      outcome_of (action_query P prompt m w).1.1 = Fail "EOFError" "EOF when reading a line")
  /\ (forall rest,
      console w = CtrlC :: rest ->
      (action_query P prompt m w).1.1 = Raise (SystemExit (ExitCode 1))
      /\ forall actions f filename files errors,
          m = Modifier_init f (OfFilename filename) ->
          (process_files P (action_query P prompt :: actions) f (filename :: files)
                         errors w).1
          = (Raise (SystemExit (ExitCode 1)), errors)).
Proof.
  intros Hp. pose proof (action_query_unfold P prompt m w p Hp) as E. cbv zeta in E.
  repeat split.
  - rewrite E, H. destruct (answers_yes line); simpl; congruence.
  - rewrite E, H. destruct (answers_yes line); simpl; congruence.
  - rewrite E, H. destruct (answers_yes line); simpl; congruence.
  - rewrite E, H. destruct (answers_yes line); simpl; congruence.
  - apply answers_yes_affirmative.
  - intros H. rewrite E, H. reflexivity.
  - rewrite E, H. reflexivity.
  - intros actions f filename files errors ->.
    rewrite H in E.
    cbn [process_files]. unfold process_file, run_file. cbn [run_actions].
    unfold bind at 1. rewrite E. reflexivity.
Qed.

(** ** The default actions *)

(** C10. The default action sequence is [action_print] alone unless file
    descriptors 0 and 1 are both terminals, so also when exactly one of
    them is; when both are, it is the interactive chain of if-changed,
    diff, query and replace. *)
Theorem default_actions_print_unless_both_terminals P :
  default_actions P
  = (if isatty0 P then
       if isatty1 P
       then [action_ifchanged; action_external_command P "pyflyby-diff";
             action_query P "Replace {filename}?"; action_replace]
       else [action_print]
     else [action_print])
  /\ (default_actions P = [action_print] <-> ~ (isatty0 P = true /\ isatty1 P = true))
  /\ (default_actions P = actions_interactive P <-> isatty0 P = true /\ isatty1 P = true).
Proof.
  unfold default_actions, actions_interactive, action_diff.
  destruct (isatty0 P), (isatty1 P); simpl; repeat split; intros;
    try discriminate; try reflexivity; intuition discriminate.
Qed.

(** ** Substrings *)

Lemma append_cons c a b : String c a ++ b = String c (a ++ b).
Proof. reflexivity. Qed.

Lemma append_snoc a c b : (a ++ String c "") ++ b = a ++ String c b.
Proof.
  induction a as [|x a IH]; [reflexivity|].
  rewrite !append_cons, IH. reflexivity.
Qed.

Lemma startswith_nil s : PyStr.startswith s "" = true.
Proof. destruct s; reflexivity. Qed.

Lemma startswith_app p s : PyStr.startswith (p ++ s) p = true.
Proof.
  induction p as [|c p IH]; simpl; [reflexivity|].
  rewrite Ascii.eqb_refl. exact IH.
Qed.

Lemma startswith_app_l s t p :
  PyStr.startswith s p = true -> PyStr.startswith (s ++ t) p = true.
Proof.
  revert s; induction p as [|c p IH]; intros s; [intros; apply startswith_nil|].
  destruct s as [|d s]; simpl; [discriminate|].
  destruct (Ascii.eqb c d); [apply IH|discriminate].
Qed.

Lemma contains_startswith s p : PyStr.startswith s p = true -> PyStr.contains s p = true.
Proof. intros H. destruct s; simpl; rewrite H; reflexivity. Qed.

Lemma contains_app_r a b p : PyStr.contains b p = true -> PyStr.contains (a ++ b) p = true.
Proof.
  intros H. induction a as [|c a IH]; simpl; [exact H|].
  rewrite IH. apply orb_true_r.
Qed.

Lemma contains_app_l a b p : PyStr.contains a p = true -> PyStr.contains (a ++ b) p = true.
Proof.
  induction a as [|c a IH]; simpl.
  - rewrite orb_false_r. intros H. apply contains_startswith.
    apply (startswith_app_l "" b p H).
  - intros H. apply orb_true_iff in H as [H|H].
    + change (String c (a ++ b)) with (String c a ++ b).
      rewrite (startswith_app_l (String c a) b p H). reflexivity.
    + rewrite (IH H). apply orb_true_r.
Qed.

Lemma occurrences_app_r a b p : PyStr.occurrences b p <= PyStr.occurrences (a ++ b) p.
Proof.
  induction a as [|c a IH]; [change ("" ++ b) with b; lia|]; simpl.
  destruct (PyStr.startswith _ _); lia.
Qed.

Lemma occurrences_contains s p : PyStr.contains s p = true -> 1 <= PyStr.occurrences s p.
Proof.
  induction s as [|c s IH]; simpl.
  - rewrite orb_false_r. intros ->. lia.
  - intros H. apply orb_true_iff in H as [->|H]; [lia|]. specialize (IH H).
    destruct (PyStr.startswith _ _); lia.
Qed.

Lemma occurrences_prefix p s c :
  1 + PyStr.occurrences s p <= PyStr.occurrences (p ++ String c s) p.
Proof.
  destruct p as [|d p].
  - simpl. lia.
  - change (String d p ++ String c s) with (String d (p ++ String c s)).
    cbn [PyStr.occurrences].
    change (String d (p ++ String c s)) with (String d p ++ String c s).
    rewrite startswith_app.
    pose proof (occurrences_app_r (p ++ String c EmptyString) s (String d p)) as H.
    rewrite append_snoc in H. lia.
Qed.

(** ** The loop over the files *)

Lemma process_file_errors P actions f filename errors w :
  process_file P actions f filename errors w
  = let '(r, new, w') := process_file P actions f filename [] w in
    (r, (errors ++ new)%list, w').
Proof.
  unfold process_file.
  destruct (run_file actions f filename w) as [[[a|[| t msg | |a]] m'] w'];
    rewrite ?app_nil_r; try reflexivity.
  destruct (wrapped_exception P filename t msg); [destruct (DEBUG P)|]; reflexivity.
Qed.

Lemma process_files_errors P actions f filenames : forall errors w,
  process_files P actions f filenames errors w
  = let '(r, new, w') := process_files P actions f filenames [] w in
    (r, (errors ++ new)%list, w').
Proof.
  induction filenames as [|x rest IH]; intros errors w; simpl.
  - rewrite app_nil_r. reflexivity.
  - rewrite (process_file_errors P actions f x errors w).
    destruct (process_file P actions f x [] w) as [[[a|e] new] w'].
    + rewrite IH. rewrite (IH new w').
      destruct (process_files P actions f rest [] w') as [[r new'] w''].
      rewrite app_assoc. reflexivity.
    + reflexivity.
Qed.

Lemma process_files_app P actions f pre post : forall errors w,
  process_files P actions f (pre ++ post) errors w
  = match process_files P actions f pre errors w with
    | (Ok _, errors1, w1) => process_files P actions f post errors1 w1
    | r => r
    end.
Proof.
  induction pre as [|x pre IH]; intros errors w; simpl; [reflexivity|].
  destruct (process_file P actions f x errors w) as [[[a|e] errors1] w1];
    [apply IH|reflexivity].
Qed.

Lemma process_file_failure P actions f filename errors w tname msg m' w' e :
  DEBUG P = false ->
  run_file actions f filename w = (Raise (PyError tname msg), m', w') ->
  wrapped_exception P filename tname msg = Ok e ->
  process_file P actions f filename errors w
  = (Ok tt, (errors ++ [error_record filename tname msg])%list,
     print_exception tname msg w').
Proof. intros HD Hr He. unfold process_file. rewrite Hr, He, HD. reflexivity. Qed.

(** When the class of the exception cannot be called on one string, the
    exception of that call leaves the loop, in debug mode or not; the record
    was appended before. *)
Lemma process_file_handler_raises P actions f filename errors w tname msg m' w' x :
  run_file actions f filename w = (Raise (PyError tname msg), m', w') ->
  wrapped_exception P filename tname msg = Raise x ->
  process_file P actions f filename errors w
  = (Raise x, (errors ++ [error_record filename tname msg])%list, w').
Proof. intros Hr Hx. unfold process_file. rewrite Hr, Hx. reflexivity. Qed.

(** In debug mode the loop stops at the first failed file: the record is
    appended all the same, and the rebuilt exception goes on. *)
Lemma process_file_debug P actions f filename errors w tname msg m' w' e :
  DEBUG P = true ->
  run_file actions f filename w = (Raise (PyError tname msg), m', w') ->
  wrapped_exception P filename tname msg = Ok e ->
  process_file P actions f filename errors w
  = (Raise e, (errors ++ [error_record filename tname msg])%list, w').
Proof. intros HD Hr He. unfold process_file. rewrite Hr, He, HD. reflexivity. Qed.

Lemma wrapped_exception_named P filename tname msg :
  PyStr.contains msg (str_Filename filename) = true ->
  wrapped_exception P filename tname msg = Ok (PyError tname msg).
Proof. intros H. unfold wrapped_exception. rewrite H. reflexivity. Qed.

Lemma wrapped_exception_unnamed P filename tname msg :
  PyStr.contains msg (str_Filename filename) = false ->
  wrapped_exception P filename tname msg
  = match exception_call P tname
            ("While processing " ++ str_Filename filename ++ ": " ++ msg) with
    | Ok msg' => Ok (PyError tname msg')
    | Raise x => Raise x
    end.
Proof. intros H. unfold wrapped_exception. rewrite H. reflexivity. Qed.

Lemma wrapped_exception_ok P filename tname msg :
  PyStr.contains msg (str_Filename filename) = true
  \/ (exists s, exception_call P tname
                  ("While processing " ++ str_Filename filename ++ ": " ++ msg) = Ok s) ->
  exists e, wrapped_exception P filename tname msg = Ok e.
Proof.
  intros H. destruct (PyStr.contains msg (str_Filename filename)) eqn:E.
  - rewrite wrapped_exception_named by exact E. eauto.
  - destruct H as [H|[s H]]; [discriminate|].
    rewrite wrapped_exception_unnamed, H by exact E. eauto.
Qed.

(** ** The record of a failed file *)

Lemma occurrences_in_record name tname msg :
  1 + PyStr.occurrences msg name
  <= PyStr.occurrences (name ++ ": " ++ tname ++ ": " ++ msg) name.
Proof.
  etransitivity; [|apply (occurrences_prefix name _ ":")].
  apply le_n_S.
  etransitivity; [|apply (occurrences_app_r " " _ name)].
  etransitivity; [|apply (occurrences_app_r tname _ name)].
  apply (occurrences_app_r ": " msg name).
Qed.

(** C6, amended. For a file whose actions raise an exception, the record
    appended to [errors] is the file's name, the name of the exception type
    and the exception's message, joined by a colon and a space.  The record
    starts with the file's name, so it carries the name at least once; when
    the message already mentions the name, the record carries it at least
    twice. *)
Theorem error_record_starts_with_filename P actions f filename errors w tname msg m' w' :
  run_file actions f filename w = (Raise (PyError tname msg), m', w') ->
  (process_file P actions f filename errors w).1.2
  = (errors ++ [error_record filename tname msg])%list
  /\ error_record filename tname msg
     = str_Filename filename ++ ": " ++ tname ++ ": " ++ msg
  /\ PyStr.startswith (error_record filename tname msg) (str_Filename filename) = true
  /\ 1 <= PyStr.occurrences (error_record filename tname msg) (str_Filename filename)
  /\ (PyStr.contains msg (str_Filename filename) = true ->
      2 <= PyStr.occurrences (error_record filename tname msg) (str_Filename filename)).
Proof.
  intros Hr. pose proof (occurrences_in_record (str_Filename filename) tname msg) as Ho.
  repeat split.
  - unfold process_file. rewrite Hr.
    destruct (wrapped_exception P filename tname msg); [destruct (DEBUG P)|]; reflexivity.
  - apply startswith_app.
  - unfold error_record. lia.
  - intros Hc. apply occurrences_contains in Hc. unfold error_record. lia.
Qed.

(** ** One failing file among several *)

(** X21. Outside debug mode, when the actions raise an exception for a file
    [B] that comes after the files [pre] and before the files [post], the
    record of [B] is appended to [errors], and what follows depends on the
    call that rebuilds the exception.  When the message names the file
    already, or the class of the exception can be called on one string, the
    loop goes on with [post] from the world that [B] left: the list of errors
    is the errors of [pre], then the one record of [B], then the errors of
    [post].  When that call raises, its exception ends the run at [B]: the
    files of [post] are not processed. *)
Theorem failure_is_isolated_when_the_exception_can_be_rebuilt
    P actions f pre B post errors w errors1 w1 tname msg mB wB :
  DEBUG P = false ->
  process_files P actions f pre errors w = (Ok tt, errors1, w1) ->
  run_file actions f B w1 = (Raise (PyError tname msg), mB, wB) ->
  let text := "While processing " ++ str_Filename B ++ ": " ++ msg in
  (PyStr.contains msg (str_Filename B) = true
   \/ (exists s, exception_call P tname text = Ok s) ->
   process_files P actions f (pre ++ B :: post) errors w
   = process_files P actions f post
       (errors1 ++ [error_record B tname msg])%list (print_exception tname msg wB)
   /\ exists r new w',
       process_files P actions f post [] (print_exception tname msg wB) = (r, new, w')
       /\ process_files P actions f (pre ++ B :: post) errors w
          = (r, (errors1 ++ [error_record B tname msg] ++ new)%list, w'))
  /\ (forall x,
        PyStr.contains msg (str_Filename B) = false ->
        exception_call P tname text = Raise x ->
        process_files P actions f (pre ++ B :: post) errors w
        = (Raise x, (errors1 ++ [error_record B tname msg])%list, wB)).
Proof.
  intros HD Hpre HB text. split.
  - intros Hok. destruct (wrapped_exception_ok P B tname msg Hok) as [e He].
    assert (E : process_files P actions f (pre ++ B :: post) errors w
                = process_files P actions f post
                    (errors1 ++ [error_record B tname msg])%list
                    (print_exception tname msg wB)).
    { rewrite process_files_app, Hpre. cbn [process_files].
      rewrite (process_file_failure P actions f B errors1 w1 tname msg mB wB e HD HB He).
      reflexivity. }
    split; [exact E|].
    destruct (process_files P actions f post [] (print_exception tname msg wB))
      as [[r new] w'] eqn:Epost.
    exists r, new, w'. split; [reflexivity|].
    rewrite E, process_files_errors, Epost, <- app_assoc. reflexivity.
  - intros x Hc Hx.
    assert (Hw : wrapped_exception P B tname msg = Raise x).
    { rewrite wrapped_exception_unnamed by exact Hc. fold text. rewrite Hx. reflexivity. }
    rewrite process_files_app, Hpre. cbn [process_files].
    rewrite (process_file_handler_raises P actions f B errors1 w1 tname msg mB wB x HB Hw).
    reflexivity.
Qed.

(** ** The report at the end of the run *)

Lemma splitlines_aux_open s : forall cur, PyStr.splitlines_aux s cur true <> [].
Proof.
  induction s as [|c r IH]; intros cur; simpl; [discriminate|].
  destruct (Ascii.eqb c PyStr.LF); [discriminate|].
  destruct (Ascii.eqb c PyStr.CR); [|apply IH].
  destruct r as [|d r']; [discriminate|]. destruct (Ascii.eqb d PyStr.LF); discriminate.
Qed.

Lemma splitlines_nonempty e : e <> "" -> PyStr.splitlines e <> [].
Proof.
  destruct e as [|c r]; [congruence|]. intros _. unfold PyStr.splitlines; simpl.
  destruct (Ascii.eqb c PyStr.LF); [discriminate|].
  destruct (Ascii.eqb c PyStr.CR); [|apply splitlines_aux_open].
  destruct r as [|d r']; [discriminate|]. destruct (Ascii.eqb d PyStr.LF); discriminate.
Qed.

Lemma summary_entry_ok e :
  e <> "" ->
  exists line0 lines,
    PyStr.splitlines e = line0 :: lines
    /\ summary_entry e
       = Ok ("    " ++ line0
             ++ PyStr.join PyStr.nl (map (fun line => "            " ++ line) lines)).
Proof.
  intros He. unfold summary_entry.
  destruct (PyStr.splitlines e) as [|line0 lines] eqn:E.
  - destruct (splitlines_nonempty e He E).
  - eauto.
Qed.

Lemma startswith_refl s : PyStr.startswith s s = true.
Proof. induction s as [|c s IH]; simpl; [reflexivity|]. rewrite Ascii.eqb_refl. exact IH. Qed.

Lemma startswith_inv pre : forall s,
  PyStr.startswith s pre = true -> exists u, s = pre ++ u.
Proof.
  induction pre as [|c pre IH]; intros s H; [exists s; reflexivity|].
  destruct s as [|d s]; simpl in H; [discriminate|].
  destruct (Ascii.eqb_spec c d) as [->|]; [|discriminate].
  destruct (IH s H) as [u ->]. exists u. reflexivity.
Qed.

Lemma startswith_shorter pre t : forall s,
  PyStr.startswith s (pre ++ t) = true -> PyStr.startswith s pre = true.
Proof.
  induction pre as [|c pre IH]; intros s H; [apply startswith_nil|].
  rewrite append_cons in H. destruct s as [|d s]; simpl in *; [discriminate|].
  destruct (Ascii.eqb c d); [apply IH; exact H|discriminate].
Qed.

Lemma summary_body_ok errors : forall msg0,
  Forall (fun e => e <> "") errors ->
  exists msg,
    summary_body msg0 errors = Ok msg
    /\ PyStr.startswith msg msg0 = true
    /\ forall e line0,
        In e errors -> head (PyStr.splitlines e) = Some line0 ->
        PyStr.contains msg ("    " ++ line0) = true.
Proof.
  induction errors as [|e rest IH]; intros msg0 Hne; simpl.
  - exists msg0. split; [reflexivity|]. split; [apply startswith_refl|intros ? ? []].
  - inversion Hne as [|? ? He Hrest]; subst.
    destruct (summary_entry_ok e He) as (line0 & lines & Es & ->).
    set (t := PyStr.join PyStr.nl (map (fun line => "            " ++ line) lines)).
    destruct (IH (msg0 ++ "    " ++ line0 ++ t) Hrest) as (msg & Hm & Hp & Hc).
    exists msg. split; [exact Hm|]. split.
    + apply (startswith_shorter _ _ _ Hp).
    + intros e' l0 [<-|Hin] Hl; [|apply (Hc e' l0 Hin Hl)].
      rewrite Es in Hl. injection Hl as <-.
      destruct (startswith_inv _ _ Hp) as [u ->].
      apply contains_app_l, contains_app_r, contains_startswith.
      apply (startswith_app_l ("    " ++ line0) t ("    " ++ line0)).
      apply startswith_refl.
Qed.

Lemma append_nonempty a c b : a ++ String c b <> "".
Proof. destruct a; discriminate. Qed.

Lemma process_file_records P actions f filename errors w :
  Forall (fun e => e <> "") errors ->
  Forall (fun e => e <> "") (process_file P actions f filename errors w).1.2.
Proof.
  intros H. unfold process_file.
  destruct (run_file actions f filename w) as [[[a|[| t msg | |a]] m'] w']; simpl; auto.
  assert (Forall (fun e => e <> "") (errors ++ [error_record filename t msg])).
  { apply Forall_app; split; [assumption|]. constructor; [|constructor].
    apply append_nonempty. }
  destruct (wrapped_exception P filename t msg); [destruct (DEBUG P)|]; assumption.
Qed.

Lemma process_files_records P actions f filenames : forall errors w,
  Forall (fun e => e <> "") errors ->
  Forall (fun e => e <> "") (process_files P actions f filenames errors w).1.2.
Proof.
  induction filenames as [|x rest IH]; intros errors w H; simpl; [assumption|].
  pose proof (process_file_records P actions f x errors w H) as Hx.
  destruct (process_file P actions f x errors w) as [[[a|e] errors1] w1]; simpl in *;
    [apply IH|]; assumption.
Qed.

Lemma expand_py_files_from_args_records P args : forall errors w,
  Forall (fun e => e <> "") errors ->
  Forall (fun e => e <> "")
    (expand_py_files_from_args args (on_error_filename_arg P) errors w).1.2.
Proof.
  induction args as [|arg rest IH]; intros errors w H; simpl; [assumption|].
  destruct (String.eqb arg "-").
  - specialize (IH errors w H).
    destruct (expand_py_files_from_args rest _ errors w) as [[l e1] w1]. exact IH.
  - destruct (decide _).
    + specialize (IH errors w H).
      destruct (expand_py_files_from_args rest _ errors w) as [[l e1] w1]. exact IH.
    + apply IH. apply Forall_app; split; [assumption|]. constructor; [|constructor].
      apply append_nonempty.
Qed.

Lemma filename_args_records P args w filenames errors0 w0 :
  filename_args P args (on_error_filename_arg P) [] w = (Ok filenames, errors0, w0) ->
  Forall (fun e => e <> "") errors0.
Proof.
  unfold filename_args. destruct args as [|a args].
  - destruct (negb (isatty0 P)); [|discriminate]. intros H; injection H as _ <- _. constructor.
  - pose proof (expand_py_files_from_args_records P (a :: args) [] w
                  (List.Forall_nil _)) as H.
    destruct (expand_py_files_from_args (a :: args) _ [] w) as [[l e1] w1].
    intros E; injection E as _ <- _. exact H.
Qed.

(** C8, amended. [process_actions] returns, and the script exits with status
    0, when the list of errors is empty after the last file.  When it is not
    empty, [process_actions] raises one [SystemExit] whose message starts
    with the header line and holds, after four spaces, the first line of
    every record; the exit status is 1.  An interrupt while the query action
    waits exits with status 1 as well.  With no arguments and a terminal on
    standard input, the usage message goes to standard error and the status
    is 1. *)
Theorem exit_status_reflects_errors P :
  (forall args actions f w filenames errors0 w0 w',
      filename_args P args (on_error_filename_arg P) [] w = (Ok filenames, errors0, w0) ->
      process_files P actions f filenames errors0 w0 = (Ok tt, [], w') ->
      process_actions P args actions f w = (Ok tt, [], w')
      /\ script_exit_status (process_actions P args actions f w).1.1 = 0%Z)
  /\ (forall args actions f w filenames errors0 w0 errors w',
      filename_args P args (on_error_filename_arg P) [] w = (Ok filenames, errors0, w0) ->
      process_files P actions f filenames errors0 w0 = (Ok tt, errors, w') ->
      errors <> [] ->
      exists msg,
        process_actions P args actions f w = (Raise (SystemExit (ExitMsg msg)), errors, w')
        /\ PyStr.startswith msg (summary_header P) = true
        /\ (forall e line0,
              In e errors -> head (PyStr.splitlines e) = Some line0 ->
              PyStr.contains msg ("    " ++ line0) = true)
        /\ script_exit_status (process_actions P args actions f w).1.1 = 1%Z)
  /\ (forall args prompt actions f w filename files errors0 w0 p rest,
      filename_args P args (on_error_filename_arg P) [] w
      = (Ok (filename :: files), errors0, w0) ->
      str_format P prompt (str_Filename filename) = Ok p ->
      console w0 = CtrlC :: rest ->
      (process_actions P args (action_query P prompt :: actions) f w).1
      = (Raise (SystemExit (ExitCode 1)), errors0)
      /\ script_exit_status
           (process_actions P args (action_query P prompt :: actions) f w).1.1 = 1%Z)
  /\ (forall actions f w,
      isatty0 P = true ->
      process_actions P [] actions f w
      = (Raise (SystemExit (ExitCode 1)), [],
         write_stderr (maindoc P ++ PyStr.nl ++ PyStr.nl ++ "For usage, see: "
                       ++ argv0 P ++ " --help" ++ PyStr.nl) w)
      /\ script_exit_status (process_actions P [] actions f w).1.1 = 1%Z).
Proof.
  repeat apply conj.
  - intros args actions f w filenames errors0 w0 w' Hargs Hrun.
    assert (E : process_actions P args actions f w = (Ok tt, [], w')).
    { unfold process_actions, process_resolved. rewrite Hargs, Hrun. reflexivity. }
    rewrite E. split; reflexivity.
  - intros args actions f w filenames errors0 w0 errors w' Hargs Hrun Hne.
    pose proof (process_files_records P actions f filenames errors0 w0
                  (filename_args_records P args w filenames errors0 w0 Hargs)) as Hrec.
    rewrite Hrun in Hrec; simpl in Hrec.
    destruct (summary_body_ok errors (summary_header P) Hrec) as (msg & Hm & Hp & Hc).
    assert (E : process_actions P args actions f w
                = (Raise (SystemExit (ExitMsg msg)), errors, w')).
    { unfold process_actions, process_resolved, report. rewrite Hargs, Hrun.
      destruct errors; [congruence|]. rewrite Hm. reflexivity. }
    exists msg. rewrite E. repeat split; auto.
  - intros args prompt actions f w filename files errors0 w0 p rest Hargs Hp Hc.
    pose proof (action_query_unfold P prompt
                  (Modifier_init f (OfFilename filename)) w0 p Hp) as E.
    cbv zeta in E. rewrite Hc in E.
    assert (E2 : (process_actions P args (action_query P prompt :: actions) f w).1
                 = (Raise (SystemExit (ExitCode 1)), errors0)).
    { unfold process_actions, process_resolved. rewrite Hargs.
      cbn [process_files]. unfold process_file, run_file. cbn [run_actions].
      unfold bind at 1. rewrite E. reflexivity. }
    split; [exact E2|]. change (_.1.1) with ((process_actions P args (action_query P prompt :: actions) f w).1).1.
    rewrite E2. reflexivity.
  - intros actions f w Htty. unfold process_actions, filename_args, syntax.
    rewrite Htty. simpl. split; reflexivity.
Qed.

(** ** What the primitives add to the trace *)

Section AddsNone.

Context (kind : event -> bool).

Lemma adds_none_same (g : World -> World) :
  (forall w, trace (g w) = trace w) -> adds_none kind g.
Proof. intros H w. exists []. rewrite H, app_nil_r. split; [reflexivity|constructor]. Qed.

Lemma adds_none_event e : kind e = false -> adds_none kind (add_event e).
Proof. intros H w. exists [e]. split; [reflexivity|]. constructor; [exact H|constructor]. Qed.

Lemma adds_none_read_file src :
  kind (EvRead src) = false -> adds_none kind (fun w => (read_file src w).2).
Proof.
  intros H w. exists [EvRead src]. split; [|constructor; [exact H|constructor]].
  unfold read_file. destruct (is_STDIN src); [reflexivity|].
  destruct (fs _ !! _); reflexivity.
Qed.

Lemma adds_none_atomic_write_file dst text :
  kind (EvWrite (str_source dst) (joined text)) = false ->
  adds_none kind (fun w => (atomic_write_file dst text w).2).
Proof.
  intros H w. unfold atomic_write_file. destruct (decide _); simpl.
  - exists []. rewrite app_nil_r. split; [reflexivity|constructor].
  - exists [EvWrite (str_source dst) (joined text)].
    split; [reflexivity|]. constructor; [exact H|constructor].
Qed.

Lemma adds_none_extend_PATH P : adds_none kind (fun w => (extend_PATH P w).2).
Proof.
  apply adds_none_same. intros w. unfold extend_PATH.
  destruct (environ w !! "PATH"); reflexivity.
Qed.

Lemma adds_none_subprocess_call_shell P cmd :
  kind (EvExec cmd) = false -> adds_none kind (fun w => (subprocess_call_shell P cmd w).2).
Proof.
  intros H w. exists [EvExec cmd]. split; [|constructor; [exact H|constructor]].
  unfold subprocess_call_shell. destruct (subprocess_call P cmd _ _). reflexivity.
Qed.

Lemma adds_none_raw_input : adds_none kind (fun w => (raw_input w).2).
Proof.
  apply adds_none_same. intros w. unfold raw_input.
  destruct (console w) as [|[line|] rest]; reflexivity.
Qed.

Lemma adds_none_NamedTemporaryFile :
  (forall name, kind (EvTempCreate name) = false) ->
  adds_none kind (fun w => (NamedTemporaryFile w).2).
Proof.
  intros H w. unfold NamedTemporaryFile. destruct (tmp_avail w) as [|n]; simpl.
  - exists []. rewrite app_nil_r. split; [reflexivity|constructor].
  - exists [EvTempCreate (fresh (dom (fs w)))].
    split; [reflexivity|]. constructor; [apply H|constructor].
Qed.

End AddsNone.

Create HintDb adds discriminated.
#[global] Hint Resolve adds_none_event adds_none_read_file adds_none_atomic_write_file
  adds_none_extend_PATH adds_none_subprocess_call_shell adds_none_raw_input : adds.
#[global] Hint Extern 1 (adds_none _ _) =>
  (apply adds_none_same; intros; reflexivity) : adds.
#[global] Hint Resolve adds_none_NamedTemporaryFile : adds.
#[global] Hint Extern 1 (_ = false) => reflexivity : adds.
#[global] Hint Extern 1 (forall _, _ = false) => (intros; reflexivity) : adds.

(** ** Temporary files *)

Lemma tracks_world w0 m w g :
  adds_none is_create g -> tracks w0 m w -> tracks w0 m (g w).
Proof.
  intros Hg (evs & Ht & Hc). destruct (Hg w) as (es & Et & Hes).
  exists (evs ++ es)%list. split; [rewrite Et, Ht, app_assoc; reflexivity|].
  intros name Hin. apply in_app_or in Hin as [Hin|Hin]; [auto|].
  rewrite List.Forall_forall in Hes. specialize (Hes _ Hin). discriminate.
Qed.

Lemma tracks_object w0 m m' w :
  _tmpfiles m' = _tmpfiles m -> tracks w0 m w -> tracks w0 m' w.
Proof. intros E (evs & Ht & Hc). exists evs. rewrite E. auto. Qed.

Ltac tracks_side :=
  try solve [ intros; eapply tracks_object; [|eassumption]; reflexivity
            | intros; apply tracks_world; [auto with adds|assumption]
            | intros ? ? ?;
              match goal with
              | |- tracks _ _ (?f ?w).2 =>
                  apply (tracks_world _ _ w (fun w => (f w).2)); [auto with adds|assumption]
              end ].

Lemma call_modifier_tracks w0 text : preserves (tracks w0) (call_modifier text).
Proof.
  intros m w r m' w' H HI. injection H as <- <- <-.
  apply tracks_world; [auto with adds|assumption].
Qed.
#[global] Hint Resolve call_modifier_tracks : pres.

Lemma _tempfile_tracks w0 : preserves (tracks w0) _tempfile.
Proof.
  intros m w r m' w' H (evs & Ht & Hc).
  unfold _tempfile, bind, call, update, ret, NamedTemporaryFile in H.
  destruct (tmp_avail w) as [|n].
  - injection H as <- <- <-. exists evs. auto.
  - injection H as <- <- <-. simpl.
    exists (evs ++ [EvTempCreate (fresh (dom (fs w)))])%list.
    split; simpl; [rewrite Ht, app_assoc; reflexivity|].
    intros name Hin. apply in_or_app.
    apply in_app_or in Hin as [Hin|[Hin|[]]]; [left; auto|right].
    injection Hin as <-. left; reflexivity.
Qed.
#[global] Hint Resolve _tempfile_tracks : pres.

Lemma input_content_tracks w0 : preserves (tracks w0) input_content.
Proof. unfold input_content. pres tracks_side. Qed.
#[global] Hint Resolve input_content_tracks : pres.

Lemma output_content_tracks w0 : preserves (tracks w0) output_content.
Proof. unfold output_content. pres tracks_side. Qed.
#[global] Hint Resolve output_content_tracks : pres.

Lemma output_content_filename_tracks w0 : preserves (tracks w0) output_content_filename.
Proof. unfold output_content_filename. pres tracks_side. Qed.
#[global] Hint Resolve output_content_filename_tracks : pres.

Lemma input_content_filename_tracks w0 : preserves (tracks w0) input_content_filename.
Proof. unfold input_content_filename. pres tracks_side. Qed.
#[global] Hint Resolve input_content_filename_tracks : pres.


Lemma unclosed_world w0 m w g :
  adds_none is_close g -> unclosed w0 m w -> unclosed w0 m (g w).
Proof.
  intros Hg (evs & Ht & Hc). destruct (Hg w) as (es & Et & Hes).
  exists (evs ++ es)%list. split; [rewrite Et, Ht, app_assoc; reflexivity|].
  apply Forall_app; split; assumption.
Qed.

Ltac unclosed_side :=
  try solve [ intros; assumption
            | intros; apply unclosed_world; [auto with adds|assumption]
            | intros ? ? ?;
              match goal with
              | |- unclosed _ _ (?f ?w).2 =>
                  apply (unclosed_world _ _ w (fun w => (f w).2)); [auto with adds|assumption]
              end ].

Lemma call_modifier_unclosed w0 text : preserves (unclosed w0) (call_modifier text).
Proof.
  intros m w r m' w' H HI. injection H as <- <- <-.
  apply unclosed_world; [auto with adds|assumption].
Qed.
#[global] Hint Resolve call_modifier_unclosed : pres.

Lemma _tempfile_unclosed w0 : preserves (unclosed w0) _tempfile.
Proof. unfold _tempfile. pres unclosed_side. Qed.
#[global] Hint Resolve _tempfile_unclosed : pres.

Lemma input_content_unclosed w0 : preserves (unclosed w0) input_content.
Proof. unfold input_content. pres unclosed_side. Qed.
#[global] Hint Resolve input_content_unclosed : pres.

Lemma output_content_unclosed w0 : preserves (unclosed w0) output_content.
Proof. unfold output_content. pres unclosed_side. Qed.
#[global] Hint Resolve output_content_unclosed : pres.

Lemma output_content_filename_unclosed w0 :
  preserves (unclosed w0) output_content_filename.
Proof. unfold output_content_filename. pres unclosed_side. Qed.
#[global] Hint Resolve output_content_filename_unclosed : pres.

Lemma input_content_filename_unclosed w0 :
  preserves (unclosed w0) input_content_filename.
Proof. unfold input_content_filename. pres unclosed_side. Qed.
#[global] Hint Resolve input_content_filename_unclosed : pres.







(** ** The external command *)


(** ** The cached contents *)

Lemma input_content_filled m w r :
  cell_result (input_content_cell m) = Some r -> input_content m w = (r, m, w).
Proof.
  unfold input_content, cached_attribute.
  destruct (input_content_cell m); simpl; intros H; [discriminate| |];
    injection H as <-; reflexivity.
Qed.

Lemma output_content_filled m w r :
  cell_result (output_content_cell m) = Some r -> output_content m w = (r, m, w).
Proof.
  unfold output_content, cached_attribute.
  destruct (output_content_cell m); simpl; intros H; [discriminate| |];
    injection H as <-; reflexivity.
Qed.

Lemma input_content_fills m w r m' w' :
  input_content m w = (r, m', w') ->
  cell_result (input_content_cell m') = Some r
  /\ output_content_cell m' = output_content_cell m
  /\ modifier m' = modifier m /\ filename m' = filename m.
Proof.
  unfold input_content, cached_attribute, bind, self, call.
  destruct (input_content_cell m) eqn:E.
  - destruct (read_file (filename m) w) as [[v|e] w1];
      intros H; injection H as <- <- <-; simpl; auto.
  - intros H; injection H as <- <- <-. rewrite E. auto.
  - intros H; injection H as <- <- <-. rewrite E. auto.
Qed.

Lemma output_content_fills m w r m' w' :
  output_content m w = (r, m', w') ->
  cell_result (output_content_cell m') = Some r.
Proof.
  unfold output_content, cached_attribute.
  destruct (output_content_cell m) eqn:E.
  - destruct (bind input_content _ m w) as [[[v|e] m1] w1];
      intros H; injection H as <- <- <-; reflexivity.
  - intros H; injection H as <- <- <-. rewrite E. reflexivity.
  - intros H; injection H as <- <- <-. rewrite E. reflexivity.
Qed.

(** *** The content cells stay as they are once filled *)

Ltac keeps_side :=
  try solve [ intros; assumption
            | unfold keeps; simpl; intros; assumption ].

Lemma call_modifier_keeps m0 text : preserves (keeps m0) (call_modifier text).
Proof. intros m w r m' w' H HI. injection H as <- <- <-. exact HI. Qed.
#[global] Hint Resolve call_modifier_keeps : pres.

Lemma input_content_keeps m0 : preserves (keeps m0) input_content.
Proof.
  intros m w r m' w' H [Hi Ho].
  destruct (input_content_fills _ _ _ _ _ H) as (Hr & Hout & _).
  split; [|rewrite Hout; exact Ho].
  intros Hne. specialize (Hi Hne).
  assert (E : cell_result (input_content_cell m) <> None).
  { rewrite Hi. destruct (input_content_cell m0); simpl; congruence. }
  destruct (cell_result (input_content_cell m)) as [r0|] eqn:E0; [|congruence].
  rewrite (input_content_filled m w r0 E0) in H. injection H as _ <- _. exact Hi.
Qed.
#[global] Hint Resolve input_content_keeps : pres.

Lemma output_content_keeps m0 : preserves (keeps m0) output_content.
Proof.
  intros m w r m' w' H HI.
  destruct (cell_result (output_content_cell m)) as [r0|] eqn:E0.
  - rewrite (output_content_filled m w r0 E0) in H. injection H as _ <- _. exact HI.
  - assert (Hm0 : output_content_cell m0 = NotComputed).
    { destruct HI as [_ Ho]. destruct (output_content_cell m0) eqn:E; [reflexivity| |];
        rewrite Ho in E0 by congruence; discriminate. }
    eapply (preserves_cached (keeps m0) output_content_cell set_output_content_cell);
      [ | | exact H | exact HI].
    + intros c m1 w1 [Hi Ho]. split; [exact Hi|]. intros Hne. congruence.
    + pres keeps_side.
Qed.
#[global] Hint Resolve output_content_keeps : pres.

Lemma known_action_keeps P m0 a : known_action P a -> preserves (keeps m0) a.
Proof.
  intros [->|[->|[->|[[command ->]|[prompt ->]]]]].
  - unfold action_print. pres keeps_side.
  - unfold action_ifchanged. pres keeps_side.
  - unfold action_replace. pres keeps_side.
  - unfold action_external_command, input_content_filename, output_content_filename,
      _tempfile.
    pres keeps_side.
  - unfold action_query. pres keeps_side.
Qed.

(** *** One read and one application of the transform *)

Lemma count_events_none kind es :
  Forall (fun e => kind e = false) es -> count_events kind es = 0.
Proof.
  induction 1 as [|e es He _ IH]; [reflexivity|].
  unfold count_events in *; simpl. rewrite He. exact IH.
Qed.

Lemma not_read_or_transform es :
  Forall (fun e => is_read_or_transform e = false) es ->
  count_events is_read es = 0 /\ count_events is_transform es = 0.
Proof.
  intros H. split; apply count_events_none; eapply List.Forall_impl; try exact H;
    intros e He; unfold is_read_or_transform in He; apply orb_false_iff in He; tauto.
Qed.

Lemma memo_world f src w0 m w g :
  adds_none is_read_or_transform g -> memo_inv f src w0 m w -> memo_inv f src w0 m (g w).
Proof.
  intros Hg (Hf & Hs & evs & Ht & Hr & Hx & Hx0 & Hc).
  destruct (Hg w) as (es & Et & Hes). destruct (not_read_or_transform es Hes) as [Er Ex].
  split; [exact Hf|]. split; [exact Hs|].
  exists (evs ++ es)%list. rewrite !count_events_app, Er, Ex, !Nat.add_0_r.
  split; [rewrite Et, Ht, app_assoc; reflexivity|]. auto.
Qed.

Ltac memo_side :=
  try solve [ intros; assumption
            | intros; apply memo_world; [auto with adds|assumption]
            | intros ? ? ?;
              match goal with
              | |- memo_inv _ _ _ _ (?f ?w).2 =>
                  apply (memo_world _ _ _ _ w (fun w => (f w).2)); [auto with adds|assumption]
              end ].

Lemma input_content_memo f src w0 : preserves (memo_inv f src w0) input_content.
Proof.
  intros m w r m' w' H (Hf & Hs & evs & Ht & Hr & Hx & Hx0 & Hc).
  unfold input_content, cached_attribute, bind, self, call in H.
  destruct (input_content_cell m) eqn:Ei.
  - assert (Ho : output_content_cell m = NotComputed).
    { destruct (output_content_cell m); [reflexivity|destruct Hc|destruct Hc]. }
    assert (Et : trace (read_file (filename m) w).2
                 = (trace w0 ++ (evs ++ [EvRead (filename m)]))%list).
    { unfold read_file. rewrite app_assoc, <- Ht.
      destruct (is_STDIN (filename m)); [reflexivity|].
      destruct (fs _ !! _); reflexivity. }
    destruct (read_file (filename m) w) as [[v|e] w1]; simpl in Et;
      injection H as <- <- <-; (split; [exact Hf|]); (split; [exact Hs|]);
      exists (evs ++ [EvRead (filename m)])%list; simpl; rewrite Ho;
      rewrite !count_events_snoc, Hr; simpl; rewrite Nat.add_0_r; repeat split; auto.
  - injection H as <- <- <-. split; [exact Hf|]. split; [exact Hs|].
    exists evs. rewrite Ei. repeat split; auto.
  - injection H as <- <- <-. split; [exact Hf|]. split; [exact Hs|].
    exists evs. rewrite Ei. repeat split; auto.
Qed.
#[global] Hint Resolve input_content_memo : pres.

Lemma output_content_memo f src w0 : preserves (memo_inv f src w0) output_content.
Proof.
  intros m w r m' w' H HI.
  destruct (cell_result (output_content_cell m)) as [r0|] eqn:E0.
  { rewrite (output_content_filled m w r0 E0) in H. injection H as _ <- <-. exact HI. }
  assert (Eo : output_content_cell m = NotComputed).
  { destruct (output_content_cell m); [reflexivity|discriminate|discriminate]. }
  unfold output_content, cached_attribute in H. rewrite Eo in H. unfold bind at 1 in H.
  destruct (input_content m w) as [[rin m1] w1] eqn:Ein.
  pose proof (input_content_memo f src w0 _ _ _ _ _ Ein HI)
    as (Hf & Hs & evs & Ht & Hr & Hx & Hx0 & Hc).
  destruct (input_content_fills _ _ _ _ _ Ein) as (Hcell & Hout & _ & _).
  rewrite Eo in Hout. specialize (Hx0 Hout).
  destruct rin as [inp|e].
  - unfold bind, call_modifier, self, ret in H. rewrite Hf in H.
    assert (Ecell : input_content_cell m1 = Computed inp).
    { destruct (input_content_cell m1); simpl in Hcell; congruence. }
    rewrite Ecell in Hr.
    destruct (f inp) as [text|e] eqn:Ef; injection H as <- <- <-;
      (split; [exact Hf|]); (split; [exact Hs|]);
      exists (evs ++ [EvTransform inp])%list; simpl;
      rewrite !count_events_snoc, Hx0, Ecell; simpl; rewrite Nat.add_0_r;
      unfold transformed; rewrite Ef, ?Hs;
      (split; [rewrite Ht, app_assoc; reflexivity|]);
      repeat split; auto; discriminate.
  - assert (Ecell : input_content_cell m1 = Failed e).
    { destruct (input_content_cell m1); simpl in Hcell; congruence. }
    injection H as <- <- <-. split; [exact Hf|]. split; [exact Hs|].
    exists evs. simpl. rewrite Ecell.
    split; [exact Ht|]. rewrite Ecell in Hr. repeat split; auto.
Qed.
#[global] Hint Resolve output_content_memo : pres.

Lemma memo_object f src w0 m m' w :
  modifier m' = modifier m -> filename m' = filename m ->
  input_content_cell m' = input_content_cell m ->
  output_content_cell m' = output_content_cell m ->
  memo_inv f src w0 m w -> memo_inv f src w0 m' w.
Proof.
  intros E1 E2 E3 E4 H. unfold memo_inv. rewrite E1, E2, E3, E4. exact H.
Qed.

Ltac memo_all :=
  pres ltac:(first [ solve [intros; eapply memo_object; [| | | |eassumption]; reflexivity]
                   | memo_side ]).

Lemma known_action_memo P f src w0 a : known_action P a -> preserves (memo_inv f src w0) a.
Proof.
  intros [->|[->|[->|[[command ->]|[prompt ->]]]]].
  - unfold action_print. memo_all.
  - unfold action_ifchanged. memo_all.
  - unfold action_replace. memo_all.
  - unfold action_external_command, input_content_filename, output_content_filename,
      _tempfile.
    memo_all.
  - unfold action_query. memo_all.
Qed.

Lemma run_actions_keeps P m0 actions :
  Forall (known_action P) actions -> preserves (keeps m0) (run_actions actions).
Proof.
  intros Hk. apply preserves_run_actions. eapply List.Forall_impl; [|exact Hk].
  intros a Ha. apply (known_action_keeps P m0 a Ha).
Qed.

Lemma run_actions_memo P f src w0 actions :
  Forall (known_action P) actions -> preserves (memo_inv f src w0) (run_actions actions).
Proof.
  intros Hk. apply preserves_run_actions. eapply List.Forall_impl; [|exact Hk].
  intros a Ha. apply (known_action_memo P f src w0 a Ha).
Qed.

Lemma memo_inv_init f src w : memo_inv f src w (Modifier_init f src) w.
Proof.
  split; [reflexivity|]. split; [reflexivity|].
  exists []. rewrite app_nil_r. simpl. repeat split; auto.
Qed.

(** C1. For a [Modifier] made by [__init__], with the cached attributes
    modelled as the specification describes them: once [input_content] (or
    [output_content]) has been asked for, whatever actions of the driver
    run in between, asking again gives the same value or the same error,
    in any state of the world, and changes neither the object nor the world,
    so nothing is read or transformed again; over the whole life of the
    object the source is read at most once and the transform is applied at
    most once; and the output content is what the transform gives for the
    input content. *)
Theorem contents_are_memoized P f src :
  (forall acts1 acts2 w ra ma wa r1 mb wb rc mc wc,
      Forall (known_action P) acts1 -> Forall (known_action P) acts2 ->
      run_actions acts1 (Modifier_init f src) w = (ra, ma, wa) ->
      input_content ma wa = (r1, mb, wb) ->
      run_actions acts2 mb wb = (rc, mc, wc) ->
      forall wx, input_content mc wx = (r1, mc, wx))
  /\ (forall acts1 acts2 w ra ma wa r1 mb wb rc mc wc,
      Forall (known_action P) acts1 -> Forall (known_action P) acts2 ->
      run_actions acts1 (Modifier_init f src) w = (ra, ma, wa) ->
      output_content ma wa = (r1, mb, wb) ->
      run_actions acts2 mb wb = (rc, mc, wc) ->
      forall wx, output_content mc wx = (r1, mc, wx))
  /\ (forall acts w ra ma wa ro mb wb ri mc wc,
      Forall (known_action P) acts ->
      run_actions acts (Modifier_init f src) w = (ra, ma, wa) ->
      output_content ma wa = (ro, mb, wb) ->
      input_content mb wb = (ri, mc, wc) ->
      exists evs,
        trace wc = (trace w ++ evs)%list
        /\ count_events is_read evs <= 1
        /\ count_events is_transform evs <= 1)
  /\ (forall acts w ra ma wa ro mb wb inp mc wc,
      Forall (known_action P) acts ->
      run_actions acts (Modifier_init f src) w = (ra, ma, wa) ->
      output_content ma wa = (ro, mb, wb) ->
      input_content mb wb = (Ok inp, mc, wc) ->
      ro = transformed f src inp).
Proof.
  repeat apply conj.
  - intros acts1 acts2 w ra ma wa r1 mb wb rc mc wc _ H2 _ Hcall Hrun wx.
    destruct (input_content_fills _ _ _ _ _ Hcall) as (Hcell & _).
    destruct (run_actions_keeps P mb acts2 H2 _ _ _ _ _ Hrun) as [Hi _];
      [split; reflexivity|].
    apply input_content_filled. rewrite Hi; [exact Hcell|].
    intros E; rewrite E in Hcell; discriminate.
  - intros acts1 acts2 w ra ma wa r1 mb wb rc mc wc _ H2 _ Hcall Hrun wx.
    pose proof (output_content_fills _ _ _ _ _ Hcall) as Hcell.
    destruct (run_actions_keeps P mb acts2 H2 _ _ _ _ _ Hrun) as [_ Ho];
      [split; reflexivity|].
    apply output_content_filled. rewrite Ho; [exact Hcell|].
    intros E; rewrite E in Hcell; discriminate.
  - intros acts w ra ma wa ro mb wb ri mc wc Hk Hrun Hout Hin.
    pose proof (run_actions_memo P f src w acts Hk _ _ _ _ _ Hrun (memo_inv_init f src w))
      as Ha.
    pose proof (output_content_memo f src w _ _ _ _ _ Hout Ha) as Hb.
    destruct (input_content_memo f src w _ _ _ _ _ Hin Hb)
      as (_ & _ & evs & Ht & Hr & Hx & _).
    exists evs. split; [exact Ht|]. split; [|exact Hx].
    rewrite Hr. destruct (input_content_cell mc); lia.
  - intros acts w ra ma wa ro mb wb inp mc wc Hk Hrun Hout Hin.
    pose proof (run_actions_memo P f src w acts Hk _ _ _ _ _ Hrun (memo_inv_init f src w))
      as Ha.
    pose proof (output_content_memo f src w _ _ _ _ _ Hout Ha) as Hb.
    destruct (input_content_memo f src w _ _ _ _ _ Hin Hb)
      as (_ & _ & evs & _ & _ & _ & _ & Hc).
    pose proof (output_content_fills _ _ _ _ _ Hout) as Hocell.
    destruct (input_content_fills _ _ _ _ _ Hin) as (Hicell & Hsame & _).
    rewrite Hsame in Hc.
    destruct (input_content_cell mc) as [|inp'|e]; simpl in Hicell; try discriminate.
    injection Hicell as ->.
    destruct (output_content_cell mb) as [|v|e]; simpl in *; congruence.
Qed.

(** * The properties on the examples *)

Ltac known_one :=
  unfold known_action;
  first [ left; reflexivity
        | right; left; reflexivity
        | right; right; left; reflexivity
        | right; right; right; left; eexists; reflexivity
        | right; right; right; right; eexists; reflexivity ].

Ltac known := repeat (apply List.Forall_cons; [known_one|]); apply List.Forall_nil.

(** The file [c.py] is checked, read again, replaced and printed: the input
    content asked for after the replacement is still the text read before
    it, and the whole run read the file once and applied the transform
    once. *)
Lemma contents_are_memoized_witness :
  input_content Scenario.replaced.1.2 Scenario.w_yes
  = (Ok (mkFileText ("import sys" ++ PyStr.nl) (OfFilename (Path "c.py"))),
     Scenario.replaced.1.2, Scenario.w_yes)
  /\ fs Scenario.replaced.2 !! "c.py" = Some ("import sys  # x" ++ PyStr.nl)
  /\ (output_content Scenario.replaced.1.2 Scenario.replaced.2).1.1
     = transformed Scenario.add_comment (OfFilename (Path "c.py"))
         (mkFileText ("import sys" ++ PyStr.nl) (OfFilename (Path "c.py"))).
Proof.
  destruct (contents_are_memoized Scenario.P0 Scenario.add_comment
              (OfFilename (Path "c.py"))) as (H1 & H2 & H3 & H4).
  split; [|split].
  - eapply (H1 [action_ifchanged] [action_replace; action_print] Scenario.w0);
      [known | known | vm_compute; reflexivity | vm_compute; reflexivity
      | vm_compute; reflexivity].
  - vm_compute; reflexivity.
  - eapply (H4 [action_ifchanged; action_replace; action_print] Scenario.w0);
      [known | vm_compute; reflexivity | vm_compute; reflexivity
      | vm_compute; reflexivity].
Defined.

(** The no-op transform of the specification's scenario under
    [IFCHANGED, REPLACE]: the run of [a.py] aborts and the files keep their
    text. *)
Lemma ifchanged_aborts_iff_output_equals_input_witness :
  outcome_of (action_ifchanged Scenario.m_a Scenario.w0).1.1 = Abort
  /\ fs (run_file [action_ifchanged; action_replace] Scenario.same (Path "a.py")
              Scenario.w0).2
     = fs Scenario.w0.
Proof.
  destruct ifchanged_aborts_iff_output_equals_input as [Ha Hb].
  assert (Hsame : forall text s, Scenario.same text = Ok s -> s = joined text).
  { intros text s H. injection H as <-. reflexivity. }
  split.
  - eapply (Ha Scenario.m_a Scenario.w0); [vm_compute; reflexivity
                                          |vm_compute; reflexivity
                                          |reflexivity].
  - destruct (run_file [action_ifchanged; action_replace] Scenario.same (Path "a.py")
                Scenario.w0) as [[r m'] w'] eqn:E.
    apply (Hb Scenario.same (Path "a.py") Scenario.w0 r m' w' Hsame E).
Defined.

(** The scenario of the specification: [a.py] is unchanged, [b.py] cannot
    be read, [c.py] gets a comment.  The message of the error names
    [b.py]. *)
Lemma failure_is_isolated_when_the_exception_can_be_rebuilt_witness :
  DEBUG Scenario.P0 = false
  /\ process_files Scenario.P0 [action_ifchanged; action_replace] Scenario.add_comment
       [Path "a.py"] [] Scenario.w0
     = (Ok tt, [],
        (process_files Scenario.P0 [action_ifchanged; action_replace]
           Scenario.add_comment [Path "a.py"] [] Scenario.w0).2)
  /\ (run_file [action_ifchanged; action_replace] Scenario.add_comment (Path "b.py")
        (process_files Scenario.P0 [action_ifchanged; action_replace]
           Scenario.add_comment [Path "a.py"] [] Scenario.w0).2).1.1
     = Raise (PyError "ReadError" "cannot read b.py")
  /\ PyStr.contains "cannot read b.py" "b.py" = true
  /\ (process_files Scenario.P0 [action_ifchanged; action_replace] Scenario.add_comment
        [Path "a.py"; Path "b.py"; Path "c.py"] [] Scenario.w0).1
     = (Ok tt, ["b.py: ReadError: cannot read b.py"])
  /\ fs (process_files Scenario.P0 [action_ifchanged; action_replace]
           Scenario.add_comment [Path "a.py"; Path "b.py"; Path "c.py"] []
           Scenario.w0).2 !! "c.py"
     = Some ("import sys  # x" ++ PyStr.nl).
Proof.
  assert (Hc : PyStr.contains "cannot read b.py" "b.py" = true) by (vm_compute; reflexivity).
  split; [reflexivity|]. split; [vm_compute; reflexivity|].
  split; [vm_compute; reflexivity|]. split; [exact Hc|].
  pose proof (failure_is_isolated_when_the_exception_can_be_rebuilt
                Scenario.P0 [action_ifchanged; action_replace] Scenario.add_comment
                [Path "a.py"] (Path "b.py") [Path "c.py"] [] Scenario.w0 []
                (process_files Scenario.P0 [action_ifchanged; action_replace]
                   Scenario.add_comment [Path "a.py"] [] Scenario.w0).2
                "ReadError" "cannot read b.py"
                (run_file [action_ifchanged; action_replace] Scenario.add_comment
                   (Path "b.py")
                   (process_files Scenario.P0 [action_ifchanged; action_replace]
                      Scenario.add_comment [Path "a.py"] [] Scenario.w0).2).1.2
                (run_file [action_ifchanged; action_replace] Scenario.add_comment
                   (Path "b.py")
                   (process_files Scenario.P0 [action_ifchanged; action_replace]
                      Scenario.add_comment [Path "a.py"] [] Scenario.w0).2).2) as H.
  destruct H as [H _];
    [reflexivity | vm_compute; reflexivity | vm_compute; reflexivity |].
  destruct (H (or_introl Hc)) as [E _].
  change ([Path "a.py"; Path "b.py"; Path "c.py"])
    with ([Path "a.py"] ++ Path "b.py" :: [Path "c.py"])%list.
  rewrite E. split; vm_compute; reflexivity.
Defined.

(** C2, failing input. Outside debug mode, over the resolved files [a.py],
    [b.py] and [c.py] with the action print and a transform that raises
    [UnicodeDecodeError] for [b.py], with a message that does not name the
    file: [a.py] is printed and the record of [b.py] is appended; the
    handler then calls the class of the exception on one string, and that
    call raises [TypeError].  The [TypeError] leaves the loop and
    [process_actions]: [c.py], whose actions would return, is not read and
    not printed, and the one record is not reported. *)
Theorem undecodable_file_stops_the_run :
  DEBUG Scenario.P0 = false
  /\ (run_file [action_print] Scenario.decoding (Path "b.py") Scenario.w_abc).1.1
     = Raise (PyError "UnicodeDecodeError"
                ("'ascii' codec can't decode byte 0xe9 in position 5: "
                 ++ "ordinal not in range(128)"))
  /\ (run_file [action_print] Scenario.decoding (Path "c.py") Scenario.w_abc).1.1 = Ok tt
  /\ (process_resolved Scenario.P0 [Path "a.py"; Path "b.py"; Path "c.py"] [action_print]
        Scenario.decoding [] Scenario.w_abc).1
     = (Raise (PyError "TypeError" "function takes exactly 5 arguments (1 given)"),
        ["b.py: UnicodeDecodeError: 'ascii' codec can't decode byte 0xe9 in position 5: "
         ++ "ordinal not in range(128)"])
  /\ stdout (process_resolved Scenario.P0 [Path "a.py"; Path "b.py"; Path "c.py"]
               [action_print] Scenario.decoding [] Scenario.w_abc).2
     = ["import os" ++ PyStr.nl]
  /\ List.filter is_read
       (trace (process_resolved Scenario.P0 [Path "a.py"; Path "b.py"; Path "c.py"]
                 [action_print] Scenario.decoding [] Scenario.w_abc).2)
     = [EvRead (OfFilename (Path "a.py")); EvRead (OfFilename (Path "b.py"))].
Proof. repeat split; vm_compute; reflexivity. Qed.

(** The replace action on standard input and on [c.py], which gets its
    comment. *)
Lemma replace_refuses_stdin_and_writes_all_or_nothing_witness :
  filename Scenario.m_stdin = OfFilename STDIN
  /\ action_replace Scenario.m_stdin Scenario.w0
     = (Raise (PyError "Exception" "Can't replace stdio in-place"),
        Scenario.m_stdin, Scenario.w0)
  /\ filename Scenario.m_c <> OfFilename STDIN
  /\ (output_content Scenario.m_c Scenario.w0).1.1
     = Ok (mkFileText ("import sys  # x" ++ PyStr.nl) (OfFilename (Path "c.py")))
  /\ ("c.py" ∉ unwritable Scenario.w0)
  /\ (action_replace Scenario.m_c Scenario.w0).1.1 = Ok PyNone
  /\ fs (action_replace Scenario.m_c Scenario.w0).2
     = <["c.py" := "import sys  # x" ++ PyStr.nl]> (fs Scenario.w0).
Proof.
  destruct replace_refuses_stdin_and_writes_all_or_nothing as (Hs & Hw & _ & _).
  assert (Hf : filename Scenario.m_c <> OfFilename STDIN) by discriminate.
  assert (Ho : (output_content Scenario.m_c Scenario.w0).1.1
               = Ok (mkFileText ("import sys  # x" ++ PyStr.nl) (OfFilename (Path "c.py"))))
    by (vm_compute; reflexivity).
  assert (Hn : "c.py" ∉ unwritable Scenario.w0) by (apply not_elem_of_empty).
  split; [reflexivity|]. split; [apply Hs; reflexivity|].
  split; [exact Hf|]. split; [exact Ho|]. split; [exact Hn|].
  exact (Hw Scenario.m_c Scenario.w0 _ Hf Ho Hn).
Defined.

(** The answer [ Yes] to the default prompt. *)
Lemma query_continues_iff_line_starts_with_y_witness :
  str_format Scenario.P0 "Proceed?" (str_source (filename Scenario.m_a)) = Ok "Proceed?"
  /\ console Scenario.w_yes = [Typed " Yes"]
  /\ outcome_of (action_query Scenario.P0 "Proceed?" Scenario.m_a Scenario.w_yes).1.1
     = Continue.
Proof.
  assert (Hp : str_format Scenario.P0 "Proceed?" (str_source (filename Scenario.m_a))
               = Ok "Proceed?") by (vm_compute; reflexivity).
  split; [exact Hp|]. split; [reflexivity|].
  destruct (query_continues_iff_line_starts_with_y
              Scenario.P0 "Proceed?" Scenario.m_a Scenario.w_yes "Proceed?" Hp)
    as (Hline & _ & _).
  destruct (Hline " Yes" [] eq_refl) as ((_ & Hyes) & _ & _).
  apply Hyes. vm_compute; reflexivity.
Defined.

(** A transform that fails on [a.py] with a message that names the file. *)
Lemma error_record_starts_with_filename_witness :
  (run_file [action_print] Scenario.failing (Path "a.py") Scenario.w0).1.1
  = Raise (PyError "SyntaxError" "invalid syntax in a.py")
  /\ (process_file Scenario.P0 [action_print] Scenario.failing (Path "a.py") []
                   Scenario.w0).1.2
     = ["a.py: SyntaxError: invalid syntax in a.py"]
  /\ PyStr.startswith "a.py: SyntaxError: invalid syntax in a.py" "a.py" = true
  /\ 2 <= PyStr.occurrences "a.py: SyntaxError: invalid syntax in a.py" "a.py".
Proof.
  split; [vm_compute; reflexivity|].
  destruct (error_record_starts_with_filename
              Scenario.P0 [action_print] Scenario.failing (Path "a.py") [] Scenario.w0
              "SyntaxError" "invalid syntax in a.py"
              (run_file [action_print] Scenario.failing (Path "a.py") Scenario.w0).1.2
              (run_file [action_print] Scenario.failing (Path "a.py") Scenario.w0).2)
    as (H1 & _ & H3 & _ & H5); [vm_compute; reflexivity|].
  split; [exact H1|]. split; [exact H3|]. apply H5. vm_compute; reflexivity.
Defined.


(** A run without errors, a run with a bad argument, an interrupt at the
    prompt, and a run with no arguments at a terminal. *)
Lemma exit_status_reflects_errors_witness :
  process_actions Scenario.P0 ["a.py"] [action_print] Scenario.same Scenario.w0
  = (Ok tt, [],
     (process_files Scenario.P0 [action_print] Scenario.same [Path "a.py"] []
                    Scenario.w0).2)
  /\ (exists msg,
         (process_actions Scenario.P0 ["b.py"] [action_print] Scenario.same Scenario.w0).1
         = (Raise (SystemExit (ExitMsg msg)), ["b.py: bad filename"])
         /\ PyStr.startswith msg (summary_header Scenario.P0) = true
         /\ PyStr.contains msg "    b.py: bad filename" = true)
  /\ script_exit_status
       (process_actions Scenario.P0 ["a.py"] [action_query Scenario.P0 "Proceed?"]
                        Scenario.same Scenario.w_interrupt).1.1 = 1%Z
  /\ script_exit_status
       (process_actions Scenario.proc_tty [] [action_print] Scenario.same Scenario.w0).1.1
     = 1%Z.
Proof.
  split; [|split; [|split]].
  - destruct (exit_status_reflects_errors Scenario.P0) as (H & _).
    apply (H ["a.py"] [action_print] Scenario.same Scenario.w0 [Path "a.py"] [] Scenario.w0);
      vm_compute; reflexivity.
  - destruct (exit_status_reflects_errors Scenario.P0) as (_ & H & _).
    destruct (H ["b.py"] [action_print] Scenario.same Scenario.w0 [] ["b.py: bad filename"]
                (write_stderr ("tidy-imports: bad filename b.py" ++ PyStr.nl) Scenario.w0)
                ["b.py: bad filename"]
                (write_stderr ("tidy-imports: bad filename b.py" ++ PyStr.nl) Scenario.w0))
      as (msg & E & Hp & Hc & _);
      [vm_compute; reflexivity | vm_compute; reflexivity | discriminate |].
    exists msg. rewrite E. split; [reflexivity|]. split; [exact Hp|].
    apply (Hc "b.py: bad filename" "b.py: bad filename"); [left; reflexivity|].
    vm_compute; reflexivity.
  - destruct (exit_status_reflects_errors Scenario.P0) as (_ & _ & H & _).
    apply (H ["a.py"] "Proceed?" [] Scenario.same Scenario.w_interrupt (Path "a.py") [] []
             Scenario.w_interrupt "Proceed?" []); vm_compute; reflexivity.
  - destruct (exit_status_reflects_errors Scenario.proc_tty) as (_ & _ & _ & H).
    apply (H [action_print] Scenario.same Scenario.w0). reflexivity.
Defined.


(** * Where the code differs from the specification *)

(** C5, counterexample. At the end of the input stream the query action
    does not abort: [raw_input] raises [EOFError], which is recorded as a
    failure of the file. *)
Lemma query_at_end_of_input_is_a_failure :
  console Scenario.w0 = []
  /\ outcome_of (action_query Scenario.P0 "Proceed?" Scenario.m_a Scenario.w0).1.1
     = Fail "EOFError" "EOF when reading a line"
  /\ outcome_of (action_query Scenario.P0 "Proceed?" Scenario.m_a Scenario.w0).1.1
     <> Abort
  /\ (process_actions Scenario.P0 ["a.py"] [action_query Scenario.P0 "Proceed?"]
                      Scenario.same Scenario.w0).1.2
     = ["a.py: EOFError: EOF when reading a line"].
Proof. vm_compute. repeat split; try reflexivity. discriminate. Qed.

(** C6, counterexample. When the message of the error already names the
    file, the record carries the name twice. *)
Lemma error_record_repeats_a_mentioned_name :
  (process_actions Scenario.P0 ["a.py"] [action_print] Scenario.failing Scenario.w0).1.2
  = ["a.py: SyntaxError: invalid syntax in a.py"]
  /\ PyStr.occurrences "a.py: SyntaxError: invalid syntax in a.py" "a.py" = 2
  /\ PyStr.occurrences "a.py: SyntaxError: invalid syntax in a.py" "a.py" <> 1.
Proof. vm_compute. repeat split; try reflexivity. discriminate. Qed.

(** C8, counterexample. With two failed files the summary has the header
    and then a single line that holds both records, not one line for each
    file; and the status after an interrupt at the prompt is the status of
    a run with failed files. *)
Lemma summary_is_one_line_and_statuses_coincide :
  (exists msg,
      (process_actions Scenario.P0 ["a.py"; "c.py"] [action_print] Scenario.failing
                       Scenario.w0).1.1
      = Raise (SystemExit (ExitMsg msg))
      /\ PyStr.splitlines msg
         = [""; "tidy-imports: encountered the following problems:";
            "    a.py: SyntaxError: invalid syntax in a.py    c.py: SyntaxError: invalid syntax in c.py"])
  /\ length (process_actions Scenario.P0 ["a.py"; "c.py"] [action_print] Scenario.failing
                             Scenario.w0).1.2 = 2
  /\ script_exit_status
       (process_actions Scenario.P0 ["a.py"] [action_query Scenario.P0 "Proceed?"]
                        Scenario.same Scenario.w_interrupt).1.1
     = script_exit_status
         (process_actions Scenario.P0 ["a.py"; "c.py"] [action_print] Scenario.failing
                          Scenario.w0).1.1.
Proof.
  split; [|split; vm_compute; reflexivity].
  eexists. split; [vm_compute; reflexivity|]. vm_compute; reflexivity.
Qed.

(** * Further properties of the driver *)


(** ** The order of the actions *)

(** X1. The actions of a file run in order, and an action that raises,
    whether to abort or to fail, ends the run of the file: the actions
    after it are not called, whatever they are. *)
Theorem run_actions_stops_at_first_raise (pre post : list action) m w :
  run_actions (pre ++ post) m w
  = match run_actions pre m w with
    | (Ok _, m', w') => run_actions post m' w'
    | (Raise e, m', w') => (Raise e, m', w')
    end.
Proof.
  revert m w. induction pre as [|a pre IH]; intros m w; [reflexivity|].
  cbn [app run_actions]. unfold bind.
  destruct (a m w) as [[[v|e] m1] w1]; [apply IH|reflexivity].
Qed.

(** X2. A line that does not say yes aborts the file before any later
    action: nothing is written, no event is added, and exactly that line
    is taken from the console.  A line that says yes lets the later actions
    run, with the rest of the console left for them. *)
Theorem query_answer_decides_later_actions P prompt post m w p line rest :
  str_format P prompt (str_source (filename m)) = Ok p ->
  console w = Typed line :: rest ->
  (answers_yes line = false ->
   exists w',
     run_actions (action_query P prompt :: post) m w = (Raise AbortActions, m, w')
     /\ fs w' = fs w /\ trace w' = trace w /\ console w' = rest)
  /\ (answers_yes line = true ->
      exists w',
        run_actions (action_query P prompt :: post) m w = run_actions post m w'
        /\ fs w' = fs w /\ trace w' = trace w /\ console w' = rest).
Proof.
  intros Hp Hc. pose proof (action_query_unfold P prompt m w p Hp) as E.
  cbv zeta in E. rewrite Hc in E.
  split; intros Hy; rewrite Hy in E; cbn [run_actions]; unfold bind; rewrite E;
    eexists; (split; [reflexivity|]); repeat split; reflexivity.
Qed.

Lemma query_answer_decides_later_actions_witness :
  str_format Scenario.P0 "Proceed?" (str_source (filename Scenario.m_c)) = Ok "Proceed?"
  /\ console (Scenario.world Scenario.files_AC [Typed "n"; Typed "y"]) = [Typed "n"; Typed "y"]
  /\ answers_yes "n" = false
  /\ exists w',
      run_actions [action_query Scenario.P0 "Proceed?"; action_replace] Scenario.m_c
        (Scenario.world Scenario.files_AC [Typed "n"; Typed "y"])
      = (Raise AbortActions, Scenario.m_c, w')
      /\ fs w' = Scenario.files_AC /\ trace w' = [] /\ console w' = [Typed "y"].
Proof.
  assert (Hp : str_format Scenario.P0 "Proceed?" (str_source (filename Scenario.m_c))
               = Ok "Proceed?") by (vm_compute; reflexivity).
  split; [exact Hp|]. split; [reflexivity|]. split; [reflexivity|].
  destruct (query_answer_decides_later_actions Scenario.P0 "Proceed?" [action_replace]
              Scenario.m_c (Scenario.world Scenario.files_AC [Typed "n"; Typed "y"])
              "Proceed?" "n" [Typed "y"] Hp eq_refl) as [Hno _].
  exact (Hno eq_refl).
Defined.

(** ** The loop in debug mode *)

(** X3. In debug mode the loop ends at the first file whose actions fail:
    the record of the file is appended, an exception leaves
    [process_actions], and the files after it are not processed, so the
    result does not depend on them.  When the message names the file, the
    exception is the one that was raised.  Otherwise it is what the call of
    its class on the text [While processing <file>: <message>] gives: a new
    exception of the class, or the exception that the call raises.  For a
    class that keeps the text as the message of the new exception, the
    message names the file. *)
Theorem debug_mode_stops_at_first_failure
    P actions f pre B post errors w errors1 w1 tname msg mB wB :
  DEBUG P = true ->
  process_files P actions f pre errors w = (Ok tt, errors1, w1) ->
  run_file actions f B w1 = (Raise (PyError tname msg), mB, wB) ->
  let text := "While processing " ++ str_Filename B ++ ": " ++ msg in
  exists e,
    process_resolved P (pre ++ B :: post) actions f errors w
    = (Raise e, (errors1 ++ [error_record B tname msg])%list, wB)
    /\ (PyStr.contains msg (str_Filename B) = true -> e = PyError tname msg)
    /\ (PyStr.contains msg (str_Filename B) = false ->
        e = match exception_call P tname text with
            | Ok msg' => PyError tname msg'
            | Raise x => x
            end)
    /\ (exception_call P tname text = Ok text ->
        exists msg', e = PyError tname msg' /\ PyStr.contains msg' (str_Filename B) = true).
Proof.
  intros HD Hpre HB text.
  assert (Hrun : forall r,
             process_file P actions f B errors1 w1
             = (Raise r, (errors1 ++ [error_record B tname msg])%list, wB) ->
             process_resolved P (pre ++ B :: post) actions f errors w
             = (Raise r, (errors1 ++ [error_record B tname msg])%list, wB)).
  { intros r E. unfold process_resolved. rewrite process_files_app, Hpre.
    cbn [process_files]. rewrite E. reflexivity. }
  destruct (PyStr.contains msg (str_Filename B)) eqn:Hc.
  - exists (PyError tname msg). split; [|split; [reflexivity|split; [discriminate|]]].
    + apply Hrun, (process_file_debug P actions f B errors1 w1 tname msg mB wB _ HD HB).
      apply wrapped_exception_named, Hc.
    + intros _. exists msg. split; [reflexivity|exact Hc].
  - pose proof (wrapped_exception_unnamed P B tname msg Hc) as Hw. fold text in Hw.
    destruct (exception_call P tname text) as [s|x] eqn:Ex.
    + exists (PyError tname s). split; [|split; [discriminate|split; [reflexivity|]]].
      * apply Hrun, (process_file_debug P actions f B errors1 w1 tname msg mB wB _ HD HB Hw).
      * intros Es. injection Es as ->. exists text. split; [reflexivity|].
        apply (contains_app_r "While processing "), contains_startswith, startswith_app.
    + exists x. split; [|split; [discriminate|split; [reflexivity|discriminate]]].
      apply Hrun, (process_file_handler_raises P actions f B errors1 w1 tname msg mB wB x HB Hw).
Qed.

Lemma debug_mode_stops_at_first_failure_witness :
  DEBUG (Scenario.proc true 0) = true
  /\ PyStr.contains "cannot read b.py" "b.py" = true
  /\ process_resolved (Scenario.proc true 0) [Path "a.py"; Path "b.py"; Path "c.py"]
       [action_ifchanged; action_replace] Scenario.add_comment [] Scenario.w0
     = (Raise (PyError "ReadError" "cannot read b.py"),
        ["b.py: ReadError: cannot read b.py"],
        (run_file [action_ifchanged; action_replace] Scenario.add_comment (Path "b.py")
           (process_files (Scenario.proc true 0) [action_ifchanged; action_replace]
              Scenario.add_comment [Path "a.py"] [] Scenario.w0).2).2).
Proof.
  assert (Hc : PyStr.contains "cannot read b.py" "b.py" = true) by (vm_compute; reflexivity).
  split; [reflexivity|]. split; [exact Hc|].
  destruct (debug_mode_stops_at_first_failure
              (Scenario.proc true 0) [action_ifchanged; action_replace] Scenario.add_comment
              [Path "a.py"] (Path "b.py") [Path "c.py"] [] Scenario.w0 []
              (process_files (Scenario.proc true 0) [action_ifchanged; action_replace]
                 Scenario.add_comment [Path "a.py"] [] Scenario.w0).2
              "ReadError" "cannot read b.py"
              (run_file [action_ifchanged; action_replace] Scenario.add_comment (Path "b.py")
                 (process_files (Scenario.proc true 0) [action_ifchanged; action_replace]
                    Scenario.add_comment [Path "a.py"] [] Scenario.w0).2).1.2
              (run_file [action_ifchanged; action_replace] Scenario.add_comment (Path "b.py")
                 (process_files (Scenario.proc true 0) [action_ifchanged; action_replace]
                    Scenario.add_comment [Path "a.py"] [] Scenario.w0).2).2)
    as (e & E & He & _);
    [reflexivity | vm_compute; reflexivity | vm_compute; reflexivity |].
  rewrite <- (He Hc). exact E.
Defined.

(** ** The records of a run *)

Lemma startswith_app_app a b c : PyStr.startswith (a ++ b ++ c) (a ++ b) = true.
Proof.
  induction a as [|x a IH];
    [change (PyStr.startswith (b ++ c) b = true); apply startswith_app|].
  rewrite !append_cons. simpl. rewrite Ascii.eqb_refl. exact IH.
Qed.

Lemma process_file_new_records P actions f filename errors w :
  exists new,
    (process_file P actions f filename errors w).1.2 = (errors ++ new)%list
    /\ length new <= 1
    /\ Forall (fun e => PyStr.startswith e (str_Filename filename ++ ": ") = true) new.
Proof.
  unfold process_file.
  destruct (run_file actions f filename w) as [[[a|[| t msg | |a]] m'] w']; simpl;
    try (exists []; rewrite app_nil_r; repeat split; auto; constructor).
  exists [error_record filename t msg].
  assert (Hs : PyStr.startswith (error_record filename t msg)
                 (str_Filename filename ++ ": ") = true).
  { apply (startswith_app_app (str_Filename filename) ": " (t ++ ": " ++ msg)). }
  destruct (wrapped_exception P filename t msg); [destruct (DEBUG P)|];
    simpl; repeat split; auto.
Qed.

(** X4. A run adds at most one record for each file; it never removes or
    changes a record that was there; and every record it adds starts with
    the name of one of the files, a colon and a space. *)
Theorem records_name_the_files_of_the_run P actions f filenames : forall errors w,
  exists new,
    (process_files P actions f filenames errors w).1.2 = (errors ++ new)%list
    /\ length new <= length filenames
    /\ Forall (fun e =>
                 exists name,
                   In name filenames
                   /\ PyStr.startswith e (str_Filename name ++ ": ") = true) new.
Proof.
  induction filenames as [|x rest IH]; intros errors w.
  - exists []. simpl. rewrite app_nil_r. repeat split; auto.
  - cbn [process_files].
    destruct (process_file_new_records P actions f x errors w) as (n1 & E1 & L1 & F1).
    destruct (process_file P actions f x errors w) as [[[a|e] errors1] w1]; simpl in E1.
    + destruct (IH errors1 w1) as (n2 & E2 & L2 & F2).
      exists (n1 ++ n2)%list. rewrite E2, E1, app_assoc, length_app.
      split; [reflexivity|]. split; [simpl; lia|].
      apply Forall_app; split.
      * eapply List.Forall_impl; [|exact F1]. intros e He. exists x. split; [left; reflexivity|exact He].
      * eapply List.Forall_impl; [|exact F2].
        intros e (name & Hin & He). exists name. split; [right; exact Hin|exact He].
    + exists n1. simpl. split; [exact E1|]. split; [lia|].
      eapply List.Forall_impl; [|exact F1]. intros e0 He. exists x. split; [left; reflexivity|exact He].
Qed.

(** ** Runs that write no file *)

Lemma process_files_world_invariant (Q : World -> Prop) P actions f :
  (forall filename w, Q w -> Q (run_file actions f filename w).2) ->
  (forall tname msg w, Q w -> Q (print_exception tname msg w)) ->
  forall filenames errors w, Q w -> Q (process_files P actions f filenames errors w).2.
Proof.
  intros Hrun Hprint. induction filenames as [|x rest IH]; intros errors w HQ; [exact HQ|].
  cbn [process_files]. unfold process_file.
  specialize (Hrun x w HQ).
  destruct (run_file actions f x w) as [[[a|[| t msg | |a]] m'] w1]; simpl in *;
    try (apply IH; assumption); try assumption.
  destruct (wrapped_exception P x t msg); simpl; [|assumption].
  destruct (DEBUG P); simpl; [assumption|]. apply IH, Hprint, Hrun.
Qed.

Lemma raw_input_untouched w0 m w :
  untouched w0 m w -> untouched w0 m (raw_input w).2.
Proof.
  intros H. unfold raw_input. destruct (console w) as [|[line|] rest]; exact H.
Qed.

Lemma reading_action_untouched P w0 a : reading_action P a -> preserves (untouched w0) a.
Proof.
  intros [->|[->|[prompt ->]]].
  - unfold action_print. pres untouched_side.
  - apply action_ifchanged_untouched.
  - unfold action_query. pres untouched_side.
    intros; apply raw_input_untouched; assumption.
Qed.

(** X5. A run whose actions are only print, if-changed and query writes no
    file, whatever the transform does and whatever the user answers: after
    the run every file has the text it had, and [atomic_write_file] was not
    called. *)
Theorem reading_actions_write_no_file P actions f filenames errors w :
  Forall (reading_action P) actions ->
  fs (process_files P actions f filenames errors w).2 = fs w
  /\ count_events is_write (trace (process_files P actions f filenames errors w).2)
     = count_events is_write (trace w).
Proof.
  intros Hr.
  apply (process_files_world_invariant
           (fun w' => fs w' = fs w
                      /\ count_events is_write (trace w') = count_events is_write (trace w))
           P actions f); [| |split; reflexivity].
  - intros filename w1 H1. unfold run_file.
    destruct (run_actions actions (Modifier_init f (OfFilename filename)) w1)
      as [[r m'] w'] eqn:E. simpl.
    assert (Hp : preserves (untouched w) (run_actions actions)).
    { apply preserves_run_actions. eapply List.Forall_impl; [|exact Hr].
      intros a Ha. apply (reading_action_untouched P w a Ha). }
    exact (Hp _ _ _ _ _ E H1).
  - intros tname msg w1 H1. exact H1.
Qed.

Lemma reading_actions_write_no_file_witness :
  Forall (reading_action Scenario.P0)
    [action_ifchanged; action_query Scenario.P0 "Show {filename}?"; action_print]
  /\ fs (process_files Scenario.P0
           [action_ifchanged; action_query Scenario.P0 "Show {filename}?"; action_print]
           Scenario.add_comment [Path "a.py"; Path "c.py"] [] Scenario.w_yes).2
     = fs Scenario.w_yes
  /\ stdout (process_files Scenario.P0
           [action_ifchanged; action_query Scenario.P0 "Show {filename}?"; action_print]
           Scenario.add_comment [Path "a.py"; Path "c.py"] [] Scenario.w_yes).2
     = [PyStr.nl; "Show c.py? [y/N] "; "import sys  # x" ++ PyStr.nl].
Proof.
  assert (Hr : Forall (reading_action Scenario.P0)
                 [action_ifchanged; action_query Scenario.P0 "Show {filename}?";
                  action_print]).
  { repeat apply List.Forall_cons; try apply List.Forall_nil; unfold reading_action;
      [right; left; reflexivity | right; right; eexists; reflexivity | left; reflexivity]. }
  split; [exact Hr|]. split; [|vm_compute; reflexivity].
  apply (reading_actions_write_no_file Scenario.P0 _ Scenario.add_comment
           [Path "a.py"; Path "c.py"] [] Scenario.w_yes Hr).
Defined.

(** X6. With the actions of [--replace] (if-changed, then replace) and a
    transform that gives back the text it was given, a run over any files
    writes none of them: the files that can be read abort at the if-changed
    action, and the others fail before anything is written. *)
Theorem replace_run_with_noop_transform_writes_no_file P f filenames errors w :
  (forall text s, f text = Ok s -> s = joined text) ->
  fs (process_files P [action_ifchanged; action_replace] f filenames errors w).2 = fs w
  /\ count_events is_write
       (trace (process_files P [action_ifchanged; action_replace] f filenames errors w).2)
     = count_events is_write (trace w).
Proof.
  intros Hf.
  apply (process_files_world_invariant
           (fun w' => fs w' = fs w
                      /\ count_events is_write (trace w') = count_events is_write (trace w))
           P [action_ifchanged; action_replace] f); [| |split; reflexivity].
  - intros filename w1 H1. unfold run_file. cbn [run_actions]. unfold bind.
    destruct (action_ifchanged_noop_raises f (OfFilename filename) w1 Hf)
      as (e & m1 & w2 & E).
    rewrite E. simpl.
    exact (action_ifchanged_untouched w _ _ _ _ _ E H1).
  - intros tname msg w1 H1. exact H1.
Qed.

Lemma replace_run_with_noop_transform_writes_no_file_witness :
  fs (process_files Scenario.P0 [action_ifchanged; action_replace] Scenario.same
        [Path "a.py"; Path "b.py"; Path "c.py"] [] Scenario.w0).2
  = fs Scenario.w0
  /\ (process_files Scenario.P0 [action_ifchanged; action_replace] Scenario.same
        [Path "a.py"; Path "b.py"; Path "c.py"] [] Scenario.w0).1.2
     = ["b.py: ReadError: cannot read b.py"].
Proof.
  split; [|vm_compute; reflexivity].
  apply (replace_run_with_noop_transform_writes_no_file Scenario.P0 Scenario.same
           [Path "a.py"; Path "b.py"; Path "c.py"] [] Scenario.w0).
  intros text s H. injection H as <-. reflexivity.
Defined.

(** ** The environment of the external command *)

Ltac environ_side :=
  try solve [ intros; assumption
            | unfold environ_is; simpl; intros; assumption ].

Lemma read_file_environ src w : environ (read_file src w).2 = environ w.
Proof.
  unfold read_file. destruct (is_STDIN src); [reflexivity|].
  destruct (fs _ !! _); reflexivity.
Qed.

Lemma NamedTemporaryFile_environ w : environ (NamedTemporaryFile w).2 = environ w.
Proof. unfold NamedTemporaryFile. destruct (tmp_avail w); reflexivity. Qed.

Lemma subprocess_call_shell_environ P cmd w :
  environ (subprocess_call_shell P cmd w).2 = environ w.
Proof. unfold subprocess_call_shell. destruct (subprocess_call P cmd _ _). reflexivity. Qed.

Lemma call_modifier_environ e text : preserves (environ_is e) (call_modifier text).
Proof. intros m w r m' w' H HI. injection H as <- <- <-. exact HI. Qed.
#[global] Hint Resolve call_modifier_environ : pres.

Lemma input_content_environ e : preserves (environ_is e) input_content.
Proof.
  unfold input_content. pres environ_side.
  intros m w H. unfold environ_is. rewrite read_file_environ. exact H.
Qed.
#[global] Hint Resolve input_content_environ : pres.

Lemma output_content_environ e : preserves (environ_is e) output_content.
Proof. unfold output_content. pres environ_side. Qed.
#[global] Hint Resolve output_content_environ : pres.

Lemma _tempfile_environ e : preserves (environ_is e) _tempfile.
Proof.
  unfold _tempfile. pres environ_side.
  intros m w H. unfold environ_is. rewrite NamedTemporaryFile_environ. exact H.
Qed.
#[global] Hint Resolve _tempfile_environ : pres.

Lemma external_command_tail_environ P command e :
  preserves (environ_is e)
    (let* inp := input_content_filename in
     let* out := output_content_filename in
     let fullcmd := command ++ " " ++ str_Filename inp ++ " " ++ str_Filename out in
     effect (add_log LDEBUG ("Executing external command: " ++ fullcmd)) ;;;
     let* status := call (subprocess_call_shell P fullcmd) in
     effect (add_log LDEBUG ("External command returned " ++ pretty status)) ;;;
     ret PyNone).
Proof.
  unfold input_content_filename, output_content_filename. pres environ_side.
  intros m w H. unfold environ_is. rewrite subprocess_call_shell_environ. exact H.
Qed.

(** X7. The external-command action changes [PATH] in the environment of
    the process itself.  Without [PATH] it fails with [KeyError] before it
    makes a temporary file or starts a command.  With [PATH] it appends a
    colon and the directory of the script, and the change stays, whether
    the action then returns or raises; so a second external command finds
    the directory appended already and appends it once more. *)
Theorem external_command_extends_PATH P command m w :
  (environ w !! "PATH" = None ->
   action_external_command P command m w = (Raise (PyError "KeyError" "'PATH'"), m, w))
  /\ (forall path,
      environ w !! "PATH" = Some path ->
      environ (action_external_command P command m w).2
      = <["PATH" := path ++ ":" ++ bindir P]> (environ w))
  /\ (forall path command2 v m1 w1,
      environ w !! "PATH" = Some path ->
      action_external_command P command m w = (Ok v, m1, w1) ->
      environ (action_external_command P command2 m1 w1).2 !! "PATH"
      = Some ((path ++ ":" ++ bindir P) ++ ":" ++ bindir P)).
Proof.
  assert (Hext : forall c m0 w0 path,
             environ w0 !! "PATH" = Some path ->
             environ (action_external_command P c m0 w0).2
             = <["PATH" := path ++ ":" ++ bindir P]> (environ w0)).
  { intros c m0 w0 path Hpath.
    unfold action_external_command. unfold bind at 1. unfold call at 1, extend_PATH.
    rewrite Hpath.
    match goal with
    | |- environ (?k ?m1 ?w1).2 = ?e =>
        destruct (k m1 w1) as [[r m'] w'] eqn:E;
        exact (external_command_tail_environ P c e _ _ _ _ _ E eq_refl)
    end. }
  split; [|split].
  - intros Hnone. unfold action_external_command, bind, call, extend_PATH.
    rewrite Hnone. reflexivity.
  - intros path Hpath. apply Hext, Hpath.
  - intros path command2 v m1 w1 Hpath Hrun.
    pose proof (Hext command m w path Hpath) as E1. rewrite Hrun in E1. simpl in E1.
    rewrite (Hext command2 m1 w1 (path ++ ":" ++ bindir P)).
    + apply lookup_insert_eq.
    + rewrite E1. apply lookup_insert_eq.
Qed.

Lemma external_command_extends_PATH_witness :
  environ Scenario.w0 !! "PATH" = Some "/bin"
  /\ environ (action_external_command Scenario.P0 "diff" Scenario.m_c Scenario.w0).2
     !! "PATH" = Some "/bin:/usr/bin"
  /\ environ (set_environ ∅ Scenario.w0) !! "PATH" = None
  /\ action_external_command Scenario.P0 "diff" Scenario.m_c (set_environ ∅ Scenario.w0)
     = (Raise (PyError "KeyError" "'PATH'"), Scenario.m_c, set_environ ∅ Scenario.w0).
Proof.
  assert (Hpath : environ Scenario.w0 !! "PATH" = Some "/bin") by (vm_compute; reflexivity).
  split; [exact Hpath|]. split; [|split; [reflexivity|]].
  - destruct (external_command_extends_PATH Scenario.P0 "diff" Scenario.m_c Scenario.w0)
      as (_ & H & _).
    rewrite (H "/bin" Hpath). vm_compute; reflexivity.
  - destruct (external_command_extends_PATH Scenario.P0 "diff" Scenario.m_c
                (set_environ ∅ Scenario.w0)) as (H & _).
    apply H. reflexivity.
Defined.

(** ** The paths of the contents *)

Ltac tmpfiles_side :=
  try solve [ intros; assumption
            | unfold tmpfiles_are; simpl; intros; assumption ].

Lemma call_modifier_tmpfiles l text : preserves (tmpfiles_are l) (call_modifier text).
Proof. intros m w r m' w' H HI. injection H as <- <- <-. exact HI. Qed.
#[global] Hint Resolve call_modifier_tmpfiles : pres.

Lemma output_content_tmpfiles l : preserves (tmpfiles_are l) output_content.
Proof. unfold output_content, input_content. pres tmpfiles_side. Qed.

(** X8. The first access to [output_content_filename] that succeeds makes
    one new temporary file: its name was the name of no file, so no file
    that existed is overwritten or changed; it holds the text of the output
    content; and it is added to [_tmpfiles], so [__del__] removes it. *)
Theorem output_content_filename_is_a_new_file m w p m' w' :
  output_content_filename_cell m = NotComputed ->
  output_content_filename m w = (Ok p, m', w') ->
  exists name out,
    p = Path name
    /\ fs w !! name = None
    /\ output_content_cell m' = Computed out
    /\ fs w' = <[name := joined out]> (fs w)
    /\ (forall q, q <> name -> fs w' !! q = fs w !! q)
    /\ _tmpfiles m' = (_tmpfiles m ++ [name])%list.
Proof.
  intros Hcell H.
  unfold output_content_filename, cached_attribute in H. rewrite Hcell in H.
  unfold bind at 1 in H. unfold _tempfile, bind, call, update, ret, NamedTemporaryFile in H.
  destruct (tmp_avail w) as [|n]; [discriminate|].
  set (name := fresh (dom (fs w)) : string) in *.
  set (m1 := set_tmpfiles (_tmpfiles m ++ [name]) m) in *.
  set (w1 := add_event (EvTempCreate name)
               (set_tmp_avail n (set_fs (<[name := ""]> (fs w)) w))) in *.
  cbn beta iota in H.
  destruct (output_content m1 w1) as [[[out|e] m2] w2] eqn:Eo; [|discriminate].
  unfold effect in H. injection H as <- <- <-.
  assert (Hfresh : fs w !! name = None).
  { apply not_elem_of_dom. apply is_fresh. }
  assert (Hfs : fs w2 = fs w1).
  { apply (output_content_untouched w1 _ _ _ _ _ Eo). split; reflexivity. }
  assert (Htmp : _tmpfiles m2 = _tmpfiles m1).
  { exact (output_content_tmpfiles (_tmpfiles m1) _ _ _ _ _ Eo eq_refl). }
  pose proof (output_content_fills _ _ _ _ _ Eo) as Hfill.
  exists name, out. split; [reflexivity|]. split; [exact Hfresh|].
  split; [|split; [|split]].
  - simpl. destruct (output_content_cell m2); simpl in Hfill; congruence.
  - simpl. rewrite Hfs. simpl. apply insert_insert_eq.
  - intros q Hq. simpl. rewrite Hfs. simpl.
    rewrite !lookup_insert_ne by congruence. reflexivity.
  - simpl. exact Htmp.
Qed.

Lemma output_content_filename_is_a_new_file_witness :
  output_content_filename_cell Scenario.m_c = NotComputed
  /\ (output_content_filename Scenario.m_c Scenario.w0).1.1 = Ok (Path "0")
  /\ exists name out,
      Path "0" = Path name
      /\ fs Scenario.w0 !! name = None
      /\ output_content_cell (output_content_filename Scenario.m_c Scenario.w0).1.2
         = Computed out
      /\ fs (output_content_filename Scenario.m_c Scenario.w0).2
         = <[name := joined out]> (fs Scenario.w0)
      /\ (forall q,
            q <> name ->
            fs (output_content_filename Scenario.m_c Scenario.w0).2 !! q
            = fs Scenario.w0 !! q)
      /\ _tmpfiles (output_content_filename Scenario.m_c Scenario.w0).1.2
         = (_tmpfiles Scenario.m_c ++ [name])%list.
Proof.
  split; [reflexivity|]. split; [vm_compute; reflexivity|].
  apply (output_content_filename_is_a_new_file Scenario.m_c Scenario.w0);
    [reflexivity | vm_compute; reflexivity].
Defined.

(** ** What the external command and the replacement see *)

(** X9. For a file that can be read and a transform that returns, the
    external command is run on the path of the file itself and on the path
    of one new temporary file: when the child process starts, the file has
    its original text, the temporary file has the transformed text, and the
    file was read once; the action leaves whatever files the child process
    leaves. *)
Theorem external_command_sees_original_and_transformed
    P command (f : transform) p w path n text new :
  environ w !! "PATH" = Some path ->
  tmp_avail w = S n ->
  fs w !! p = Some text ->
  f (mkFileText text (OfFilename (Path p))) = Ok new ->
  let name : string := fresh (dom (fs w)) in
  let fullcmd := command ++ " " ++ p ++ " " ++ name in
  let seen := <[name := new]> (fs w) in
  let child :=
    subprocess_call P fullcmd (<["PATH" := path ++ ":" ++ bindir P]> (environ w)) seen in
  name <> p
  /\ seen !! p = Some text
  /\ seen !! name = Some new
  /\ exists m' w',
      action_external_command P command (Modifier_init f (OfFilename (Path p))) w
      = (Ok PyNone, m', w')
      /\ fs w' = child.2
      /\ _tmpfiles m' = [name]
      /\ trace w'
         = (trace w ++ [EvTempCreate name; EvRead (OfFilename (Path p));
                        EvTransform (mkFileText text (OfFilename (Path p)));
                        EvExec fullcmd])%list.
Proof.
  intros Hpath Htmp Hp Hf name fullcmd seen child.
  assert (Hne : name <> p).
  { intros E. assert (Hn : fs w !! name = None) by (apply not_elem_of_dom, is_fresh).
    rewrite E in Hn. congruence. }
  split; [exact Hne|]. split; [unfold seen; rewrite lookup_insert_ne by exact Hne; exact Hp|].
  split; [apply lookup_insert_eq|].
  unfold action_external_command, input_content_filename, output_content_filename,
    output_content, input_content, _tempfile, cached_attribute, bind, call, self, effect,
    update, ret, call_modifier, subprocess_call_shell, extend_PATH, NamedTemporaryFile,
    read_file.
  cbn. rewrite Hpath. cbn. rewrite Htmp. cbn.
  fold name. rewrite (lookup_insert_ne (fs w) name p "" Hne), Hp. cbn. rewrite Hf. cbn.
  rewrite insert_insert_eq. fold seen. fold fullcmd. fold child.
  destruct child as [status files]. cbn.
  eexists _, _. split; [reflexivity|]. cbn. split; [reflexivity|]. split; [reflexivity|].
  rewrite <- !app_assoc. reflexivity.
Qed.

Lemma external_command_sees_original_and_transformed_witness :
  environ Scenario.w0 !! "PATH" = Some "/bin"
  /\ tmp_avail Scenario.w0 = 8
  /\ fs Scenario.w0 !! "c.py" = Some ("import sys" ++ PyStr.nl)
  /\ Scenario.add_comment (mkFileText ("import sys" ++ PyStr.nl) (OfFilename (Path "c.py")))
     = Ok ("import sys  # x" ++ PyStr.nl)
  /\ exists m' w',
      action_external_command Scenario.P0 "diff"
        (Modifier_init Scenario.add_comment (OfFilename (Path "c.py"))) Scenario.w0
      = (Ok PyNone, m', w')
      /\ _tmpfiles m' = [fresh (dom (fs Scenario.w0))]
      /\ trace w'
         = (trace Scenario.w0
            ++ [EvTempCreate (fresh (dom (fs Scenario.w0)));
                EvRead (OfFilename (Path "c.py"));
                EvTransform (mkFileText ("import sys" ++ PyStr.nl) (OfFilename (Path "c.py")));
                EvExec ("diff" ++ " " ++ "c.py" ++ " " ++ fresh (dom (fs Scenario.w0)))])%list.
Proof.
  assert (H1 : environ Scenario.w0 !! "PATH" = Some "/bin") by (vm_compute; reflexivity).
  assert (H3 : fs Scenario.w0 !! "c.py" = Some ("import sys" ++ PyStr.nl))
    by (vm_compute; reflexivity).
  split; [exact H1|]. split; [reflexivity|]. split; [exact H3|]. split; [reflexivity|].
  destruct (external_command_sees_original_and_transformed
              Scenario.P0 "diff" Scenario.add_comment "c.py" Scenario.w0 "/bin" 7
              ("import sys" ++ PyStr.nl) ("import sys  # x" ++ PyStr.nl)
              H1 eq_refl H3 eq_refl)
    as (_ & _ & _ & m' & w' & E & _ & Ht & Htr).
  exists m', w'. split; [exact E|]. split; [exact Ht|exact Htr].
Defined.

(** X10. The replace action does not look whether the text changed: for a
    file other than standard input that can be read and written and a
    transform that returns, it reads the file once, applies the transform
    once and writes what the transform gave, also when that is the text the
    file had already. *)
Theorem replace_writes_whatever_the_transform_gives (f : transform) p w text new :
  fs w !! p = Some text ->
  f (mkFileText text (OfFilename (Path p))) = Ok new ->
  p ∉ unwritable w ->
  exists m' w',
    action_replace (Modifier_init f (OfFilename (Path p))) w = (Ok PyNone, m', w')
    /\ fs w' = <[p := new]> (fs w)
    /\ trace w'
       = (trace w ++ [EvRead (OfFilename (Path p));
                      EvTransform (mkFileText text (OfFilename (Path p)));
                      EvWrite p new])%list
    /\ log w' = (log w ++ [(LINFO, (p ++ ": *** modified ***")%string)])%list.
Proof.
  intros Hp Hf Hw.
  unfold action_replace, output_content, input_content, cached_attribute, bind, call, self,
    effect, ret, call_modifier, read_file, atomic_write_file.
  cbn. rewrite Hp. cbn. rewrite Hf. cbn.
  destruct (decide (p ∈ unwritable w)) as [Hin|_]; [destruct (Hw Hin)|].
  eexists _, _. split; [reflexivity|]. cbn. split; [reflexivity|]. split; [|reflexivity].
  rewrite <- !app_assoc. reflexivity.
Qed.

Lemma replace_writes_whatever_the_transform_gives_witness :
  fs Scenario.w0 !! "a.py" = Some ("import os" ++ PyStr.nl)
  /\ Scenario.same (mkFileText ("import os" ++ PyStr.nl) (OfFilename (Path "a.py")))
     = Ok ("import os" ++ PyStr.nl)
  /\ ("a.py" ∉ unwritable Scenario.w0)
  /\ exists m' w',
      action_replace (Modifier_init Scenario.same (OfFilename (Path "a.py"))) Scenario.w0
      = (Ok PyNone, m', w')
      /\ count_events is_write (trace w') = 1.
Proof.
  assert (H1 : fs Scenario.w0 !! "a.py" = Some ("import os" ++ PyStr.nl))
    by (vm_compute; reflexivity).
  assert (H3 : "a.py" ∉ unwritable Scenario.w0) by (apply not_elem_of_empty).
  split; [exact H1|]. split; [reflexivity|]. split; [exact H3|].
  destruct (replace_writes_whatever_the_transform_gives
              Scenario.same "a.py" Scenario.w0 ("import os" ++ PyStr.nl)
              ("import os" ++ PyStr.nl) H1 eq_refl H3)
    as (m' & w' & E & _ & Htr & _).
  exists m', w'. split; [exact E|]. rewrite Htr. reflexivity.
Defined.

(** * Further properties of the options *)

(** ** Stripping and capitals *)

Lemma append_nil_r s : s ++ "" = s.
Proof. induction s as [|c s IH]; [reflexivity|]. rewrite ?append_cons, IH. reflexivity. Qed.

Lemma isspace_upper_char c : PyStr.isspace (PyStr.upper_char c) = PyStr.isspace c.
Proof. destruct c as [[] [] [] [] [] [] [] []]; vm_compute; reflexivity. Qed.

Lemma no_space_upper s : no_space (PyStr.upper s) = no_space s.
Proof.
  induction s as [|c s IH]; [reflexivity|]. simpl. rewrite isspace_upper_char, IH. reflexivity.
Qed.

Lemma upper_app a b : PyStr.upper (a ++ b) = PyStr.upper a ++ PyStr.upper b.
Proof.
  induction a as [|c a IH]; [reflexivity|]. rewrite ?append_cons. simpl.
  rewrite IH. reflexivity.
Qed.

Lemma lstrip_all_space ws s : all_space ws = true -> PyStr.lstrip (ws ++ s) = PyStr.lstrip s.
Proof.
  induction ws as [|c ws IH]; [reflexivity|]. simpl. intros H.
  apply andb_true_iff in H as [Hc Hws]. rewrite ?append_cons. simpl. rewrite Hc. exact (IH Hws).
Qed.

Lemma rstrip_all_space ws : all_space ws = true -> PyStr.rstrip ws = "".
Proof.
  induction ws as [|c ws IH]; [reflexivity|]. simpl. intros H.
  apply andb_true_iff in H as [Hc Hws]. rewrite (IH Hws), Hc. reflexivity.
Qed.

Lemma rstrip_after_char c b :
  PyStr.isspace c = false -> PyStr.rstrip (String c b) = String c (PyStr.rstrip b).
Proof. intros Hc. simpl. destruct (PyStr.rstrip b); rewrite ?Hc; reflexivity. Qed.

Lemma rstrip_after_prefix a c b :
  PyStr.isspace c = false ->
  PyStr.rstrip (a ++ String c b) = a ++ String c (PyStr.rstrip b).
Proof.
  intros Hc. induction a as [|x a IH].
  - apply (rstrip_after_char c b Hc).
  - rewrite ?append_cons. cbn [PyStr.rstrip]. rewrite IH.
    destruct a; reflexivity.
Qed.

Lemma rstrip_no_space kw ws :
  no_space kw = true -> all_space ws = true -> PyStr.rstrip (kw ++ ws) = kw.
Proof.
  intros Hk Hws. induction kw as [|c kw IH].
  - apply (rstrip_all_space ws Hws).
  - simpl in Hk. apply andb_true_iff in Hk as [Hc Hk]. apply negb_true_iff in Hc.
    rewrite ?append_cons, (rstrip_after_char _ _ Hc), (IH Hk). reflexivity.
Qed.

Lemma lstrip_no_space kw s :
  no_space kw = true -> kw <> "" -> PyStr.lstrip (kw ++ s) = kw ++ s.
Proof.
  destruct kw as [|c kw]; [congruence|]. simpl. intros H _.
  apply andb_true_iff in H as [Hc _]. apply negb_true_iff in Hc.
  rewrite ?append_cons. simpl. rewrite Hc. reflexivity.
Qed.

Lemma strip_keyword ws1 kw ws2 :
  all_space ws1 = true -> all_space ws2 = true -> no_space kw = true -> kw <> "" ->
  PyStr.strip (ws1 ++ kw ++ ws2) = kw.
Proof.
  intros H1 H2 Hk Hne. unfold PyStr.strip.
  rewrite (lstrip_all_space ws1 _ H1), (lstrip_no_space kw ws2 Hk Hne).
  apply (rstrip_no_space kw ws2 Hk H2).
Qed.

(** ** The items of [--actions] *)

(** X11. A keyword of [--actions] is recognised in any letter case and with
    whitespace before and after it: an item made of whitespace, a word whose
    capitals are PRINT, REPLACE, QUERY, DIFF or IFCHANGED, and whitespace
    gives the action of that word. *)
Theorem parse_action_ignores_case_and_spaces P repr ws1 kw ws2 a :
  all_space ws1 = true ->
  all_space ws2 = true ->
  action_of_keyword P (PyStr.upper kw) = Some a ->
  parse_action P repr (ws1 ++ kw ++ ws2) = Ok a.
Proof.
  intros H1 H2 Ha.
  assert (Hk : no_space (PyStr.upper kw) = true /\ PyStr.upper kw <> "").
  { unfold action_of_keyword in Ha.
    repeat match type of Ha with
           | (if String.eqb ?x ?y then _ else _) = _ =>
               destruct (String.eqb_spec x y) as [E|_];
               [rewrite E; split; [reflexivity|discriminate]|]
           end.
    discriminate. }
  destruct Hk as [Hns Hne]. rewrite no_space_upper in Hns.
  assert (Hne' : kw <> "") by (intros ->; apply Hne; reflexivity).
  unfold parse_action. rewrite (strip_keyword ws1 kw ws2 H1 H2 Hns Hne').
  unfold action_of_keyword in Ha. cbv zeta.
  repeat match type of Ha with
         | (if String.eqb ?x ?y then _ else _) = _ =>
             destruct (String.eqb_spec x y) as [E|_];
             [rewrite E in *; injection Ha as <-; reflexivity|]
         end.
  discriminate.
Qed.

Lemma parse_action_ignores_case_and_spaces_witness :
  all_space " " = true
  /\ all_space (" " ++ PyStr.nl) = true
  /\ action_of_keyword Scenario.P0 (PyStr.upper "IfChanged") = Some action_ifchanged
  /\ parse_action Scenario.P0 (fun v => v) (" " ++ "IfChanged" ++ " " ++ PyStr.nl)
     = Ok action_ifchanged.
Proof.
  split; [reflexivity|]. split; [reflexivity|]. split; [reflexivity|].
  apply (parse_action_ignores_case_and_spaces Scenario.P0 (fun v => v) " " "IfChanged"
           (" " ++ PyStr.nl)); reflexivity.
Defined.

Lemma rstrip_after_no_space kw rest :
  no_space kw = true -> kw <> "" -> exists t, PyStr.rstrip (kw ++ rest) = kw ++ t.
Proof.
  induction kw as [|c kw IH]; [congruence|]. intros H _. simpl in H.
  apply andb_true_iff in H as [Hc Hk]. apply negb_true_iff in Hc.
  rewrite ?append_cons, (rstrip_after_char _ _ Hc).
  destruct kw as [|d kw].
  - exists (PyStr.rstrip rest). reflexivity.
  - destruct (IH Hk ltac:(discriminate)) as [t Et]. rewrite Et. exists t. reflexivity.
Qed.

Lemma upper_length s : String.length (PyStr.upper s) = String.length s.
Proof. induction s as [|c s IH]; [reflexivity|]. simpl. rewrite IH. reflexivity. Qed.

Lemma slice_from_app kw rest : PyStr.slice_from (String.length kw) (kw ++ rest) = rest.
Proof.
  induction kw as [|c kw IH]; [destruct rest; reflexivity|].
  rewrite ?append_cons. simpl. exact IH.
Qed.

Lemma strip_upper_after_keyword kw rest :
  no_space (PyStr.upper kw) = true -> PyStr.upper kw <> "" ->
  exists t, PyStr.upper (PyStr.strip (kw ++ rest)) = PyStr.upper kw ++ t.
Proof.
  intros Hns Hne. rewrite no_space_upper in Hns.
  assert (Hne' : kw <> "") by (intros ->; apply Hne; reflexivity).
  unfold PyStr.strip. rewrite (lstrip_no_space kw rest Hns Hne').
  destruct (rstrip_after_no_space kw rest Hns Hne') as [t ->].
  exists (PyStr.upper t). apply upper_app.
Qed.

(** X12. The text after [QUERY:] or [EXECUTE:] is passed on as it is: when
    the item starts with the keyword, in any letter case, the prompt or the
    command is everything after the colon, with its letter case and its
    spaces, those at the end too. *)
Theorem parse_action_keeps_the_argument P repr kw rest :
  (PyStr.upper kw = "QUERY:" ->
   parse_action P repr (kw ++ rest) = Ok (action_query P rest))
  /\ (PyStr.upper kw = "EXECUTE:" ->
      parse_action P repr (kw ++ rest) = Ok (action_external_command P rest)).
Proof.
  split; intros Hk.
  - destruct (strip_upper_after_keyword kw rest) as [t Et];
      [rewrite Hk; reflexivity | rewrite Hk; discriminate|].
    assert (Hs : PyStr.slice_from 6 (kw ++ rest) = rest).
    { replace 6 with (String.length kw) by (rewrite <- upper_length, Hk; reflexivity).
      apply slice_from_app. }
    unfold parse_action. rewrite Et, Hk, Hs. reflexivity.
  - destruct (strip_upper_after_keyword kw rest) as [t Et];
      [rewrite Hk; reflexivity | rewrite Hk; discriminate|].
    assert (Hs : PyStr.slice_from 8 (kw ++ rest) = rest).
    { replace 8 with (String.length kw) by (rewrite <- upper_length, Hk; reflexivity).
      apply slice_from_app. }
    unfold parse_action. rewrite Et, Hk, Hs. reflexivity.
Qed.

Lemma parse_action_keeps_the_argument_witness :
  PyStr.upper "Query:" = "QUERY:"
  /\ parse_action Scenario.P0 (fun v => v) ("Query:" ++ " Replace {filename}?  ")
     = Ok (action_query Scenario.P0 " Replace {filename}?  ")
  /\ PyStr.upper "execute:" = "EXECUTE:"
  /\ parse_action Scenario.P0 (fun v => v) ("execute:" ++ "Meld -n ")
     = Ok (action_external_command Scenario.P0 "Meld -n ").
Proof.
  destruct (parse_action_keeps_the_argument Scenario.P0 (fun v => v) "Query:"
              " Replace {filename}?  ") as [Hq _].
  destruct (parse_action_keeps_the_argument Scenario.P0 (fun v => v) "execute:"
              "Meld -n ") as [_ He].
  split; [reflexivity|]. split; [exact (Hq eq_refl)|].
  split; [reflexivity|exact (He eq_refl)].
Defined.

Lemma upper_char_colon c : PyStr.upper_char c = ":"%char -> c = ":"%char.
Proof.
  destruct c as [[] [] [] [] [] [] [] []]; vm_compute; intros H;
    first [reflexivity | discriminate H].
Qed.

(** X13. The text after the colon is cut out of the item as it was given,
    not out of the stripped item: with one whitespace character before the
    keyword, the prompt or the command that is passed on starts with the
    colon itself. *)
Theorem parse_action_argument_shifts_with_leading_space P repr c kw rest :
  PyStr.isspace c = true ->
  (PyStr.upper kw = "QUERY:" ->
   parse_action P repr (String c (kw ++ rest)) = Ok (action_query P (":" ++ rest)))
  /\ (PyStr.upper kw = "EXECUTE:" ->
      parse_action P repr (String c (kw ++ rest))
      = Ok (action_external_command P (":" ++ rest))).
Proof.
  intros Hc.
  assert (Hstrip : PyStr.strip (String c (kw ++ rest)) = PyStr.strip (kw ++ rest)).
  { unfold PyStr.strip. simpl. rewrite Hc. reflexivity. }
  split; intros Hk.
  - destruct (strip_upper_after_keyword kw rest) as [t Et];
      [rewrite Hk; reflexivity | rewrite Hk; discriminate|].
    assert (Hs : PyStr.slice_from 6 (String c (kw ++ rest)) = ":" ++ rest).
    { destruct kw as [|k1 [|k2 [|k3 [|k4 [|k5 [|k6 [|k7 kw]]]]]]]; try discriminate Hk.
      simpl in Hk. injection Hk as _ _ _ _ _ H6.
      rewrite (upper_char_colon k6 H6). reflexivity. }
    unfold parse_action. rewrite Hstrip, Et, Hk, Hs. reflexivity.
  - destruct (strip_upper_after_keyword kw rest) as [t Et];
      [rewrite Hk; reflexivity | rewrite Hk; discriminate|].
    assert (Hs : PyStr.slice_from 8 (String c (kw ++ rest)) = ":" ++ rest).
    { destruct kw as [|k1 [|k2 [|k3 [|k4 [|k5 [|k6 [|k7 [|k8 [|k9 kw]]]]]]]]];
        try discriminate Hk.
      simpl in Hk. injection Hk as _ _ _ _ _ _ _ H8.
      rewrite (upper_char_colon k8 H8). reflexivity. }
    unfold parse_action. rewrite Hstrip, Et, Hk, Hs. reflexivity.
Qed.

Lemma parse_action_argument_shifts_with_leading_space_witness :
  PyStr.isspace " " = true
  /\ PyStr.upper "QUERY:" = "QUERY:"
  /\ parse_action Scenario.P0 (fun v => v) (" QUERY:Really?")
     = Ok (action_query Scenario.P0 ":Really?").
Proof.
  split; [reflexivity|]. split; [reflexivity|].
  destruct (parse_action_argument_shifts_with_leading_space Scenario.P0 (fun v => v)
              " "%char "QUERY:" "Really?" eq_refl) as [Hq _].
  exact (Hq eq_refl).
Defined.

(** ** The value of [--actions] *)

Lemma split_nonempty sep s : PyStr.split sep s <> [].
Proof.
  induction s as [|c s IH]; simpl; [discriminate|].
  destruct (Ascii.eqb c sep); [discriminate|].
  destruct (PyStr.split sep s); [congruence|discriminate].
Qed.

Lemma split_length s : length (PyStr.split "," s) = S (commas s).
Proof.
  induction s as [|c s IH]; [reflexivity|]. simpl.
  destruct (Ascii.eqb c ","); simpl; [rewrite IH; reflexivity|].
  destruct (PyStr.split "," s) as [|x xs] eqn:E; [destruct (split_nonempty _ _ E)|].
  simpl in *. exact IH.
Qed.

Lemma split_trailing_separator sep s :
  PyStr.split sep (s ++ String sep "") = (PyStr.split sep s ++ [""])%list.
Proof.
  induction s as [|c s IH].
  - change ("" ++ String sep "") with (String sep ""). simpl.
    rewrite Ascii.eqb_refl. reflexivity.
  - rewrite ?append_cons. simpl. rewrite IH.
    destruct (Ascii.eqb c sep); [reflexivity|].
    destruct (PyStr.split sep s) as [|x xs] eqn:E; [destruct (split_nonempty _ _ E)|].
    reflexivity.
Qed.

Lemma parse_actions_ok P repr l : forall acts,
  parse_actions P repr l = Ok acts ->
  Forall2 (fun v a => parse_action P repr v = Ok a) l acts.
Proof.
  induction l as [|v l IH]; simpl; intros acts H.
  - injection H as <-. constructor.
  - destruct (parse_action P repr v) as [a|e] eqn:Ev; [|discriminate].
    destruct (parse_actions P repr l) as [rest|e]; [|discriminate].
    injection H as <-. constructor; [exact Ev|apply IH; reflexivity].
Qed.

Lemma parse_actions_raise P repr l : forall e,
  parse_actions P repr l = Raise e <->
  exists pre bad post,
    l = (pre ++ bad :: post)%list
    /\ Forall (fun v => exists a, parse_action P repr v = Ok a) pre
    /\ parse_action P repr bad = Raise e.
Proof.
  induction l as [|v l IH]; intros e; simpl.
  - split; [discriminate|]. intros (pre & bad & post & E & _). destruct pre; discriminate.
  - split.
    + intros H. destruct (parse_action P repr v) as [a|e0] eqn:Ev.
      * destruct (parse_actions P repr l) as [rest|e1] eqn:El; [discriminate|].
        injection H as <-.
        destruct (proj1 (IH e1) eq_refl) as (pre & bad & post & E & Hpre & Hbad).
        exists (v :: pre), bad, post. rewrite E. split; [reflexivity|].
        split; [constructor; eauto|exact Hbad].
      * injection H as <-. exists [], v, l. repeat split; auto.
    + intros (pre & bad & post & E & Hpre & Hbad).
      destruct pre as [|x pre]; simpl in E; injection E as -> ->.
      * rewrite Hbad. reflexivity.
      * inversion Hpre as [|? ? [a Ha] Hrest]; subst. rewrite Ha.
        rewrite (proj2 (IH e)); [reflexivity|]. exists pre, bad, post. auto.
Qed.

Lemma parse_action_blank P repr ws :
  all_space ws = true -> exists e, parse_action P repr ws = Raise e.
Proof.
  intros H. pose proof (lstrip_all_space ws "" H) as Hl. rewrite append_nil_r in Hl.
  unfold parse_action, PyStr.strip. rewrite Hl. eexists. reflexivity.
Qed.

Lemma parse_actions_with_bad_item P repr bad post e0 : forall pre,
  parse_action P repr bad = Raise e0 ->
  exists e, parse_actions P repr (pre ++ bad :: post) = Raise e.
Proof.
  induction pre as [|v pre IH]; intros Hbad; simpl.
  - rewrite Hbad. eauto.
  - destruct (parse_action P repr v) as [a|e1]; [|eauto].
    destruct (IH Hbad) as [e ->]. eauto.
Qed.

(** X14. The value of [--actions] is taken whole or not at all.  When the
    callback returns, there is one action for each item between the commas,
    in the order of the items.  It raises exactly when some item is not an
    action, and the error is that of the leftmost such item.  An item that
    is empty or only whitespace is not an action, so the empty value, a
    value that ends with a comma and a value with two commas in a row are
    refused. *)
Theorem action_callback_all_or_nothing P repr value :
  (forall acts,
      action_callback P repr value = Ok acts ->
      length acts = S (commas value)
      /\ Forall2 (fun v a => parse_action P repr v = Ok a) (PyStr.split "," value) acts)
  /\ (forall e,
      action_callback P repr value = Raise e <->
      exists pre bad post,
        PyStr.split "," value = (pre ++ bad :: post)%list
        /\ Forall (fun v => exists a, parse_action P repr v = Ok a) pre
        /\ parse_action P repr bad = Raise e)
  /\ ((exists ws, In ws (PyStr.split "," value) /\ all_space ws = true) ->
      exists e, action_callback P repr value = Raise e)
  /\ (exists e, action_callback P repr (value ++ ",") = Raise e).
Proof.
  assert (Hblank : forall l,
             (exists ws, In ws l /\ all_space ws = true) ->
             exists e, parse_actions P repr l = Raise e).
  { intros l (ws & Hin & Hws).
    destruct (in_split _ _ Hin) as (pre & post & ->).
    destruct (parse_action_blank P repr ws Hws) as [e0 He0].
    apply (parse_actions_with_bad_item P repr ws post e0 pre He0). }
  unfold action_callback. split; [|split; [|split]].
  - intros acts H. pose proof (parse_actions_ok P repr _ _ H) as HF.
    split; [|exact HF]. rewrite <- split_length. symmetry.
    apply (Forall2_length _ _ _ HF).
  - intros e. apply parse_actions_raise.
  - apply Hblank.
  - apply Hblank. exists "". split; [|reflexivity].
    rewrite (split_trailing_separator "," value). apply in_or_app. right. left. reflexivity.
Qed.

Lemma action_callback_all_or_nothing_witness :
  action_callback Scenario.P0 (fun v => v) "ifchanged, replace"
  = Ok [action_ifchanged; action_replace]
  /\ length [action_ifchanged; action_replace] = S (commas "ifchanged, replace")
  /\ (exists ws, In ws (PyStr.split "," "PRINT,,DIFF") /\ all_space ws = true)
  /\ exists e, action_callback Scenario.P0 (fun v => v) "PRINT,,DIFF" = Raise e.
Proof.
  assert (H1 : action_callback Scenario.P0 (fun v => v) "ifchanged, replace"
               = Ok [action_ifchanged; action_replace]) by reflexivity.
  assert (H3 : exists ws, In ws (PyStr.split "," "PRINT,,DIFF") /\ all_space ws = true).
  { exists "". split; [right; left; reflexivity|reflexivity]. }
  split; [exact H1|].
  destruct (action_callback_all_or_nothing Scenario.P0 (fun v => v) "ifchanged, replace")
    as (Hok & _).
  split; [exact (proj1 (Hok _ H1))|]. split; [exact H3|].
  destruct (action_callback_all_or_nothing Scenario.P0 (fun v => v) "PRINT,,DIFF")
    as (_ & _ & Hb & _).
  exact (Hb H3).
Defined.

(** X15. Each short option sets the actions that [--actions] sets for the
    string named in its help text, save one: [--interactive] asks
    [Replace {filename}?], which is the string with [QUERY:Replace
    {filename}?], while the plain [QUERY] of the help text asks the default
    [Proceed?]. *)
Theorem short_options_as_action_strings P repr :
  action_callback P repr "PRINT" = Ok actions_of_print
  /\ action_callback P repr "DIFF" = Ok (actions_of_diff P)
  /\ action_callback P repr "IFCHANGED,REPLACE" = Ok actions_of_replace
  /\ action_callback P repr "IFCHANGED,DIFF,REPLACE" = Ok (actions_of_diff_replace P)
  /\ action_callback P repr "IFCHANGED,DIFF,QUERY:Replace {filename}?,REPLACE"
     = Ok (actions_interactive P)
  /\ action_callback P repr "IFCHANGED,DIFF,QUERY,REPLACE"
     = Ok [action_ifchanged; action_diff P; action_query P "Proceed?"; action_replace].
Proof. repeat split; reflexivity. Qed.

(** ** The columns of [--align-imports] *)

Lemma insert_sorted_In x l y : In y (insert_sorted x l) <-> y = x \/ In y l.
Proof.
  induction l as [|z l IH]; simpl; [intuition|].
  destruct (Z.ltb_spec x z); [simpl; intuition|].
  destruct (Z.eqb_spec x z); [subst; simpl; intuition|].
  simpl. rewrite IH. intuition.
Qed.

Lemma insert_sorted_increasing x l : increasing l -> increasing (insert_sorted x l).
Proof.
  unfold increasing. induction 1 as [|z l Hs IH Hz]; simpl.
  - repeat constructor.
  - destruct (Z.ltb_spec x z).
    + constructor; [constructor; assumption|].
      constructor; [assumption|].
      eapply List.Forall_impl; [|exact Hz]. intros a Ha. lia.
    + destruct (Z.eqb_spec x z); [constructor; assumption|].
      constructor; [exact IH|].
      rewrite List.Forall_forall in *. intros a Ha.
      apply insert_sorted_In in Ha as [->|Ha]; [lia|auto].
Qed.

Lemma sorted_set_In l x : In x (sorted_set l) <-> In x l.
Proof.
  induction l as [|y l IH]; simpl; [tauto|].
  rewrite insert_sorted_In, IH. intuition.
Qed.

Lemma sorted_set_increasing l : increasing (sorted_set l).
Proof.
  induction l as [|y l IH]; simpl; [constructor|].
  apply insert_sorted_increasing, IH.
Qed.

Lemma increasing_same_members l1 : forall l2,
  increasing l1 -> increasing l2 -> (forall x, In x l1 <-> In x l2) -> l1 = l2.
Proof.
  unfold increasing.
  induction l1 as [|a r1 IH]; intros l2 H1 H2 Hm.
  - destruct l2 as [|b r2]; [reflexivity|]. destruct (proj2 (Hm b)); left; reflexivity.
  - destruct l2 as [|b r2]; [destruct (proj1 (Hm a)); left; reflexivity|].
    inversion H1 as [|? ? Hs1 Ha]; subst. inversion H2 as [|? ? Hs2 Hb]; subst.
    rewrite List.Forall_forall in Ha, Hb.
    assert (a = b).
    { destruct (proj1 (Hm a) (or_introl eq_refl)) as [E|Hin]; [congruence|].
      destruct (proj2 (Hm b) (or_introl eq_refl)) as [E|Hin']; [congruence|].
      specialize (Ha _ Hin'). specialize (Hb _ Hin). lia. }
    subst b. f_equal. apply IH; [assumption|assumption|].
    intros x. split; intros Hx.
    + destruct (proj1 (Hm x) (or_intror Hx)) as [E|Hin]; [|exact Hin].
      specialize (Ha _ Hx). lia.
    + destruct (proj2 (Hm x) (or_intror Hx)) as [E|Hin]; [|exact Hin].
      specialize (Hb _ Hx). lia.
Qed.

(** X16. When every item of [--align-imports] is an integer, the value
    passed on is [True] only for the single item 1 and [False] only for the
    single item 0; in every other case, a repeated 1 or 0 too, it is the
    tuple of the columns in increasing order with each column once, so two
    option values that name the same columns, in any order and with any
    repetition, give the same tuple. *)
Theorem align_imports_is_canonical int option args :
  parse_ints int (PyStr.split "," option) = Ok args ->
  (align_imports_of int option = Ok AlignTrue <-> args = [1%Z])
  /\ (align_imports_of int option = Ok AlignFalse <-> args = [0%Z])
  /\ (args <> [1%Z] -> args <> [0%Z] ->
      align_imports_of int option = Ok (AlignColumns (sorted_set args)))
  /\ increasing (sorted_set args)
  /\ (forall x, In x (sorted_set args) <-> In x args)
  /\ (forall args', (forall x, In x args <-> In x args') -> sorted_set args = sorted_set args').
Proof.
  intros Hp. unfold align_imports_of. rewrite Hp.
  assert (Hcases : args = [1%Z] \/ args = [0%Z] \/ (args <> [1%Z] /\ args <> [0%Z])).
  { destruct args as [|a [|b r]]; [right; right; split; discriminate| |right; right; split; discriminate].
    destruct (Z.eq_dec a 1%Z) as [->|]; [left; reflexivity|].
    destruct (Z.eq_dec a 0%Z) as [->|]; [right; left; reflexivity|].
    right; right; split; congruence. }
  assert (Hcol : args <> [1%Z] -> args <> [0%Z] ->
                 match args with
                 | [1%Z] => Ok AlignTrue
                 | [0%Z] => Ok AlignFalse
                 | _ => Ok (AlignColumns (sorted_set args))
                 end = Ok (AlignColumns (sorted_set args))).
  { intros N1 N0. destruct args as [|a [|b r]].
    - reflexivity.
    - destruct a as [|[p|p|]|p];
        first [reflexivity | destruct (N1 eq_refl) | destruct (N0 eq_refl)].
    - destruct a as [|[p|p|]|p]; reflexivity. }
  split; [|split; [|split; [exact Hcol|split; [apply sorted_set_increasing|split]]]].
  - split; [|intros ->; reflexivity].
    destruct Hcases as [E|[->|[N1 N0]]]; [auto|discriminate|].
    rewrite (Hcol N1 N0). discriminate.
  - split; [|intros ->; reflexivity].
    destruct Hcases as [->|[E|[N1 N0]]]; [discriminate|auto|].
    rewrite (Hcol N1 N0). discriminate.
  - apply sorted_set_In.
  - intros args' Hm.
    apply increasing_same_members; try apply sorted_set_increasing.
    intros x. rewrite !sorted_set_In. apply Hm.
Qed.

Lemma align_imports_is_canonical_witness :
  parse_ints Options.int (PyStr.split "," "40, 32 ,40") = Ok [40%Z; 32%Z; 40%Z]
  /\ align_imports_of Options.int "40, 32 ,40" = Ok (AlignColumns [32%Z; 40%Z])
  /\ parse_ints Options.int (PyStr.split "," "1,1") = Ok [1%Z; 1%Z]
  /\ align_imports_of Options.int "1,1" = Ok (AlignColumns [1%Z])
  /\ align_imports_of Options.int "1" = Ok AlignTrue.
Proof.
  assert (H1 : parse_ints Options.int (PyStr.split "," "40, 32 ,40")
               = Ok [40%Z; 32%Z; 40%Z]) by reflexivity.
  assert (H2 : parse_ints Options.int (PyStr.split "," "1,1") = Ok [1%Z; 1%Z])
    by reflexivity.
  assert (H3 : parse_ints Options.int (PyStr.split "," "1") = Ok [1%Z]) by reflexivity.
  split; [exact H1|]. split; [|split; [exact H2|split]].
  - destruct (align_imports_is_canonical Options.int "40, 32 ,40" _ H1) as (_ & _ & H & _).
    rewrite H; [reflexivity|discriminate|discriminate].
  - destruct (align_imports_is_canonical Options.int "1,1" _ H2) as (_ & _ & H & _).
    rewrite H; [reflexivity|discriminate|discriminate].
  - destruct (align_imports_is_canonical Options.int "1" _ H3) as (H & _).
    apply H. reflexivity.
Defined.

(** * Further properties of the report *)

Lemma splitlines_aux_one_line s : forall cur,
  no_linebreak s = true ->
  PyStr.splitlines_aux s cur true = [String.rev_app cur s].
Proof.
  induction s as [|c s IH]; intros cur H.
  - reflexivity.
  - simpl in H. apply andb_true_iff in H as [H Hs]. apply andb_true_iff in H as [H1 H2].
    apply negb_true_iff in H1, H2. cbn [PyStr.splitlines_aux]. rewrite H1, H2.
    rewrite (IH _ Hs). reflexivity.
Qed.

Lemma splitlines_one_line e :
  e <> "" -> no_linebreak e = true -> PyStr.splitlines e = [e].
Proof.
  destruct e as [|c s]; [congruence|]. intros _ H.
  simpl in H. apply andb_true_iff in H as [H Hs]. apply andb_true_iff in H as [H1 H2].
  apply negb_true_iff in H1, H2.
  unfold PyStr.splitlines. cbn [PyStr.splitlines_aux]. rewrite H1, H2.
  rewrite (splitlines_aux_one_line s _ Hs). reflexivity.
Qed.

Lemma append_assoc a b c : (a ++ b) ++ c = a ++ (b ++ c).
Proof. induction a as [|x a IH]; [reflexivity|]. rewrite ?append_cons, IH. reflexivity. Qed.

Lemma summary_body_one_line errors : forall msg,
  Forall (fun e => e <> "" /\ no_linebreak e = true) errors ->
  summary_body msg errors = Ok (msg ++ records_in_a_row errors).
Proof.
  induction errors as [|e rest IH]; intros msg H; simpl.
  - rewrite append_nil_r. reflexivity.
  - inversion H as [|? ? [He Hl] Hrest]; subst.
    unfold summary_entry. rewrite (splitlines_one_line e He Hl). cbn [map PyStr.join].
    rewrite (IH _ Hrest). f_equal.
    change ("    " ++ e ++ "") with ("    " ++ (e ++ "")). rewrite append_nil_r.
    rewrite append_assoc.
    change (("    " ++ e) ++ records_in_a_row rest)
      with ("    " ++ (e ++ records_in_a_row rest)).
    reflexivity.
Qed.

(** X17. When no record has a line end inside, the message of the report is
    the header line followed by the records one after the other, each after
    four spaces, with no line end between two records and none after the
    last: all the records are on the one line under the header. *)
Theorem report_puts_one_line_records_in_a_row P errors :
  errors <> [] ->
  Forall (fun e => e <> "" /\ no_linebreak e = true) errors ->
  report P errors
  = Raise (SystemExit (ExitMsg (summary_header P ++ records_in_a_row errors)))
  /\ no_linebreak (records_in_a_row errors) = true.
Proof.
  intros Hne H. split.
  - unfold report. destruct errors as [|e rest]; [congruence|].
    rewrite (summary_body_one_line _ _ H). reflexivity.
  - clear Hne. induction H as [|e rest [_ Hl] _ IH]; [reflexivity|].
    cbn [records_in_a_row].
    assert (Happ : forall a b, no_linebreak a = true -> no_linebreak b = true ->
                               no_linebreak (a ++ b) = true).
    { clear. induction a as [|c a IHa]; intros b Ha Hb; [exact Hb|].
      rewrite ?append_cons. simpl in *. apply andb_true_iff in Ha as [Hc Ha].
      rewrite Hc. simpl. apply IHa; assumption. }
    apply (Happ "    "); [reflexivity|]. apply Happ; assumption.
Qed.

Lemma report_puts_one_line_records_in_a_row_witness :
  ["a.py: IOError: no"; "c.py: bad filename"] <> []
  /\ report Scenario.P0 ["a.py: IOError: no"; "c.py: bad filename"]
     = Raise (SystemExit (ExitMsg
         (PyStr.nl ++ "tidy-imports: encountered the following problems:" ++ PyStr.nl
          ++ "    a.py: IOError: no    c.py: bad filename"))).
Proof.
  split; [discriminate|].
  destruct (report_puts_one_line_records_in_a_row Scenario.P0
              ["a.py: IOError: no"; "c.py: bad filename"]) as [E _];
    [discriminate | repeat constructor; discriminate |].
  rewrite E. reflexivity.
Defined.

(** * Further properties of the paths and of whole runs *)

Lemma input_content_tmpfiles l : preserves (tmpfiles_are l) input_content.
Proof. unfold input_content. pres tmpfiles_side. Qed.

(** X18. The path of the input content is the file name itself when the
    object was made with a [Filename]: nothing is read and no file is made.
    For any other source the first access that succeeds makes one new
    temporary file, under a name that no file had, which holds the text of
    the input content and is added to [_tmpfiles]. *)
Theorem input_content_filename_is_the_file_or_a_new_copy m w :
  input_content_filename_cell m = NotComputed ->
  (forall f,
      filename m = OfFilename f ->
      input_content_filename m w
      = (Ok f, set_input_content_filename_cell (Computed f) m, w))
  /\ (forall s p m' w',
      filename m = OfStr s ->
      input_content_filename m w = (Ok p, m', w') ->
      exists name inp,
        p = Path name
        /\ fs w !! name = None
        /\ input_content_cell m' = Computed inp
        /\ fs w' = <[name := joined inp]> (fs w)
        /\ _tmpfiles m' = (_tmpfiles m ++ [name])%list).
Proof.
  intros Hcell. split.
  - intros f Hf. unfold input_content_filename, cached_attribute, bind, self, ret.
    rewrite Hcell, Hf. reflexivity.
  - intros s p m' w' Hf H.
    unfold input_content_filename, cached_attribute in H. rewrite Hcell in H.
    unfold bind at 1, self in H. rewrite Hf in H.
    unfold bind at 1 in H.
    unfold _tempfile, bind, call, update, ret, NamedTemporaryFile in H.
    destruct (tmp_avail w) as [|n]; [discriminate|].
    set (name := fresh (dom (fs w)) : string) in *.
    set (m1 := set_tmpfiles (_tmpfiles m ++ [name]) m) in *.
    set (w1 := add_event (EvTempCreate name)
                 (set_tmp_avail n (set_fs (<[name := ""]> (fs w)) w))) in *.
    cbn beta iota in H.
    destruct (input_content m1 w1) as [[[inp|e] m2] w2] eqn:Ei; [|discriminate].
    unfold effect in H. injection H as <- <- <-.
    assert (Hfs : fs w2 = fs w1).
    { apply (input_content_untouched w1 _ _ _ _ _ Ei). split; reflexivity. }
    assert (Htmp : _tmpfiles m2 = _tmpfiles m1).
    { exact (input_content_tmpfiles (_tmpfiles m1) _ _ _ _ _ Ei eq_refl). }
    destruct (input_content_fills _ _ _ _ _ Ei) as (Hfill & _).
    exists name, inp. split; [reflexivity|].
    split; [apply not_elem_of_dom, is_fresh|]. split; [|split].
    + simpl. destruct (input_content_cell m2); simpl in Hfill; congruence.
    + simpl. rewrite Hfs. simpl. apply insert_insert_eq.
    + simpl. exact Htmp.
Qed.

Lemma input_content_filename_is_the_file_or_a_new_copy_witness :
  input_content_filename_cell Scenario.m_c = NotComputed
  /\ filename Scenario.m_c = OfFilename (Path "c.py")
  /\ input_content_filename Scenario.m_c Scenario.w0
     = (Ok (Path "c.py"),
        set_input_content_filename_cell (Computed (Path "c.py")) Scenario.m_c,
        Scenario.w0)
  /\ exists name inp,
      Path "0" = Path name
      /\ fs Scenario.w0 !! name = None
      /\ input_content_cell
           (input_content_filename (Modifier_init Scenario.same (OfStr "c.py"))
              Scenario.w0).1.2 = Computed inp
      /\ fs (input_content_filename (Modifier_init Scenario.same (OfStr "c.py"))
               Scenario.w0).2 = <[name := joined inp]> (fs Scenario.w0)
      /\ _tmpfiles (input_content_filename (Modifier_init Scenario.same (OfStr "c.py"))
                      Scenario.w0).1.2
         = (_tmpfiles (Modifier_init Scenario.same (OfStr "c.py")) ++ [name])%list.
Proof.
  split; [reflexivity|]. split; [reflexivity|].
  destruct (input_content_filename_is_the_file_or_a_new_copy Scenario.m_c Scenario.w0
              eq_refl) as [Hfile _].
  split; [exact (Hfile (Path "c.py") eq_refl)|].
  destruct (input_content_filename_is_the_file_or_a_new_copy
              (Modifier_init Scenario.same (OfStr "c.py")) Scenario.w0 eq_refl)
    as [_ Hcopy].
  apply (Hcopy "c.py"); [reflexivity | vm_compute; reflexivity].
Defined.

Lemma process_file_print P (f : transform) p errors w text out :
  fs w !! p = Some text ->
  f (mkFileText text (OfFilename (Path p))) = Ok out ->
  process_file P [action_print] f (Path p) errors w
  = (Ok tt, errors,
     write_stdout out
       (add_event (EvTransform (mkFileText text (OfFilename (Path p))))
          (add_event (EvRead (OfFilename (Path p))) w))).
Proof.
  intros Hp Hf.
  unfold process_file, run_file, run_actions, action_print, output_content, input_content,
    cached_attribute, bind, call, self, effect, ret, call_modifier, read_file.
  cbn. rewrite Hp. cbn. rewrite Hf. reflexivity.
Qed.

Lemma process_files_print P (f : transform) files0 paths outs :
  Forall2 (fun p out =>
             exists text,
               files0 !! p = Some text
               /\ f (mkFileText text (OfFilename (Path p))) = Ok out) paths outs ->
  forall errors w,
    fs w = files0 ->
    exists w',
      process_files P [action_print] f (map Path paths) errors w = (Ok tt, errors, w')
      /\ stdout w' = (stdout w ++ outs)%list
      /\ fs w' = files0
      /\ stderr w' = stderr w.
Proof.
  induction 1 as [|p out paths outs (text & Hp & Hf) _ IH]; intros errors w Hw.
  - exists w. rewrite app_nil_r. repeat split; auto.
  - cbn [map process_files]. rewrite <- Hw in Hp.
    rewrite (process_file_print P f p errors w text out Hp Hf).
    destruct (IH errors
                (write_stdout out
                   (add_event (EvTransform (mkFileText text (OfFilename (Path p))))
                      (add_event (EvRead (OfFilename (Path p))) w))) Hw)
      as (w' & E & Hout & Hfs & Herr).
    exists w'. split; [exact E|]. split; [|split; assumption].
    rewrite Hout. simpl. rewrite <- app_assoc. reflexivity.
Qed.

(** X19. With the single action print, over files that can all be read and
    a transform that returns for each of them, the run writes to standard
    output the transformed texts, in the order of the files, and nothing
    else; it changes no file, writes nothing to standard error and adds no
    record, so a run that starts without records ends without
    [SystemExit]. *)
Theorem print_run_writes_the_transformed_texts P (f : transform) paths outs errors w :
  Forall2 (fun p out =>
             exists text,
               fs w !! p = Some text
               /\ f (mkFileText text (OfFilename (Path p))) = Ok out) paths outs ->
  exists w',
    process_files P [action_print] f (map Path paths) errors w = (Ok tt, errors, w')
    /\ stdout w' = (stdout w ++ outs)%list
    /\ fs w' = fs w
    /\ stderr w' = stderr w
    /\ process_resolved P (map Path paths) [action_print] f [] w = (Ok tt, [], w').
Proof.
  intros H.
  destruct (process_files_print P f (fs w) paths outs H errors w eq_refl)
    as (w' & E & Hout & Hfs & Herr).
  exists w'. repeat split; auto.
  unfold process_resolved.
  pose proof (process_files_errors P [action_print] f (map Path paths) errors w) as E0.
  rewrite E in E0.
  destruct (process_files P [action_print] f (map Path paths) [] w) as [[r new] w0].
  injection E0 as <- Hn <-.
  assert (new = []) as ->.
  { destruct new; [reflexivity|]. apply (f_equal (@length _)) in Hn.
    rewrite length_app in Hn. simpl in Hn. lia. }
  reflexivity.
Qed.

Lemma print_run_writes_the_transformed_texts_witness :
  Forall2 (fun p out =>
             exists text,
               fs Scenario.w0 !! p = Some text
               /\ Scenario.add_comment (mkFileText text (OfFilename (Path p))) = Ok out)
    ["c.py"; "a.py"] ["import sys  # x" ++ PyStr.nl; "import os" ++ PyStr.nl]
  /\ exists w',
      process_files Scenario.P0 [action_print] Scenario.add_comment
        (map Path ["c.py"; "a.py"]) [] Scenario.w0 = (Ok tt, [], w')
      /\ stdout w' = ["import sys  # x" ++ PyStr.nl; "import os" ++ PyStr.nl].
Proof.
  assert (H : Forall2 (fun p out =>
                exists text,
                  fs Scenario.w0 !! p = Some text
                  /\ Scenario.add_comment (mkFileText text (OfFilename (Path p))) = Ok out)
                ["c.py"; "a.py"] ["import sys  # x" ++ PyStr.nl; "import os" ++ PyStr.nl]).
  { constructor; [|constructor; [|constructor]].
    - exists ("import sys" ++ PyStr.nl). split; vm_compute; reflexivity.
    - exists ("import os" ++ PyStr.nl). split; vm_compute; reflexivity. }
  split; [exact H|].
  destruct (print_run_writes_the_transformed_texts Scenario.P0 Scenario.add_comment
              ["c.py"; "a.py"] _ [] Scenario.w0 H) as (w' & E & Hout & _).
  exists w'. split; [exact E|exact Hout].
Defined.

Lemma action_ifchanged_on_a_changed_file (f : transform) src w inp new :
  (read_file src w).1 = Ok inp ->
  f inp = Ok new ->
  new <> joined inp ->
  action_ifchanged (Modifier_init f src) w
  = (Ok PyNone,
     set_output_content_cell (Computed (mkFileText new src))
       (set_input_content_cell (Computed inp) (Modifier_init f src)),
     add_event (EvTransform inp) (read_file src w).2).
Proof.
  intros Hr Hf Hne.
  unfold action_ifchanged, output_content, input_content, cached_attribute, bind, call,
    self, ret, call_modifier.
  change (input_content_cell (Modifier_init f src)) with (@NotComputed FileText).
  change (output_content_cell (Modifier_init f src)) with (@NotComputed FileText).
  change (filename (Modifier_init f src)) with src.
  destruct (read_file src w) as [r w1]. simpl in Hr. subst r.
  change (modifier (set_input_content_cell (Computed inp) (Modifier_init f src))) with f.
  rewrite Hf.
  change (input_content_cell (set_output_content_cell _ _)) with (Computed inp).
  cbv beta iota. unfold joined at 1.
  destruct (String.eqb_spec new (joined inp)) as [E|_]; [destruct (Hne E)|].
  reflexivity.
Qed.

Lemma action_external_command_with_output P command m w p out path n :
  filename m = OfFilename (Path p) ->
  output_content_cell m = Computed out ->
  input_content_filename_cell m = NotComputed ->
  output_content_filename_cell m = NotComputed ->
  environ w !! "PATH" = Some path ->
  tmp_avail w = S n ->
  action_external_command P command m w
  = (Ok PyNone,
     set_output_content_filename_cell (Computed (Path (fresh (dom (fs w)))))
       (set_tmpfiles (_tmpfiles m ++ [fresh (dom (fs w))])
          (set_input_content_filename_cell (Computed (Path p)) m)),
     add_log LDEBUG
       ("External command returned "
        ++ pretty (subprocess_call P
                     (command ++ " " ++ p ++ " " ++ fresh (dom (fs w)))
                     (<["PATH" := path ++ ":" ++ bindir P]> (environ w))
                     (<[fresh (dom (fs w)) := joined out]> (fs w))).1)
       (add_event (EvExec (command ++ " " ++ p ++ " " ++ fresh (dom (fs w))))
          (set_fs (subprocess_call P
                     (command ++ " " ++ p ++ " " ++ fresh (dom (fs w)))
                     (<["PATH" := path ++ ":" ++ bindir P]> (environ w))
                     (<[fresh (dom (fs w)) := joined out]> (fs w))).2
             (add_log LDEBUG
                ("Executing external command: "
                 ++ command ++ " " ++ p ++ " " ++ fresh (dom (fs w)))
                (tmp_write (fresh (dom (fs w))) (joined out)
                   (add_event (EvTempCreate (fresh (dom (fs w))))
                      (set_tmp_avail n
                         (set_fs (<[fresh (dom (fs w)) := ""]> (fs w))
                            (set_environ
                               (<["PATH" := path ++ ":" ++ bindir P]> (environ w))
                               w))))))))).
Proof.
  intros Hfn Hout Hic Hoc Hpath Htmp.
  set (name := fresh (dom (fs w)) : string).
  unfold action_external_command. unfold bind at 1. unfold call at 1, extend_PATH.
  rewrite Hpath. unfold bind at 1.
  unfold input_content_filename, cached_attribute. rewrite Hic.
  unfold bind at 1, self. rewrite Hfn. unfold ret at 1. unfold bind at 1.
  unfold output_content_filename, cached_attribute.
  change (output_content_filename_cell (set_input_content_filename_cell _ m))
    with (output_content_filename_cell m).
  rewrite Hoc.
  unfold _tempfile, output_content, cached_attribute, bind, call, update, ret, effect,
    NamedTemporaryFile.
  change (tmp_avail (set_environ _ w)) with (tmp_avail w). rewrite Htmp.
  change (fs (set_environ _ w)) with (fs w). fold name.
  change (output_content_cell (set_tmpfiles _ (set_input_content_filename_cell _ m)))
    with (output_content_cell m).
  rewrite Hout.
  unfold subprocess_call_shell.
  cbn [str_Filename].
  change (environ (add_log _ _ (tmp_write _ _ (add_event _ (set_tmp_avail _ (set_fs _ (set_environ ?e w)))))))
    with e.
  change (fs (add_log _ _ (tmp_write name ?t (add_event _ (set_tmp_avail _ (set_fs ?g (set_environ _ w)))))))
    with (<[name := t]> g).
  rewrite insert_insert_eq.
  destruct (subprocess_call P (command ++ " " ++ p ++ " " ++ name)
              (<["PATH" := path ++ ":" ++ bindir P]> (environ w))
              (<[name := joined out]> (fs w))) as [status files].
  reflexivity.
Qed.

Lemma action_replace_with_output m w p out :
  filename m = OfFilename (Path p) ->
  output_content_cell m = Computed out ->
  p ∉ unwritable w ->
  action_replace m w
  = (Ok PyNone, m,
     add_event (EvWrite p (joined out))
       (set_fs (<[p := joined out]> (fs w))
          (add_log LINFO (p ++ ": *** modified ***") w))).
Proof.
  intros Hfn Hout Hw.
  unfold action_replace, bind, self. rewrite Hfn. cbn [is_STDIN str_source str_Filename].
  unfold effect, output_content, cached_attribute. rewrite Hout.
  unfold call, atomic_write_file, ret. cbn [str_source str_Filename].
  change (unwritable (add_log _ _ w)) with (unwritable w).
  destruct (decide (p ∈ unwritable w)) as [Hin|_]; [destruct (Hw Hin)|]. reflexivity.
Qed.

(** X20. The actions of [--diff-replace] on a file that can be read and
    written, with a transform that changes its text: the file is read once
    and the transform applied once, by the if-changed action; the diff
    command is then run on the file, which still has its text, and on a new
    temporary file with the new text; and the replace action then writes
    the new text it already had, into whatever files the diff command left,
    without reading or transforming again. *)
Theorem diff_replace_run_on_a_changed_file
    P (f : transform) p w path n text new :
  environ w !! "PATH" = Some path ->
  tmp_avail w = S n ->
  fs w !! p = Some text ->
  f (mkFileText text (OfFilename (Path p))) = Ok new ->
  new <> text ->
  p ∉ unwritable w ->
  let name : string := fresh (dom (fs w)) in
  let fullcmd := "pyflyby-diff" ++ " " ++ p ++ " " ++ name in
  let child :=
    subprocess_call P fullcmd (<["PATH" := path ++ ":" ++ bindir P]> (environ w))
                    (<[name := new]> (fs w)) in
  exists m' w',
    run_file (actions_of_diff_replace P) f (Path p) w = (Ok tt, m', w')
    /\ fs w' = <[p := new]> child.2
    /\ trace w'
       = (trace w ++ [EvRead (OfFilename (Path p));
                      EvTransform (mkFileText text (OfFilename (Path p)));
                      EvTempCreate name; EvExec fullcmd; EvWrite p new])%list
    /\ _tmpfiles m' = [name].
Proof.
  intros Hpath Htmp Hp Hf Hne Hw name fullcmd child.
  assert (Hread : read_file (OfFilename (Path p)) w
                  = (Ok (mkFileText text (OfFilename (Path p))),
                     add_event (EvRead (OfFilename (Path p))) w)).
  { unfold read_file. cbn [is_STDIN str_source str_Filename add_event fs]. rewrite Hp.
    reflexivity. }
  pose proof (action_ifchanged_on_a_changed_file f (OfFilename (Path p)) w
                (mkFileText text (OfFilename (Path p))) new) as H1.
  rewrite Hread in H1. specialize (H1 eq_refl Hf Hne).
  cbn [snd] in H1.
  set (src := OfFilename (Path p)) in *.
  set (m1 := set_output_content_cell (Computed (mkFileText new src))
               (set_input_content_cell (Computed (mkFileText text src))
                  (Modifier_init f src))) in *.
  set (w1 := add_event (EvTransform (mkFileText text src)) (add_event (EvRead src) w))
    in *.
  pose proof (action_external_command_with_output P "pyflyby-diff" m1 w1 p
                (mkFileText new src) path n
                eq_refl eq_refl eq_refl eq_refl Hpath Htmp) as H2.
  change (fs w1) with (fs w) in H2. change (environ w1) with (environ w) in H2.
  change (joined (mkFileText new src)) with new in H2.
  fold name in H2. fold fullcmd in H2. fold child in H2.
  change (_tmpfiles m1) with (@nil string) in H2.
  set (m2 := set_output_content_filename_cell _ _) in H2.
  set (w2 := add_log _ _ _) in H2.
  pose proof (action_replace_with_output m2 w2 p (mkFileText new src)
                eq_refl eq_refl Hw) as H3.
  change (joined (mkFileText new src)) with new in H3.
  unfold run_file, actions_of_diff_replace, action_diff.
  cbn [run_actions]. unfold bind at 1. fold src. rewrite H1. unfold bind at 1.
  rewrite H2. unfold bind at 1. rewrite H3. unfold ret.
  eexists _, _. split; [reflexivity|].
  split; [reflexivity|]. split; [|reflexivity].
  unfold w2, w1.
  cbn [trace add_event set_fs add_log tmp_write set_tmp_avail set_environ].
  rewrite <- !app_assoc. reflexivity.
Qed.

Lemma diff_replace_run_on_a_changed_file_witness :
  environ Scenario.w0 !! "PATH" = Some "/bin"
  /\ fs Scenario.w0 !! "c.py" = Some ("import sys" ++ PyStr.nl)
  /\ ("c.py" ∉ unwritable Scenario.w0)
  /\ exists m' w',
      run_file (actions_of_diff_replace Scenario.P0) Scenario.add_comment (Path "c.py")
        Scenario.w0 = (Ok tt, m', w')
      /\ fs w' !! "c.py" = Some ("import sys  # x" ++ PyStr.nl)
      /\ count_events is_read (trace w') = 1
      /\ count_events is_transform (trace w') = 1.
Proof.
  assert (H1 : environ Scenario.w0 !! "PATH" = Some "/bin") by (vm_compute; reflexivity).
  assert (H3 : fs Scenario.w0 !! "c.py" = Some ("import sys" ++ PyStr.nl))
    by (vm_compute; reflexivity).
  assert (H6 : "c.py" ∉ unwritable Scenario.w0) by (apply not_elem_of_empty).
  split; [exact H1|]. split; [exact H3|]. split; [exact H6|].
  destruct (diff_replace_run_on_a_changed_file
              Scenario.P0 Scenario.add_comment "c.py" Scenario.w0 "/bin" 7
              ("import sys" ++ PyStr.nl) ("import sys  # x" ++ PyStr.nl)
              H1 eq_refl H3 eq_refl ltac:(discriminate) H6)
    as (m' & w' & E & Hfs & Htr & _).
  exists m', w'. split; [exact E|]. split; [rewrite Hfs; apply lookup_insert_eq|].
  rewrite Htr. split; reflexivity.
Defined.
